(** * Notion source connector: a shallow embedding and its specification

    The development follows the Python sources of the connector
    ([utils.py], [config.py], [auth.py], [client.py], [streams.py],
    [connector.py]).  Python values that come from JSON are modelled by the
    inductive type [json]; a [dict] is a finite map with string keys; an
    operation that can raise returns a [result]; a generator is the list of
    the items it yields together with the way it ends. *)

From Stdlib Require Import ZArith Floats Ascii.
From stdpp Require Import base option list gmap strings pretty.

Set Default Proof Using "Type".
Set Warnings "-register-all".
Local Open Scope Z_scope.

(** ** Python values *)

(** A decoded JSON document, as [response.json()] returns it. *)
Inductive json : Type :=
  | JNull
  | JBool (b : bool)
  | JInt (z : Z)
  | JFloat (f : float)
  | JStr (s : string)
  | JArr (l : list json)
  | JObj (m : gmap string json).

(** [dict] is the payload of [JObj]. *)
Abbreviation dict := (gmap string json).

(** Python's truth value of an object, the test behind [if x] and [not x]. *)
Definition truthy (v : json) : bool :=
  match v with
  | JNull => false
  | JBool b => b
  | JInt z => negb (z =? 0)
  | JFloat f => negb (PrimFloat.eqb f PrimFloat.zero)
  | JStr s => negb (String.eqb s "")
  | JArr l => match l with [] => false | _ :: _ => true end
  | JObj m => negb (Nat.eqb (size m) 0)
  end.

(** [d.get(k)]: the value under [k], [None] (here [JNull]) when missing. *)
Definition dict_get (d : dict) (k : string) : json :=
  default JNull (d !! k).

(** [d.get(k, dflt)]. *)
Definition dict_get_or (d : dict) (k : string) (dflt : json) : json :=
  default dflt (d !! k).

(** ** Exceptions and results *)

(** The exceptions the modelled code raises or handles.  [NotionAPIError]
    carries the fields of the class of [utils.py]; its subclasses differ by
    the status code only.  [RequestException] stands for the members of
    [requests.exceptions] other than [Timeout] and [ConnectionError]
    ([HTTPError], [JSONDecodeError], ...); [OtherException] for any further
    subclass of [Exception].  Every constructor carries the text [str(e)]
    of the exception.  What is raised outside [Exception]
    ([KeyboardInterrupt], [SystemExit]) is not modelled. *)
Inductive exn : Type :=
  | NotionAPIError (status_code : Z) (code message : string)
                   (request_id : option string)
  | NotionConnectionError (msg : string)
  | Timeout (msg : string)
  | ConnectionError (msg : string)
  | RequestException (msg : string)
  | AttributeError (msg : string)
  | TypeError (msg : string)
  | KeyError (msg : string)
  | OverflowError (msg : string)
  | OtherException (msg : string).

Inductive result (A : Type) : Type :=
  | Ok (a : A)
  | Raise (e : exn).
Arguments Ok {A} a.
Arguments Raise {A} e.

(** [result] is a monad; a sequence of statements that may raise is written
    with stdpp's [x ← r; k]. *)
#[global] Instance result_ret : MRet result := fun A a => Ok a.
#[global] Instance result_bind : MBind result := fun A B k r =>
  match r with
  | Ok a => k a
  | Raise e => Raise e
  end.

Definition returns {A} (r : result A) : Prop := exists a, r = Ok a.

(** [str(v)] as an f-string renders it.  The text of a float or of a
    container follows Python's [repr], which is left to the parameter
    [repr_other]. *)
Definition py_str (repr_other : json -> string) (v : json) : string :=
  match v with
  | JStr s => s
  | JNull => "None"
  | JBool true => "True"
  | JBool false => "False"
  | JInt z => pretty z
  | _ => repr_other v
  end.

(** [v.get(k, dflt)] on an arbitrary value: only a [dict] has the method. *)
Definition py_get (v : json) (k : string) (dflt : json) : result json :=
  match v with
  | JObj m => Ok (dict_get_or m k dflt)
  | _ => Raise (AttributeError "object has no attribute 'get'")
  end.

(** [v == s] for a string literal [s]. *)
Definition json_is_str (v : json) (s : string) : bool :=
  match v with
  | JStr s' => String.eqb s' s
  | _ => false
  end.

(** The text [str(e)] of an exception.  For [NotionAPIError] it is
    [_format_message] of [utils.py]. *)
Definition _format_message (status_code : Z) (code message : string)
    (request_id : option string) : string :=
  let base := "[" +:+ pretty status_code +:+ "] " +:+ code +:+ ": " +:+ message in
  match request_id with
  | Some rid =>
      if String.eqb rid "" then base
      else base +:+ " (Request ID: " +:+ rid +:+ ")"
  | None => base
  end.

Definition exn_str (e : exn) : string :=
  match e with
  | NotionAPIError st c m rid => _format_message st c m rid
  | NotionConnectionError m => m
  | Timeout m => m
  | ConnectionError m => m
  | RequestException m => m
  | AttributeError m => m
  | TypeError m => m
  | KeyError m => m
  | OverflowError m => m
  | OtherException m => m
  end.

(** ** Generators *)

(** How the run of a generator ends: it returns, an exception leaves it, or
    the model stops before the generator does ([Unfinished]: the scripted
    responses are used up, or a traversal budget is). *)
Inductive gen_end : Type :=
  | Done
  | Raised (e : exn)
  | Unfinished.

(** A run of a generator: the items yielded, in order, and its end. *)
Record gen (A : Type) : Type := Gen { yielded : list A; ending : gen_end }.
Arguments Gen {A} yielded ending.
Arguments yielded {A} g.
Arguments ending {A} g.

(** [yield x] followed by the run [g]. *)
Definition gen_cons {A} (x : A) (g : gen A) : gen A :=
  Gen (x :: yielded g) (ending g).

(** The run [g] followed, when [g] returns, by the run [k]. *)
Definition gen_seq {A} (g k : gen A) : gen A :=
  match ending g with
  | Done => Gen (yielded g ++ yielded k) (ending k)
  | e => Gen (yielded g) e
  end.

(** [for x in xs: yield from body(x)]. *)
Fixpoint gen_for {A B} (xs : list A) (body : A -> gen B) : gen B :=
  match xs with
  | [] => Gen [] Done
  | x :: xs' => gen_seq (body x) (gen_for xs' body)
  end.

(** [for x in g: yield from body(x)] over the run of a generator. *)
Definition gen_bind {A B} (g : gen A) (body : A -> gen B) : gen B :=
  gen_seq (gen_for (yielded g) body) (Gen [] (ending g)).

(** ** [utils.py]: Notion ids *)

(** A Python [str] is a sequence of code points.  The id helpers only
    compare a character with the dash, count and slice, so they are written
    over an arbitrary character type [char] with its [dash]. *)
Section NotionId.
Context {char : Type} `{EqDecision char}.
Variable dash : char.

(** [s.replace("-", "")] *)
Definition remove_dashes (s : list char) : list char :=
  filter (fun c => c ≠ dash) s.

(** The slice [s[a:b]] for [0 <= a <= b]. *)
Definition slice (a b : nat) (s : list char) : list char :=
  take (b - a) (drop a s).

Definition normalize_notion_id (notion_id : list char) : list char :=
  remove_dashes notion_id.

Definition format_notion_id (notion_id : list char) : list char :=
  let clean_id := remove_dashes notion_id in
  if decide (length clean_id = 32%nat) then
    take 8 clean_id ++ [dash] ++ slice 8 12 clean_id ++ [dash] ++
    slice 12 16 clean_id ++ [dash] ++ slice 16 20 clean_id ++ [dash] ++
    drop 20 clean_id
  else notion_id.

(** The canonical form in the words of the specification: the characters
    cut into groups of 8, 4, 4, 4 and 12, the groups joined by dashes. *)
Fixpoint groups (sizes : list nat) (s : list char) : list (list char) :=
  match sizes with
  | [] => []
  | n :: sizes' => take n s :: groups sizes' (drop n s)
  end.

Fixpoint join_dash (gs : list (list char)) : list char :=
  match gs with
  | [] => []
  | [g] => g
  | g :: gs' => g ++ dash :: join_dash gs'
  end.

Definition canonical_dashed (hex : list char) : list char :=
  join_dash (groups [8; 4; 4; 4; 12]%nat hex).

End NotionId.

(** ** [utils.py]: nested lookup *)

(** [safe_get_nested(data, *keys, default)]: the loop over [keys], [current]
    being the first argument. *)
Fixpoint safe_get_nested (current : json) (keys : list string)
    (default : json) : json :=
  match keys with
  | [] => current
  | key :: keys' =>
      match current with
      | JObj m =>
          match dict_get m key with
          | JNull => default
          | current' => safe_get_nested current' keys' default
          end
      | _ => default
      end
  end.

(** The plain nested lookup the helper guards: [Some v] when every key of
    the path is present in a map, whatever [v] is. *)
Fixpoint path_lookup (data : json) (keys : list string) : option json :=
  match keys with
  | [] => Some data
  | key :: keys' =>
      match data with
      | JObj m => m !! key ≫= fun v => path_lookup v keys'
      | _ => None
      end
  end.

(** ** [config.py] *)

Inductive credentials : Type :=
  | TokenCredentials (token : string)
  | OAuth2Credentials (client_id client_secret access_token : string)
                      (refresh_token : option string).

Record NotionConfig : Type := {
  config_credentials : credentials;
  api_version : string;
  start_date : option string;
  max_retries : Z;
  base_retry_delay : float;
  max_retry_delay : float;
  page_size : Z;
  request_timeout : Z;
  fetch_blocks : bool;
  max_block_depth : Z;
  sync_users : bool;
  sync_databases : bool;
  sync_pages : bool;
  sync_blocks : bool;
  sync_comments : bool
}.

(** [get_token]: the credential union has the two variants above, so the
    final [else: raise ValueError] of the source is not reachable. *)
Definition get_token (self : NotionConfig) : string :=
  match config_credentials self with
  | TokenCredentials token => token
  | OAuth2Credentials _ _ access_token _ => access_token
  end.

Definition get_auth_headers (self : NotionConfig) : gmap string string :=
  {[ "Authorization" := "Bearer " +:+ get_token self;
     "Notion-Version" := api_version self;
     "Content-Type" := "application/json" ]}.

(** ** [client.py]: the retry handler; [utils.py]: the error classifier *)

(** The builtin [min(a, b)]: [b] when [b < a], otherwise [a]. *)
Definition py_min (a b : float) : float :=
  if PrimFloat.ltb b a then b else a.

(** The conversion to [float] of the integer [2 ** attempt] that
    [float * int] performs: exact up to [2 ** 1023], and
    [OverflowError: int too large to convert to float] from [2 ** 1024] on. *)
Definition pow2_as_float (attempt : nat) : result float :=
  if (Z.of_nat attempt <=? 1023)
  then Ok (Z.ldexp PrimFloat.one (Z.of_nat attempt))
  else Raise (OverflowError "int too large to convert to float").

Module RetryHandler.

Record t : Type := {
  max_retries : Z;
  base_delay : float;
  max_delay : float
}.

(** The defaults of [__init__]. *)
Definition default : t :=
  {| max_retries := 5; base_delay := 1.0%float; max_delay := 60.0%float |}.

Definition RETRYABLE_STATUS_CODES : gset Z :=
  {[ 429; 500; 502; 503; 504 ]}.

Definition calculate_delay (self : t) (attempt : nat)
    (retry_after : option float) : result float :=
  delay ← match retry_after with
          | Some ra => Ok ra
          | None =>
              p ← pow2_as_float attempt;
              Ok (PrimFloat.mul (base_delay self) p)
          end;
  Ok (py_min delay (max_delay self)).

(** [should_retry]: the response enters through its status code only. *)
Definition should_retry (status_code : Z) : bool :=
  bool_decide (status_code ∈ RETRYABLE_STATUS_CODES).

End RetryHandler.

Module ApiError.

(** [NotionAPIError.RETRYABLE_STATUS_CODES] *)
Definition RETRYABLE_STATUS_CODES : gset Z :=
  {[ 409; 429; 500; 502; 503; 504 ]}.

(** The [is_retryable] property of an error with this status code. *)
Definition is_retryable (status_code : Z) : bool :=
  bool_decide (status_code ∈ RETRYABLE_STATUS_CODES).

End ApiError.

(** ** [utils.py], [streams.py]: datetimes and the inclusion predicate *)

(** A [datetime.datetime] as the two parsers build it: the wall-clock
    reading in microseconds from a fixed origin, and the fixed UTC offset in
    microseconds of an aware value ([None] for a naive one). *)
Record datetime : Type := { wall : Z; utcoffset : option Z }.

(** [a > b] on datetimes: wall clocks for two naive values, instants for
    two aware ones, and [TypeError] for a naive and an aware one. *)
Definition datetime_gt (a b : datetime) : result bool :=
  match utcoffset a, utcoffset b with
  | None, None => Ok (wall b <? wall a)
  | Some oa, Some ob => Ok (wall b - ob <? wall a - oa)
  | _, _ =>
      Raise (TypeError "can't compare offset-naive and offset-aware datetimes")
  end.

(** [s.endswith("Z")] and [s[:-1]] in one pass: the text before a final
    [Z], when there is one. *)
Fixpoint strip_final_Z (s : string) : option string :=
  match s with
  | EmptyString => None
  | String c EmptyString => if Ascii.eqb c "Z"%char then Some EmptyString else None
  | String c rest => String c <$> strip_final_Z rest
  end.

Section Streams.
(** The two parsers of the standard library, [datetime.fromisoformat] and
    [datetime.strptime(_, "%Y-%m-%d")]; [None] is their [ValueError]. *)
Variable fromisoformat : string -> option datetime.
Variable strptime_ymd : string -> option datetime.

(** [parse_iso_datetime].  Its argument is declared [Optional[str]]; the
    callers pass values read from records and state, so it is modelled on
    [json]: a truthy value that is not a string has no [endswith]. *)
Definition parse_iso_datetime (date_string : json)
    : result (option datetime) :=
  if negb (truthy date_string) then Ok None
  else match date_string with
       | JStr s =>
           let s' := match strip_final_Z s with
                     | Some prefix => prefix +:+ "+00:00"
                     | None => s
                     end in
           match fromisoformat s' with
           | Some d => Ok (Some d)
           | None => Ok (strptime_ymd s')
           end
       | _ => Raise (AttributeError "object has no attribute 'endswith'")
       end.

(** [StreamState]: the wrapped dictionary [_state]. *)
Definition get_last_sync_time (_state : dict) : result (option datetime) :=
  let ts := dict_get _state "last_sync_time" in
  if truthy ts then parse_iso_datetime ts else Ok None.

(** The class attributes of a stream. *)
Record BaseStream : Type := {
  name : string;
  primary_key : string;
  cursor_field : option string;
  supports_incremental : bool
}.

Definition _should_include_record (self : BaseStream) (state : dict)
    (record : dict) (sync_mode : string) : result bool :=
  if negb (String.eqb sync_mode "incremental")
     || negb (supports_incremental self) then Ok true
  else match cursor_field self with
  | None => Ok true
  | Some field =>
  if String.eqb field "" then Ok true
  else
    let cursor_value := dict_get record field in
    if negb (truthy cursor_value) then Ok true
    else
      last_sync ← get_last_sync_time state;
      match last_sync with
      | None => Ok true
      | Some last_sync =>
          record_time ← parse_iso_datetime cursor_value;
          match record_time with
          | None => Ok true
          | Some record_time => datetime_gt record_time last_sync
          end
      end
  end.

End Streams.

(** ** [auth.py]: validation of the credentials *)

(** What the code reads of a [requests.Response]: the status code, the
    text, and the document [json()] decodes ([None] when the text is not
    JSON). *)
Record response : Type := {
  status_code : Z;
  text : string;
  json_body : option json
}.

Record AuthenticationResult : Type := {
  success : bool;
  user_info : json;
  workspace_info : json;
  error : json
}.

Definition auth_failure (message : json) : AuthenticationResult :=
  {| success := false; user_info := JNull; workspace_info := JNull;
     error := message |}.

(** The fields of [NotionAuthenticator] that [validate] assigns. *)
Record auth_state : Type := {
  _authenticated : bool;
  _bot_info : json
}.

Section Auth.
(** The texts of the two exceptions of [requests] built from a response:
    the [HTTPError] of [raise_for_status] and the [JSONDecodeError] of
    [json()].  Both classes derive from [RequestException] (the decoding
    error since requests 2.27). *)
Variable http_error_text : response -> string.
Variable json_error_text : response -> string.

Definition response_json (r : response) : result json :=
  match json_body r with
  | Some v => Ok v
  | None => Raise (RequestException (json_error_text r))
  end.

(** [raise_for_status]: an error for the statuses 400 to 599. *)
Definition raise_for_status (r : response) : result unit :=
  if (400 <=? status_code r) && (status_code r <? 600)
  then Raise (RequestException (http_error_text r))
  else Ok tt.

(** The body of the [try] of [validate], given the response of the GET. *)
Definition validate_try (st : auth_state) (r : response)
    : auth_state * result AuthenticationResult :=
  if status_code r =? 401 then
    (st,
     error_data ← (if negb (String.eqb (text r) "")
                   then response_json r else Ok (JObj ∅));
     message ← py_get error_data "message" (JStr "Invalid or expired token");
     Ok (auth_failure message))
  else if status_code r =? 403 then
    (st, Ok (auth_failure
               (JStr "Access forbidden - check integration permissions")))
  else
    match (_ ← raise_for_status r;
           user_data ← response_json r;
           object ← py_get user_data "object" JNull;
           Ok (user_data, object)) with
    | Raise e => (st, Raise e)
    | Ok (user_data, object) =>
        if negb (json_is_str object "user") then
          (st, Ok (auth_failure
                     (JStr "Unexpected response from /users/me endpoint")))
        else
          ({| _authenticated := true; _bot_info := user_data |},
           type ← py_get user_data "type" JNull;
           workspace_info ←
             (if json_is_str type "bot" then
                bot_data ← py_get user_data "bot" (JObj ∅);
                py_get bot_data "workspace_name" JNull
              else Ok JNull);
           Ok {| success := true;
                 user_info := user_data;
                 workspace_info :=
                   if truthy workspace_info
                   then JObj {[ "name" := workspace_info ]} else JNull;
                 error := JNull |})
    end.

(** The three [except] clauses of [validate], in their order. *)
Definition validate_except (r : result AuthenticationResult)
    : result AuthenticationResult :=
  match r with
  | Raise (Timeout _) =>
      Ok (auth_failure (JStr "Connection timeout while validating token"))
  | Raise (ConnectionError _) =>
      Ok (auth_failure (JStr "Failed to connect to Notion API"))
  | Raise (RequestException m) =>
      Ok (auth_failure (JStr ("Request failed: " +:+ m)))
  | other => other
  end.

(** [validate]: [get] is the outcome of [session.get(".../users/me")]. *)
Definition validate (st : auth_state) (get : result response)
    : auth_state * result AuthenticationResult :=
  match get with
  | Raise e => (st, validate_except (Raise e))
  | Ok r => let '(st', res) := validate_try st r in (st', validate_except res)
  end.

End Auth.

(** ** [client.py]: pagination *)

(** The arguments of one call of [_request]. *)
Record request : Type := {
  rq_method : string;
  rq_endpoint : string;
  rq_params : option dict;
  rq_json : option dict
}.

(** [for item in v]: the items of an array; the characters of a string; the
    keys of a map (in the order of the finite map: insertion order is not
    modelled); [TypeError] for a value that is not iterable. *)
Definition py_iter (v : json) : result (list json) :=
  match v with
  | JArr l => Ok l
  | JStr s => Ok ((fun c => JStr (String c EmptyString)) <$> String.list_ascii_of_string s)
  | JObj m => Ok ((fun kv => JStr kv.1) <$> map_to_list m)
  | _ => Raise (TypeError "object is not iterable")
  end.

(** What [_paginate] reads of one decoded page: the items to yield and the
    cursor of the next page, [None] when the loop ends at a [break].  Every
    exception of this part is raised before the first item of the page is
    yielded. *)
Definition read_page (data : json) : result (list json * option json) :=
  results ← py_get data "results" (JArr []);
  items ← py_iter results;
  has_more ← py_get data "has_more" (JBool false);
  if negb (truthy has_more) then Ok (items, None)
  else
    start_cursor ← py_get data "next_cursor" JNull;
    if negb (truthy start_cursor) then Ok (items, None)
    else Ok (items, Some start_cursor).

(** A run of [_paginate]: the calls of [_request] in order, and the items. *)
Record paginate_run : Type := {
  requests : list request;
  run : gen json
}.

Section Paginate.
Variable config : NotionConfig.
Variables (endpoint method : string) (body params : option dict).

(** The request of one turn of the loop, for the current [start_cursor]
    ([None] on the first turn). *)
Definition page_request (start_cursor : option json) : request :=
  let pagination_params : dict :=
    match start_cursor with
    | Some c => <[ "start_cursor" := c ]> {[ "page_size" := JInt (page_size config) ]}
    | None => {[ "page_size" := JInt (page_size config) ]}
    end in
  if String.eqb method "POST" then
    {| rq_method := "POST"; rq_endpoint := endpoint; rq_params := None;
       rq_json := Some (pagination_params ∪ default ∅ body) |}
  else
    {| rq_method := "GET"; rq_endpoint := endpoint;
       rq_params := Some (pagination_params ∪ default ∅ params);
       rq_json := None |}.

(** The [while True] loop.  [script] lists the outcomes of the successive
    calls of [_request]: a decoded page, or the exception the call raises.
    When the loop asks for a page beyond the script the run is
    [Unfinished]. *)
Fixpoint _paginate_loop (start_cursor : option json)
    (script : list (result json)) : paginate_run :=
  let rq := page_request start_cursor in
  match script with
  | [] => {| requests := [rq]; run := Gen [] Unfinished |}
  | Raise e :: _ => {| requests := [rq]; run := Gen [] (Raised e) |}
  | Ok data :: script' =>
      match read_page data with
      | Raise e => {| requests := [rq]; run := Gen [] (Raised e) |}
      | Ok (items, None) => {| requests := [rq]; run := Gen items Done |}
      | Ok (items, Some next_cursor) =>
          let rest := _paginate_loop (Some next_cursor) script' in
          {| requests := rq :: requests rest;
             run := Gen (items ++ yielded (run rest)) (ending (run rest)) |}
      end
  end.

Definition _paginate (script : list (result json)) : paginate_run :=
  _paginate_loop None script.

End Paginate.

(** ** [client.py]: the recursive block fetch *)

Section Blocks.
(** [list_block_children]: the run of the listing of the children of an
    id, as the service answers it. *)
Variable list_block_children : json -> gen json.

(** The two item assignments of the loop body. *)
Definition tag_block (parent_id : json) (current_depth : Z) (block : dict)
    : dict :=
  <[ "_parent_id" := parent_id ]> (<[ "_depth" := JInt current_depth ]> block).

(** [_fetch_recursive].  A call at [current_depth] recurses only below
    [max_depth], so the nesting of calls is bounded; [budget] is that bound
    (see [get_all_blocks]) and the recursion is on it. *)
Fixpoint _fetch_recursive (max_depth : Z) (budget : nat) (parent_id : json)
    (current_depth : Z) {struct budget} : gen json :=
  gen_bind (list_block_children parent_id) (fun block =>
    match block with
    | JObj fields =>
        let block := tag_block parent_id current_depth fields in
        gen_cons (JObj block)
          (if truthy (dict_get block "has_children")
              && (current_depth <? max_depth)
           then match block !! "id" with
                | None => Gen [] (Raised (KeyError "'id'"))
                | Some id =>
                    match budget with
                    | S budget' =>
                        _fetch_recursive max_depth budget' id (current_depth + 1)
                    | O => Gen [] Unfinished
                    end
                end
           else Gen [] Done)
    | _ => Gen [] (Raised (TypeError "object does not support item assignment"))
    end).

Definition get_all_blocks (config : NotionConfig) (block_id : string)
    (max_depth : option Z) : gen json :=
  let max_depth := default (max_block_depth config) max_depth in
  _fetch_recursive max_depth (Z.to_nat (max_depth - 1)) (JStr block_id) 1.

End Blocks.

(** ** [connector.py]: the connection check *)

(** [AirbyteMessage.connection_status] *)
Definition connection_status (status : string) (message : option string)
    : dict :=
  let connectionStatus : dict := {[ "status" := JStr status ]} in
  {[ "type" := JStr "CONNECTION_STATUS";
     "connectionStatus" :=
       JObj (match message with
             | Some text =>
                 if String.eqb text "" then connectionStatus
                 else <[ "message" := JStr text ]> connectionStatus
             | None => connectionStatus
             end) ]}.

(** The two entries a caller reads of a status message. *)
Definition status_of (msg : dict) : option json :=
  msg !! "connectionStatus" ≫= fun cs =>
  match cs with JObj m => m !! "status" | _ => None end.

Definition message_of (msg : dict) : option json :=
  msg !! "connectionStatus" ≫= fun cs =>
  match cs with JObj m => m !! "message" | _ => None end.

Definition insufficient_permissions : string :=
  "Integration does not have sufficient permissions. " +:+
  "Please check the integration capabilities in Notion settings.".

Section Connector.
Variable repr_other : json -> string.
Variable http_error_text : response -> string.
Variable json_error_text : response -> string.

(** The body of the outer [try] of [check]: [validation] is the outcome of
    [self.authenticator.validate()], [users] that of
    [list(self.client.list_users())]. *)
Definition check_try (validation : result AuthenticationResult)
    (users : result (list json)) : result dict :=
  auth_result ← validation;
  if negb (success auth_result) then
    Ok (connection_status "FAILED"
          (Some ("Authentication failed: " +:+
                 py_str repr_other (error auth_result))))
  else
    match users with
    | Raise (NotionAPIError st code message rid) =>
        if st =? 403 then
          Ok (connection_status "FAILED" (Some insufficient_permissions))
        else Raise (NotionAPIError st code message rid)
    | Raise e => Raise e
    | Ok _ =>
        name ← py_get (user_info auth_result) "name" (JStr "Bot");
        Ok (connection_status "SUCCEEDED"
              (Some ("Connected to Notion workspace as " +:+
                     py_str repr_other name)))
    end.

(** The three [except] clauses of [check], in their order. *)
Definition check_except (r : result dict) : dict :=
  match r with
  | Ok msg => msg
  | Raise (NotionConnectionError m) =>
      connection_status "FAILED" (Some m)
  | Raise (NotionAPIError st code message rid) =>
      connection_status "FAILED"
        (Some (exn_str (NotionAPIError st code message rid)))
  | Raise e =>
      connection_status "FAILED" (Some ("Unexpected error: " +:+ exn_str e))
  end.

(** [check]: [get] is the outcome of the GET of [validate], [users] the
    outcome of the permission probe. *)
Definition check (st : auth_state) (get : result response)
    (users : result (list json)) : dict :=
  check_except
    (check_try (validate http_error_text json_error_text st get).2 users).

End Connector.

(** * Notions of the specification *)

(** ** Retry delays *)

(** The float [f] is exactly [2 ** n]: the binary64 datum with mantissa
    [2 ** 52] and exponent [n - 52]. *)
Definition is_pow2 (n : nat) (f : float) : bool :=
  match Prim2SF f with
  | S754_finite false m e =>
      Pos.eqb m 4503599627370496 && (e =? Z.of_nat n - 52)
  | _ => false
  end.

(** ** Streams and datetimes *)

(** The class attributes of the five streams of [streams.py]. *)
Definition UsersStream : BaseStream :=
  {| name := "users"; primary_key := "id"; cursor_field := None;
     supports_incremental := false |}.
Definition DatabasesStream : BaseStream :=
  {| name := "databases"; primary_key := "id";
     cursor_field := Some "last_edited_time"; supports_incremental := true |}.
Definition PagesStream : BaseStream :=
  {| name := "pages"; primary_key := "id";
     cursor_field := Some "last_edited_time"; supports_incremental := true |}.
Definition BlocksStream : BaseStream :=
  {| name := "blocks"; primary_key := "id";
     cursor_field := Some "last_edited_time"; supports_incremental := true |}.
Definition CommentsStream : BaseStream :=
  {| name := "comments"; primary_key := "id";
     cursor_field := Some "created_time"; supports_incremental := true |}.



(** The values of the two library parsers on the strings of the examples,
    the wall clock counted from 2024-01-01T00:00:00. *)
Definition fromisoformat_sample (s : string) : option datetime :=
  if String.eqb s "2024-01-15T10:30:00+00:00"
  then Some {| wall := 1247400000000; utcoffset := Some 0 |}
  else if String.eqb s "2024-01-15T10:30:01+00:00"
  then Some {| wall := 1247401000000; utcoffset := Some 0 |}
  else if String.eqb s "2024-01-15"
  then Some {| wall := 1209600000000; utcoffset := None |}
  else None.

Definition strptime_ymd_sample (s : string) : option datetime :=
  if String.eqb s "2024-01-15"
  then Some {| wall := 1209600000000; utcoffset := None |}
  else None.

(** ** Outcomes of the validation request *)

(** The exceptions the [except] clauses of [validate] name. *)
Definition request_level (e : exn) : bool :=
  match e with
  | Timeout _ | ConnectionError _ | RequestException _ => true
  | _ => false
  end.

(** [is_object_or_missing o]: no entry, or an entry that is a map. *)
Definition is_object_or_missing (o : option json) : bool :=
  match o with
  | None | Some (JObj _) => true
  | Some _ => false
  end.

(** The responses on which every [get] of [validate] is called on a map:
    the body that is read either does not decode or is a JSON object, and
    so is the [bot] entry, when present, of a bot user. *)
Definition object_bodies (r : response) : bool :=
  if status_code r =? 401 then
    String.eqb (text r) "" || is_object_or_missing (json_body r)
  else if status_code r =? 403 then true
  else if (400 <=? status_code r) && (status_code r <? 600) then true
  else
    match json_body r with
    | None => true
    | Some (JObj m) =>
        if json_is_str (dict_get m "object") "user"
           && json_is_str (dict_get m "type") "bot"
        then is_object_or_missing (m !! "bot")
        else true
    | Some _ => false
    end.

(** The outcomes of the GET that [validate] turns into a result. *)
Definition handled_outcome (get : result response) : bool :=
  match get with
  | Ok r => object_bodies r
  | Raise e => request_level e
  end.

(** ** Pages in the shape of the service *)

(** The view of a page the specification speaks of:
    [{results, has_more, next_cursor}]. *)
Record page : Type := {
  results : list json;
  has_more : bool;
  next_cursor : option string
}.

(** [data] is a decoded page with the view [p]: a JSON object, with any
    further entries, whose [results] is the array, whose [has_more] is the
    flag, and whose [next_cursor] is the string, or is null or missing. *)
Definition shaped (data : json) (p : page) : Prop :=
  exists m : dict,
    data = JObj m /\
    m !! "results" = Some (JArr (results p)) /\
    m !! "has_more" = Some (JBool (has_more p)) /\
    match next_cursor p with
    | Some c => m !! "next_cursor" = Some (JStr c)
    | None => m !! "next_cursor" = None \/ m !! "next_cursor" = Some JNull
    end.

(** The page reports more results and supplies a non-empty cursor. *)
Definition continues (p : page) : bool :=
  has_more p &&
  match next_cursor p with
  | Some c => negb (String.eqb c "")
  | None => false
  end.

(** The number of pages of the sequence [ps] that the specification has
    fetched: the pages up to and including the first that does not
    continue. *)
Fixpoint fetched (ps : list page) : nat :=
  match ps with
  | [] => 0
  | p :: ps' => S (if continues p then fetched ps' else 0)
  end.

(** The [start_cursor] a request carries. *)
Definition start_cursor_of (rq : request) : option json :=
  match rq_json rq, rq_params rq with
  | Some b, _ => b !! "start_cursor"
  | None, Some q => q !! "start_cursor"
  | None, None => None
  end.

(** A configuration with the defaults of [config.py] and a token. *)
Definition sample_config : NotionConfig :=
  {| config_credentials := TokenCredentials "secret_token";
     api_version := "2022-06-28";
     start_date := None;
     max_retries := 5;
     base_retry_delay := 1.0%float;
     max_retry_delay := 60.0%float;
     page_size := 100;
     request_timeout := 60;
     fetch_blocks := true;
     max_block_depth := 5;
     sync_users := true;
     sync_databases := true;
     sync_pages := true;
     sync_blocks := true;
     sync_comments := true |}.

(** ** The traversal in the words of the specification *)

Section BlocksSpec.
Variable list_block_children : json -> gen json.

(** Depth-first traversal with [levels] further levels allowed below the
    current one: list the children of [parent_id], tag each with the depth
    and the parent id and yield it; expand a child flagged as having
    children while a level remains, and leave it a leaf otherwise. *)
Fixpoint dfs (levels : nat) (parent_id : json) (depth : Z) : gen json :=
  gen_bind (list_block_children parent_id) (fun block =>
    match block with
    | JObj fields =>
        let block := tag_block parent_id depth fields in
        gen_cons (JObj block)
          match levels with
          | O => Gen [] Done
          | S levels' =>
              if truthy (dict_get block "has_children") then
                match block !! "id" with
                | None => Gen [] (Raised (KeyError "'id'"))
                | Some id => dfs levels' id (depth + 1)
                end
              else Gen [] Done
          end
    | _ => Gen [] (Raised (TypeError "object does not support item assignment"))
    end).

End BlocksSpec.

(** A page whose children have children, three levels deep, as the listing
    of the service: [root] has [a], [a] has [b], [b] has [c]. *)
Definition sample_block (id : string) (has_children : bool) : json :=
  JObj {[ "id" := JStr id; "has_children" := JBool has_children ]}.

Definition sample_children (parent_id : json) : gen json :=
  if json_is_str parent_id "root" then Gen [sample_block "a" true] Done
  else if json_is_str parent_id "a" then Gen [sample_block "b" true] Done
  else if json_is_str parent_id "b" then Gen [sample_block "c" false] Done
  else Gen [] Done.

(** * Further code of the connector *)

(** ** [utils.py]: lists, rich text, filters *)

(** [range(0, stop, step)] for a positive [step]: the multiples of [step]
    below [stop]. *)
Definition range_step (stop step : nat) : list nat :=
  (fun k => (k * step)%nat) <$> seq 0 ((stop + step - 1) / step)%nat.

(** [chunk_list]: [range] refuses a zero step with a [ValueError], and is
    empty for a negative one. *)
Definition chunk_list {A} (items : list A) (chunk_size : Z)
    : result (list (list A)) :=
  if chunk_size =? 0 then
    Raise (OtherException "range() arg 3 must not be zero")
  else if chunk_size <? 0 then Ok []
  else
    let n := Z.to_nat chunk_size in
    Ok ((fun i => take n (drop i items)) <$> range_step (length items) n).

(** ["".join(parts)] on strings. *)
Definition str_join (parts : list string) : string :=
  foldr String.app "" parts.

(** The argument of ["".join(...)] must hold strings only. *)
Definition py_join_item (v : json) : result string :=
  match v with
  | JStr s => Ok s
  | _ => Raise (TypeError "sequence item: expected str instance")
  end.

(** ["".join(item.get("plain_text", "") for item in items)]: [join] first
    runs the generator to its end, so a [get] on an item that is not a map
    raises before any of the texts is checked to be a string. *)
Definition join_plain_text (items : list json) : result string :=
  texts ← mapM (fun item => py_get item "plain_text" (JStr "")) items;
  parts ← mapM py_join_item texts;
  Ok (str_join parts).

Definition extract_plain_text (rich_text_array : json) : result string :=
  if negb (truthy rich_text_array) then Ok ""
  else items ← py_iter rich_text_array; join_plain_text items.

Definition extract_title (title_property : json) : result string :=
  extract_plain_text title_property.

(** The text a rich-text item contributes, when it is a map whose
    [plain_text] is a string or is missing. *)
Definition plain_text_of (item : json) : option string :=
  match item with
  | JObj m =>
      match m !! "plain_text" with
      | None => Some ""
      | Some (JStr s) => Some s
      | Some _ => None
      end
  | _ => None
  end.

(** [build_filter_condition]: a dictionary display with the keys
    ["property"] and [property_type], the later entry winning when the two
    keys are equal. *)
Definition build_filter_condition (property_name property_type
    condition : string) (value : json) : dict :=
  <[ property_type := JObj {[ condition := value ]} ]>
    {[ "property" := JStr property_name ]}.

(** ** [utils.py], [client.py]: the error built from a response *)

(** A [requests.Response] with the two headers the code reads:
    [headers.get("Retry-After")] and [headers.get("x-request-id")]. *)
Record http_response : Type := {
  resp : response;
  retry_after_header : option string;
  request_id_header : option string
}.

(** [response.ok]: [raise_for_status] does not raise. *)
Definition response_ok (r : response) : bool :=
  negb ((400 <=? status_code r) && (status_code r <? 600)).

Section FromResponse.
(** [float(s)] on a string; [None] is its [ValueError]. *)
Variable parse_float : string -> option float.
Variable repr_other : json -> string.

(** [RetryHandler.get_retry_after]: a header that does not read as a float
    is dropped. *)
Definition get_retry_after (r : http_response) : option float :=
  match retry_after_header r with
  | Some s => if String.eqb s "" then None else parse_float s
  | None => None
  end.

(** [float(retry_after) if retry_after else None] of [from_response]; the
    [ValueError] of [float] is not handled there. *)
Definition retry_after_or_raise (r : http_response) : result (option float) :=
  match retry_after_header r with
  | Some s =>
      if String.eqb s "" then Ok None
      else match parse_float s with
           | Some f => Ok (Some f)
           | None => Raise (OtherException "could not convert string to float")
           end
  | None => Ok None
  end.

(** [NotionAPIError.from_response].  The [try] guards the decoding of the
    body ([JSONDecodeError] is a [ValueError]) but not the two [get], which
    a body that is not a map lacks.  The subclasses are built with the
    status they are selected by.  The error keeps [code] and [message] as
    the text its message shows them with. *)
Definition from_response (r : http_response) : result exn :=
  let status := status_code (resp r) in
  let request_id := request_id_header r in
  '(code, message) ←
    match json_body (resp r) with
    | Some error_data =>
        code ← py_get error_data "code" (JStr "unknown_error");
        message ← py_get error_data "message" (JStr "Unknown error occurred");
        Ok (code, message)
    | None =>
        Ok (JStr "unknown_error",
            JStr (if String.eqb (text (resp r)) ""
                  then "Unknown error occurred" else text (resp r)))
    end;
  let code := py_str repr_other code in
  let message := py_str repr_other message in
  if status =? 401 then Ok (NotionAPIError 401 code message request_id)
  else if status =? 429 then
    _ ← retry_after_or_raise r;
    Ok (NotionAPIError 429 code message request_id)
  else if status =? 400 then Ok (NotionAPIError 400 code message request_id)
  else if status =? 404 then Ok (NotionAPIError 404 code message request_id)
  else if status =? 403 then Ok (NotionAPIError 403 code message request_id)
  else Ok (NotionAPIError status code message request_id).

End FromResponse.

(** ** [client.py]: one request with its retries *)

(** What a call of [_request] does that can be seen from outside: the
    requests it sends, numbered by attempt, and the pauses between them. *)
Inductive event : Type :=
  | Sent (attempt : nat)
  | Slept (delay : float).

(** The way one turn of the loop of [_request] ends. *)
Inductive turn : Type :=
  | Return (data : json)
  | Fail (e : exn)
  | Continue (delay : float).

Section Request.
Variable parse_float : string -> option float.
Variable repr_other : json -> string.
Variable json_error_text : response -> string.
(** [time.sleep(delay)]: it raises for a delay it does not accept. *)
Variable time_sleep : float -> result unit.

Variable retry_handler : RetryHandler.t.
Variable endpoint : string.
(** The outcome of [session.request] at each attempt. *)
Variable send : nat -> result http_response.

(** [if attempt < max_retries: delay = ...; time.sleep(delay); continue],
    and otherwise the [raise] of the branch.  Neither [except] clause of
    [_request] catches what [calculate_delay], [time.sleep] or
    [from_response] raise. *)
Definition backoff (attempt : nat) (retry_after : option float)
    (exhausted : result exn) : turn :=
  if Z.of_nat attempt <? RetryHandler.max_retries retry_handler then
    match RetryHandler.calculate_delay retry_handler attempt retry_after with
    | Raise e => Fail e
    | Ok delay =>
        match time_sleep delay with
        | Raise e => Fail e
        | Ok _ => Continue delay
        end
    end
  else match exhausted with
       | Ok e => Fail e
       | Raise e => Fail e
       end.

(** The body of the [for] loop.  The rate limiter only sleeps and is left
    out. *)
Definition attempt_turn (attempt : nat) : turn :=
  match send attempt with
  | Ok r =>
      let status := status_code (resp r) in
      if status =? 429 then
        backoff attempt (get_retry_after parse_float r)
          (from_response parse_float repr_other r)
      else if 500 <=? status then
        backoff attempt None (from_response parse_float repr_other r)
      else if negb (response_ok (resp r)) then
        match from_response parse_float repr_other r with
        | Ok e => Fail e
        | Raise e => Fail e
        end
      else
        match response_json json_error_text (resp r) with
        | Ok data => Return data
        | Raise e => Fail e
        end
  | Raise (Timeout _) =>
      backoff attempt None
        (Ok (NotionConnectionError
               ("Request to " +:+ endpoint +:+ " timed out after " +:+
                pretty (Z.of_nat attempt + 1) +:+ " attempts")))
  | Raise (ConnectionError m) =>
      backoff attempt None
        (Ok (NotionConnectionError
               ("Failed to connect to " +:+ endpoint +:+ " after " +:+
                pretty (Z.of_nat attempt + 1) +:+ " attempts: " +:+ m)))
  | Raise e => Fail e
  end.

(** [for attempt in range(max_retries + 1)] from [attempt] on, with
    [remaining] turns left, and the [raise] after the loop. *)
Fixpoint _request_loop (remaining attempt : nat) : list event * result json :=
  match remaining with
  | O =>
      ([], Raise (NotionConnectionError
                    ("Max retries exceeded for " +:+ endpoint)))
  | S remaining' =>
      match attempt_turn attempt with
      | Return data => ([Sent attempt], Ok data)
      | Fail e => ([Sent attempt], Raise e)
      | Continue delay =>
          let '(events, outcome) := _request_loop remaining' (S attempt) in
          (Sent attempt :: Slept delay :: events, outcome)
      end
  end.

Definition _request : list event * result json :=
  _request_loop (Z.to_nat (RetryHandler.max_retries retry_handler + 1)) 0.

(** The outcomes of [session.request] that lead to a retry while attempts
    remain: the statuses 429 and 500 and above, a timeout, a connection
    error. *)
Definition transient (outcome : result http_response) : bool :=
  match outcome with
  | Ok r => (status_code (resp r) =? 429) || (500 <=? status_code (resp r))
  | Raise (Timeout _) | Raise (ConnectionError _) => true
  | Raise _ => false
  end.

(** The [Retry-After] that enters the delay: read after a 429 only. *)
Definition retry_after_of (outcome : result http_response) : option float :=
  match outcome with
  | Ok r => if status_code (resp r) =? 429
            then get_retry_after parse_float r else None
  | Raise _ => None
  end.

(** What [raise NotionAPIError.from_response(response)] raises: the error
    built, or what building it raises. *)
Definition response_error (r : http_response) : exn :=
  match from_response parse_float repr_other r with
  | Ok e => e
  | Raise e => e
  end.


End Request.

(** The requests sent and the pauses made in a sequence of events. *)
Definition sent (events : list event) : list nat :=
  omap (fun ev => match ev with Sent n => Some n | Slept _ => None end) events.

Definition slept (events : list event) : list float :=
  omap (fun ev => match ev with Slept d => Some d | Sent _ => None end) events.

(** The events of [k] attempts from [attempt] on, each followed by its
    pause. *)
Fixpoint retried (attempt : nat) (delays : list float) : list event :=
  match delays with
  | [] => []
  | d :: delays' => Sent attempt :: Slept d :: retried (S attempt) delays'
  end.

(** The [Retry-After] header is missing, empty, or reads as a float. *)
Definition retry_after_reads (parse_float : string -> option float)
    (r : http_response) : bool :=
  match retry_after_header r with
  | Some s => String.eqb s "" || bool_decide (is_Some (parse_float s))
  | None => true
  end.

(** The values of [float] on the header texts of the examples. *)
Definition parse_float_sample (s : string) : option float :=
  if String.eqb s "2" then Some 2%float
  else if String.eqb s "0.5" then Some 0.5%float
  else if String.eqb s "-5" then Some (-5)%float
  else None.

(** [time.sleep] on the delays of the examples: a negative delay is
    refused. *)
Definition time_sleep_sample (delay : float) : result unit :=
  if PrimFloat.ltb delay 0%float
  then Raise (OtherException "sleep length must be non-negative")
  else Ok tt.

(** A response with a status, a body and a [Retry-After] header. *)
Definition sample_response (status : Z) (body : option json)
    (retry_after : option string) : http_response :=
  {| resp := {| status_code := status; text := ""; json_body := body |};
     retry_after_header := retry_after;
     request_id_header := None |}.

(** A rate limit, a timeout and a server error, and then the answer. *)
Definition send_sample (attempt : nat) : result http_response :=
  match attempt with
  | 0%nat => Ok (sample_response 429 (Some (JObj ∅)) (Some "2"))
  | 1%nat => Raise (Timeout "timed out")
  | 2%nat => Ok (sample_response 503 None None)
  | _ => Ok (sample_response 200 (Some (JObj {[ "object" := JStr "user" ]}))
               None)
  end.

(** A conflict, answered at every attempt. *)
Definition send_conflict (attempt : nat) : result http_response :=
  Ok (sample_response 409
        (Some (JObj {[ "code" := JStr "conflict_error";
                       "message" := JStr "Conflict" ]})) None).

(** A rate limit that asks for a negative pause. *)
Definition send_negative (attempt : nat) : result http_response :=
  Ok (sample_response 429 (Some (JObj ∅)) (Some "-5")).

(** ** [auth.py]: failures raised, and the workspace *)

(** [s.lower()], as far as the search for an ASCII word in the result goes:
    the letters [A] to [Z] are lowered; no character outside ASCII lowers
    to a letter of the words searched below. *)
Definition ascii_lower (c : ascii) : ascii :=
  let n := N_of_ascii c in
  if ((65 <=? n) && (n <=? 90))%N then ascii_of_N (n + 32) else c.

Fixpoint str_lower (s : string) : string :=
  match s with
  | EmptyString => EmptyString
  | String c s' => String (ascii_lower c) (str_lower s')
  end.

(** [word in s] *)
Fixpoint str_contains (word s : string) : bool :=
  String.prefix word s ||
  match s with
  | EmptyString => false
  | String _ s' => str_contains word s'
  end.

(** The test of [validate_or_raise] on the text of a failure. *)
Definition mentions_connection (error : string) : bool :=
  str_contains "connect" (str_lower error) ||
  str_contains "timeout" (str_lower error).

Section AuthRaise.
Variable http_error_text : response -> string.
Variable json_error_text : response -> string.

(** [validate_or_raise]: [error] has no [lower] unless it is a string.
    [NotionAuthenticationError] is the error with the status 401. *)
Definition validate_or_raise (st : auth_state) (get : result response)
    : auth_state * result json :=
  let '(st', validation) := validate http_error_text json_error_text st get in
  (st',
   result ← validation;
   if negb (success result) then
     match error result with
     | JStr text =>
         if mentions_connection text then Raise (NotionConnectionError text)
         else Raise (NotionAPIError 401 "unauthorized" text None)
     | _ => Raise (AttributeError "object has no attribute 'lower'")
     end
   else Ok (user_info result)).

End AuthRaise.

(** [get_workspace_info], on the fields [validate] has assigned. *)
Definition get_workspace_info (st : auth_state) : result json :=
  if negb (_authenticated st) || negb (truthy (_bot_info st)) then Ok JNull
  else
    type ← py_get (_bot_info st) "type" JNull;
    if json_is_str type "bot" then
      bot_data ← py_get (_bot_info st) "bot" (JObj ∅);
      name ← py_get bot_data "workspace_name" JNull;
      owner ← py_get bot_data "owner" JNull;
      Ok (JObj {[ "name" := name; "owner" := owner ]})
    else Ok JNull.

(** The authenticator as [__init__] leaves it. *)
Definition fresh_auth : auth_state :=
  {| _authenticated := false; _bot_info := JNull |}.

(** A bot whose [bot] entry names an owner and no workspace. *)
Definition bot_response : response :=
  {| status_code := 200; text := "{...}";
     json_body :=
       Some (JObj {[ "object" := JStr "user"; "type" := JStr "bot";
                     "bot" := JObj {[ "owner" := JStr "workspace" ]} ]}) |}.

(** ** [connector.py]: the streams to sync *)

Definition _get_enabled_streams (config : NotionConfig) : list string :=
  (if sync_users config then ["users"] else []) ++
  (if sync_databases config then ["databases"] else []) ++
  (if sync_pages config then ["pages"] else []) ++
  (if sync_blocks config then ["blocks"] else []) ++
  (if sync_comments config then ["comments"] else []).

(** [stream_name and stream_name in enabled_streams]: the name when the
    test holds.  A value that is not a string equals no stream name. *)
Definition enabled_name (enabled_streams : list string) (stream_name : json)
    : option string :=
  match stream_name with
  | JStr s =>
      if truthy stream_name && bool_decide (s ∈ enabled_streams)
      then Some s else None
  | _ => None
  end.

(** The loop of [_get_streams_to_sync] over the stream definitions of the
    catalog, [selected_streams] being the list built so far. *)
Fixpoint select_streams (enabled_streams : list string) (defs : list json)
    (selected_streams : list string) : result (list string) :=
  match defs with
  | [] => Ok selected_streams
  | stream_def :: defs' =>
      stream ← py_get stream_def "stream" (JObj ∅);
      stream_name ← py_get stream "name" JNull;
      select_streams enabled_streams defs'
        match enabled_name enabled_streams stream_name with
        | Some s => selected_streams ++ [s]
        | None => selected_streams
        end
  end.

Definition _get_streams_to_sync (config : NotionConfig) (catalog : json)
    : result (list string) :=
  let enabled_streams := _get_enabled_streams config in
  if negb (truthy catalog) then Ok enabled_streams
  else
    streams ← py_get catalog "streams" (JArr []);
    defs ← py_iter streams;
    selected_streams ← select_streams enabled_streams defs [];
    Ok match selected_streams with
       | [] => enabled_streams
       | _ :: _ => selected_streams
       end.

(** The names a configured catalog gives its streams, when every
    definition is a map whose [stream], if present, is a map. *)
Definition catalog_name (stream_def : json) : option json :=
  match stream_def with
  | JObj d =>
      match dict_get_or d "stream" (JObj ∅) with
      | JObj stream => Some (dict_get stream "name")
      | _ => None
      end
  | _ => None
  end.

(** A catalog that selects the given stream names. *)
Definition catalog_of (names : list string) : json :=
  JObj {[ "streams" :=
    JArr ((fun n => JObj {[ "stream" := JObj {[ "name" := JStr n ]} ]})
            <$> names) ]}.

(** ** [utils.py]: property values *)

#[global] Instance result_fmap : FMap result := fun A B f r =>
  match r with
  | Ok a => Ok (f a)
  | Raise e => Raise e
  end.

(** [v.get(key)] for a key that is itself a value read from the data: the
    keys of a decoded object are strings, so any other hashable key is
    missing, and a list or a map is not hashable. *)
Definition py_get_key (v key : json) : result json :=
  match v with
  | JObj m =>
      match key with
      | JStr k => Ok (dict_get m k)
      | JArr _ | JObj _ => Raise (TypeError "unhashable type")
      | _ => Ok JNull
      end
  | _ => Raise (AttributeError "object has no attribute 'get'")
  end.

(** [[item.get(key) for item in items]] *)
Definition get_each (items : json) (key : string) : result json :=
  items ← py_iter items;
  values ← mapM (fun item => py_get item key JNull) items;
  Ok (JArr values).

(** The loop of the [files] branch, [files] being the list built so far. *)
Fixpoint file_urls (file_objs : list json) (files : list json)
    : result (list json) :=
  match file_objs with
  | [] => Ok files
  | file_obj :: file_objs' =>
      file_type ← py_get file_obj "type" JNull;
      if json_is_str file_type "external" then
        external ← py_get file_obj "external" (JObj ∅);
        url ← py_get external "url" JNull;
        file_urls file_objs' (files ++ [url])
      else if json_is_str file_type "file" then
        file ← py_get file_obj "file" (JObj ∅);
        url ← py_get file "url" JNull;
        file_urls file_objs' (files ++ [url])
      else file_urls file_objs' files
  end.

Section PropertyValues.
Variable repr_other : json -> string.

Definition extract_property_value (property_data : json) : result json :=
  if negb (truthy property_data) then Ok JNull
  else
    prop_type ← py_get property_data "type" JNull;
    if json_is_str prop_type "title" then
      title ← py_get property_data "title" (JArr []);
      JStr <$> extract_plain_text title
    else if json_is_str prop_type "rich_text" then
      rich_text ← py_get property_data "rich_text" (JArr []);
      JStr <$> extract_plain_text rich_text
    else if json_is_str prop_type "number" then
      py_get property_data "number" JNull
    else if json_is_str prop_type "select" then
      select_data ← py_get property_data "select" JNull;
      if truthy select_data then py_get select_data "name" JNull
      else Ok JNull
    else if json_is_str prop_type "multi_select" then
      items ← py_get property_data "multi_select" (JArr []);
      get_each items "name"
    else if json_is_str prop_type "date" then
      date_data ← py_get property_data "date" JNull;
      if truthy date_data then
        start ← py_get date_data "start" JNull;
        end_ ← py_get date_data "end" JNull;
        time_zone ← py_get date_data "time_zone" JNull;
        Ok (JObj {[ "start" := start; "end" := end_;
                    "time_zone" := time_zone ]})
      else Ok JNull
    else if json_is_str prop_type "people" then
      people ← py_get property_data "people" (JArr []);
      get_each people "id"
    else if json_is_str prop_type "files" then
      files ← py_get property_data "files" (JArr []);
      file_objs ← py_iter files;
      JArr <$> file_urls file_objs []
    else if json_is_str prop_type "checkbox" then
      py_get property_data "checkbox" JNull
    else if json_is_str prop_type "url" then
      py_get property_data "url" JNull
    else if json_is_str prop_type "email" then
      py_get property_data "email" JNull
    else if json_is_str prop_type "phone_number" then
      py_get property_data "phone_number" JNull
    else if json_is_str prop_type "formula" then
      formula_data ← py_get property_data "formula" (JObj ∅);
      formula_type ← py_get formula_data "type" JNull;
      py_get_key formula_data formula_type
    else if json_is_str prop_type "relation" then
      relation ← py_get property_data "relation" (JArr []);
      get_each relation "id"
    else if json_is_str prop_type "rollup" then
      rollup_data ← py_get property_data "rollup" (JObj ∅);
      rollup_type ← py_get rollup_data "type" JNull;
      py_get_key rollup_data rollup_type
    else if json_is_str prop_type "created_time" then
      py_get property_data "created_time" JNull
    else if json_is_str prop_type "created_by" then
      created_by ← py_get property_data "created_by" (JObj ∅);
      py_get created_by "id" JNull
    else if json_is_str prop_type "last_edited_time" then
      py_get property_data "last_edited_time" JNull
    else if json_is_str prop_type "last_edited_by" then
      last_edited_by ← py_get property_data "last_edited_by" (JObj ∅);
      py_get last_edited_by "id" JNull
    else if json_is_str prop_type "status" then
      status_data ← py_get property_data "status" JNull;
      if truthy status_data then py_get status_data "name" JNull
      else Ok JNull
    else if json_is_str prop_type "unique_id" then
      unique_id_data ← py_get property_data "unique_id" (JObj ∅);
      prefix ← py_get unique_id_data "prefix" (JStr "");
      number ← py_get unique_id_data "number" (JStr "");
      Ok (JStr (if truthy prefix
                then py_str repr_other prefix +:+ "-" +:+
                     py_str repr_other number
                else py_str repr_other number))
    else if json_is_str prop_type "verification" then
      py_get property_data "verification" JNull
    else py_get_key property_data prop_type.

(** [flatten_properties]: the comprehension over [properties.items()], as
    a loop over the items with the dictionary built so far.  The order of
    the items decides which exception is raised when several properties
    raise, and nothing else. *)
Fixpoint flatten_items (items : list (string * json)) (flat : dict)
    : result dict :=
  match items with
  | [] => Ok flat
  | (name, prop_data) :: items' =>
      value ← extract_property_value prop_data;
      flatten_items items' (<[ name := value ]> flat)
  end.

Definition flatten_properties (properties : json) : result dict :=
  match properties with
  | JObj m => flatten_items (map_to_list m) ∅
  | _ => Raise (AttributeError "object has no attribute 'items'")
  end.

End PropertyValues.

(** ** [streams.py]: schemas and records *)

(** The two forms of a schema entry: [{"type": t}] and
    [{"type": [t, "null"]}]. *)
Definition schema_type (t : string) : json := JObj {[ "type" := JStr t ]}.
Definition schema_nullable (t : string) : json :=
  JObj {[ "type" := JArr [JStr t; JStr "null"] ]}.

(** A dictionary display with distinct literal keys. *)
Definition dict_of (entries : list (string * json)) : dict :=
  list_to_map entries.

(** ["".join(part.get("plain_text", "") for part in parts) if parts else
    None], as [DatabasesStream] and [CommentsStream] write it out. *)
Definition joined_or_none (parts : json) : result json :=
  if truthy parts then
    items ← py_iter parts;
    JStr <$> join_plain_text items
  else Ok JNull.

Module Users.

Definition _get_schema_properties : dict :=
  dict_of
    [ ("id", schema_type "string");
      ("object", schema_type "string");
      ("type", schema_nullable "string");
      ("name", schema_nullable "string");
      ("avatar_url", schema_nullable "string");
      ("email", schema_nullable "string");
      ("person", schema_nullable "object");
      ("bot", schema_nullable "object")].

Definition _transform_record (record : json) : result dict :=
  type ← py_get record "type" JNull;
  let email :=
    if json_is_str type "person"
    then safe_get_nested record ["person"; "email"] JNull
    else JNull in
  id ← py_get record "id" JNull;
  object ← py_get record "object" JNull;
  name ← py_get record "name" JNull;
  avatar_url ← py_get record "avatar_url" JNull;
  person ← py_get record "person" JNull;
  bot ← py_get record "bot" JNull;
  Ok (dict_of
    [ ("id", id);
      ("object", object);
      ("type", type);
      ("name", name);
      ("avatar_url", avatar_url);
      ("email", email);
      ("person", person);
      ("bot", bot)]).

End Users.

Module Databases.

Definition _get_schema_properties : dict :=
  dict_of
    [ ("id", schema_type "string");
      ("object", schema_type "string");
      ("title", schema_nullable "string");
      ("description", schema_nullable "string");
      ("created_time", schema_nullable "string");
      ("last_edited_time", schema_nullable "string");
      ("created_by", schema_nullable "object");
      ("last_edited_by", schema_nullable "object");
      ("icon", schema_nullable "object");
      ("cover", schema_nullable "object");
      ("properties", schema_nullable "object");
      ("parent", schema_nullable "object");
      ("url", schema_nullable "string");
      ("archived", schema_nullable "boolean");
      ("is_inline", schema_nullable "boolean")].

Definition _transform_record (record : json) : result dict :=
  title_property ← py_get record "title" (JArr []);
  title ← extract_title title_property;
  description_parts ← py_get record "description" (JArr []);
  description ← joined_or_none description_parts;
  id ← py_get record "id" JNull;
  object ← py_get record "object" JNull;
  created_time ← py_get record "created_time" JNull;
  last_edited_time ← py_get record "last_edited_time" JNull;
  created_by ← py_get record "created_by" JNull;
  last_edited_by ← py_get record "last_edited_by" JNull;
  icon ← py_get record "icon" JNull;
  cover ← py_get record "cover" JNull;
  properties ← py_get record "properties" JNull;
  parent ← py_get record "parent" JNull;
  url ← py_get record "url" JNull;
  archived ← py_get record "archived" JNull;
  is_inline ← py_get record "is_inline" JNull;
  Ok (dict_of
    [ ("id", id);
      ("object", object);
      ("title", JStr title);
      ("description", description);
      ("created_time", created_time);
      ("last_edited_time", last_edited_time);
      ("created_by", created_by);
      ("last_edited_by", last_edited_by);
      ("icon", icon);
      ("cover", cover);
      ("properties", properties);
      ("parent", parent);
      ("url", url);
      ("archived", archived);
      ("is_inline", is_inline)]).

End Databases.

Module Pages.

Definition _get_schema_properties : dict :=
  dict_of
    [ ("id", schema_type "string");
      ("object", schema_type "string");
      ("created_time", schema_nullable "string");
      ("last_edited_time", schema_nullable "string");
      ("created_by", schema_nullable "object");
      ("last_edited_by", schema_nullable "object");
      ("parent", schema_nullable "object");
      ("archived", schema_nullable "boolean");
      ("properties", schema_nullable "object");
      ("properties_flat", schema_nullable "object");
      ("icon", schema_nullable "object");
      ("cover", schema_nullable "object");
      ("url", schema_nullable "string");
      ("title", schema_nullable "string")].

(** The loop that looks for the title: the first property, in the order
    of the items, whose type is [title]. *)
Fixpoint find_title (items : list (string * json)) : result json :=
  match items with
  | [] => Ok JNull
  | (prop_name, prop_data) :: items' =>
      type ← py_get prop_data "type" JNull;
      if json_is_str type "title" then
        title_property ← py_get prop_data "title" (JArr []);
        JStr <$> extract_title title_property
      else find_title items'
  end.

Definition _transform_record (repr_other : json -> string) (record : json)
    : result dict :=
  properties ← py_get record "properties" (JObj ∅);
  items ← match properties with
          | JObj m => Ok (map_to_list m)
          | _ => Raise (AttributeError "object has no attribute 'items'")
          end;
  title ← find_title items;
  id ← py_get record "id" JNull;
  object ← py_get record "object" JNull;
  created_time ← py_get record "created_time" JNull;
  last_edited_time ← py_get record "last_edited_time" JNull;
  created_by ← py_get record "created_by" JNull;
  last_edited_by ← py_get record "last_edited_by" JNull;
  parent ← py_get record "parent" JNull;
  archived ← py_get record "archived" JNull;
  properties_flat ← flatten_properties repr_other properties;
  icon ← py_get record "icon" JNull;
  cover ← py_get record "cover" JNull;
  url ← py_get record "url" JNull;
  Ok (dict_of
    [ ("id", id);
      ("object", object);
      ("created_time", created_time);
      ("last_edited_time", last_edited_time);
      ("created_by", created_by);
      ("last_edited_by", last_edited_by);
      ("parent", parent);
      ("archived", archived);
      ("properties", properties);
      ("properties_flat", JObj properties_flat);
      ("icon", icon);
      ("cover", cover);
      ("url", url);
      ("title", title)]).

End Pages.

Module Blocks.

Definition _get_schema_properties : dict :=
  dict_of
    [ ("id", schema_type "string");
      ("object", schema_type "string");
      ("type", schema_nullable "string");
      ("created_time", schema_nullable "string");
      ("last_edited_time", schema_nullable "string");
      ("created_by", schema_nullable "object");
      ("last_edited_by", schema_nullable "object");
      ("has_children", schema_nullable "boolean");
      ("archived", schema_nullable "boolean");
      ("parent", schema_nullable "object");
      ("page_id", schema_nullable "string");
      ("depth", schema_nullable "integer");
      ("content", schema_nullable "object")].

Definition _transform_record (record : json) (page_id : json)
    : result dict :=
  block_type ← py_get record "type" JNull;
  content ← (if truthy block_type then py_get_key record block_type
             else Ok JNull);
  id ← py_get record "id" JNull;
  object ← py_get record "object" JNull;
  created_time ← py_get record "created_time" JNull;
  last_edited_time ← py_get record "last_edited_time" JNull;
  created_by ← py_get record "created_by" JNull;
  last_edited_by ← py_get record "last_edited_by" JNull;
  has_children ← py_get record "has_children" JNull;
  archived ← py_get record "archived" JNull;
  parent ← py_get record "parent" JNull;
  depth ← py_get record "_depth" (JInt 1);
  Ok (dict_of
    [ ("id", id);
      ("object", object);
      ("type", block_type);
      ("created_time", created_time);
      ("last_edited_time", last_edited_time);
      ("created_by", created_by);
      ("last_edited_by", last_edited_by);
      ("has_children", has_children);
      ("archived", archived);
      ("parent", parent);
      ("page_id", page_id);
      ("depth", depth);
      ("content", content)]).

End Blocks.

Module Comments.

Definition _get_schema_properties : dict :=
  dict_of
    [ ("id", schema_type "string");
      ("object", schema_type "string");
      ("parent", schema_nullable "object");
      ("discussion_id", schema_nullable "string");
      ("created_time", schema_nullable "string");
      ("last_edited_time", schema_nullable "string");
      ("created_by", schema_nullable "object");
      ("rich_text", schema_nullable "array");
      ("text", schema_nullable "string");
      ("page_id", schema_nullable "string")].

Definition _transform_record (record : json) (page_id : json)
    : result dict :=
  rich_text ← py_get record "rich_text" (JArr []);
  text ← joined_or_none rich_text;
  id ← py_get record "id" JNull;
  object ← py_get record "object" JNull;
  parent ← py_get record "parent" JNull;
  discussion_id ← py_get record "discussion_id" JNull;
  created_time ← py_get record "created_time" JNull;
  last_edited_time ← py_get record "last_edited_time" JNull;
  created_by ← py_get record "created_by" JNull;
  Ok (dict_of
    [ ("id", id);
      ("object", object);
      ("parent", parent);
      ("discussion_id", discussion_id);
      ("created_time", created_time);
      ("last_edited_time", last_edited_time);
      ("created_by", created_by);
      ("rich_text", rich_text);
      ("text", text);
      ("page_id", page_id)]).

End Comments.

(** [BaseStream.get_json_schema] *)
Definition get_json_schema (self : BaseStream) (schema_properties : dict)
    : dict :=
  {[ "$schema" := JStr "http://json-schema.org/draft-07/schema#";
     "type" := JStr "object";
     "properties" := JObj schema_properties;
     "required" := JArr [JStr (primary_key self)] ]}.

(** A stream class: its attributes and its schema properties. *)
Record stream_class : Type := {
  attributes : BaseStream;
  schema_properties : dict
}.

(** The registry [AVAILABLE_STREAMS], in the order it is written. *)
Definition AVAILABLE_STREAMS : list (string * stream_class) :=
  [ ("users", {| attributes := UsersStream;
                 schema_properties := Users._get_schema_properties |});
    ("databases", {| attributes := DatabasesStream;
                     schema_properties := Databases._get_schema_properties |});
    ("pages", {| attributes := PagesStream;
                 schema_properties := Pages._get_schema_properties |});
    ("blocks", {| attributes := BlocksStream;
                  schema_properties := Blocks._get_schema_properties |});
    ("comments", {| attributes := CommentsStream;
                    schema_properties := Comments._get_schema_properties |}) ].

Definition get_stream_class (stream_name : string) : option stream_class :=
  (list_to_map AVAILABLE_STREAMS : gmap string stream_class) !! stream_name.


(** ** [connector.py]: discovery *)

(** [AirbyteMessage.catalog] *)
Definition catalog_message (catalog : dict) : dict :=
  {[ "type" := JStr "CATALOG"; "catalog" := JObj catalog ]}.

(** The definition [discover] builds for one stream. *)
Definition stream_definition (stream_class : stream_class) : dict :=
  let stream := attributes stream_class in
  let stream_def : dict :=
    {[ "name" := JStr (name stream);
       "json_schema" :=
         JObj (get_json_schema stream (schema_properties stream_class));
       "supported_sync_modes" := JArr [JStr "full_refresh"];
       "source_defined_cursor" := JBool (supports_incremental stream) ]} in
  if supports_incremental stream then
    let stream_def :=
      <[ "supported_sync_modes" :=
           JArr [JStr "full_refresh"; JStr "incremental"] ]> stream_def in
    match cursor_field stream with
    | Some field =>
        if String.eqb field "" then stream_def
        else <[ "default_cursor_field" := JArr [JStr field] ]> stream_def
    | None => stream_def
    end
  else stream_def.

(** The loop of [discover] over the enabled streams. *)
Fixpoint discover_streams (enabled_streams : list string) : list dict :=
  match enabled_streams with
  | [] => []
  | stream_name :: rest =>
      match get_stream_class stream_name with
      | None => discover_streams rest
      | Some stream_class =>
          stream_definition stream_class :: discover_streams rest
      end
  end.

Definition discover (config : NotionConfig) : dict :=
  catalog_message
    {[ "streams" :=
         JArr (JObj <$> discover_streams (_get_enabled_streams config)) ]}.

(** What a consumer of the catalog relies on in one stream definition: the
    schema requires the primary key and declares it; a stream that offers
    the incremental mode defines its cursor, names it, and declares it in
    the schema; a stream that does not offers the full refresh only and
    names no cursor. *)
Definition coherent_definition (stream_def : dict) : Prop :=
  exists (props : dict) (key : string) (schema : dict),
    stream_def !! "json_schema" = Some (JObj schema) /\
    schema !! "properties" = Some (JObj props) /\
    schema !! "required" = Some (JArr [JStr key]) /\
    is_Some (props !! key) /\
    match stream_def !! "default_cursor_field" with
    | Some cursor =>
        exists field,
          cursor = JArr [JStr field] /\ is_Some (props !! field) /\
          stream_def !! "supported_sync_modes"
            = Some (JArr [JStr "full_refresh"; JStr "incremental"]) /\
          stream_def !! "source_defined_cursor" = Some (JBool true)
    | None =>
        stream_def !! "supported_sync_modes"
          = Some (JArr [JStr "full_refresh"]) /\
        stream_def !! "source_defined_cursor" = Some (JBool false)
    end.

(** The stream definitions a catalog message carries. *)
Definition catalog_streams (message : dict) : option (list json) :=
  match message !! "catalog" with
  | Some (JObj catalog) =>
      match catalog !! "streams" with
      | Some (JArr defs) => Some defs
      | _ => None
      end
  | _ => None
  end.

(** The property types for which [extract_property_value] computes a
    value; for every other type it returns the entry named after the
    type. *)
Definition structured_types : list string :=
  [ "title"; "rich_text"; "select"; "multi_select"; "date"; "people";
    "files"; "formula"; "relation"; "rollup"; "created_by";
    "last_edited_by"; "status"; "unique_id" ].

(** A page as the search lists it, with a title and a checkbox. *)
Definition sample_page (id last_edited_time : string) : json :=
  JObj {[ "id" := JStr id;
          "object" := JStr "page";
          "last_edited_time" := JStr last_edited_time;
          "properties" :=
            JObj {[ "Name" :=
                      JObj {[ "type" := JStr "title";
                              "title" :=
                                JArr [JObj {[ "plain_text" := JStr "Road" ]};
                                      JObj {[ "plain_text" := JStr "map" ]}] ]};
                    "Done" :=
                      JObj {[ "type" := JStr "checkbox";
                              "checkbox" := JBool true ]} ]} ]}.

(** ** [streams.py]: reading the records *)

(** One turn of a loop over a generator whose body yields at most one
    item: the body raises, skips the item, or yields a record. *)
Definition yield_one {A B} (step : A -> result (option B)) (item : A)
    : gen B :=
  match step item with
  | Raise e => Gen [] (Raised e)
  | Ok None => Gen [] Done
  | Ok (Some y) => Gen [y] Done
  end.

(** [try: <run> except Exception: continue]: an exception ends the run
    quietly; what was yielded before stays. *)
Definition swallow {A} (g : gen A) : gen A :=
  match ending g with
  | Raised _ => Gen (yielded g) Done
  | _ => g
  end.

Section ReadRecords.
Variable fromisoformat : string -> option datetime.
Variable strptime_ymd : string -> option datetime.
(** [dt.isoformat()] *)
Variable isoformat : datetime -> string.
Variable repr_other : json -> string.

(** [format_datetime_for_api]: a naive datetime is taken as UTC. *)
Definition format_datetime_for_api (dt : option datetime) : option string :=
  match dt with
  | None => None
  | Some dt =>
      Some (isoformat
              match utcoffset dt with
              | None => {| wall := wall dt; utcoffset := Some 0 |}
              | Some _ => dt
              end)
  end.

(** [StreamState.set_last_sync_time] *)
Definition set_last_sync_time (_state : dict) (dt : datetime) : dict :=
  <[ "last_sync_time" :=
       match format_datetime_for_api (Some dt) with
       | Some text => JStr text
       | None => JNull
       end ]> _state.

(** [self._should_include_record(item, sync_mode)] on an item of a
    listing: the item is asked for its cursor with [get] once the first two
    tests are passed. *)
Definition include_item (self : BaseStream) (state : dict) (item : json)
    (sync_mode : string) : result bool :=
  match item with
  | JObj record =>
      _should_include_record fromisoformat strptime_ymd self state record
        sync_mode
  | _ =>
      if negb (String.eqb sync_mode "incremental")
         || negb (supports_incremental self) then Ok true
      else match cursor_field self with
           | None => Ok true
           | Some field =>
               if String.eqb field "" then Ok true
               else Raise (AttributeError "object has no attribute 'get'")
           end
  end.

(** The update of [latest_time] for a record about to be yielded. *)
Definition track_latest (self : BaseStream) (record : dict)
    (latest_time : option datetime) : result (option datetime) :=
  match cursor_field self with
  | None => Ok latest_time
  | Some field =>
      if String.eqb field "" then Ok latest_time
      else
        record_time ← parse_iso_datetime fromisoformat strptime_ymd
                        (dict_get record field);
        match record_time, latest_time with
        | None, _ => Ok latest_time
        | Some record_time, None => Ok (Some record_time)
        | Some record_time, Some latest =>
            newer ← datetime_gt record_time latest;
            Ok (if newer : bool then Some record_time else latest_time)
        end
  end.

(** The [for] loop of [DatabasesStream.read_records] and of
    [PagesStream.read_records], which differ in the [break] of the second
    ([stops_early]) and in the transformation.  [items] are the items the
    listing still yields and [listing_end] the way it ends; the result is
    the run of the loop and [latest_time] when the loop is left. *)
Fixpoint read_loop (self : BaseStream) (transform : json -> result dict)
    (stops_early : bool) (state : dict) (sync_mode : string)
    (items : list json) (listing_end : gen_end)
    (latest_time : option datetime) : gen json * option datetime :=
  match items with
  | [] => (Gen [] listing_end, latest_time)
  | item :: items' =>
      match include_item self state item sync_mode with
      | Raise e => (Gen [] (Raised e), latest_time)
      | Ok false =>
          if stops_early && String.eqb sync_mode "incremental"
          then (Gen [] Done, latest_time)
          else read_loop self transform stops_early state sync_mode items'
                 listing_end latest_time
      | Ok true =>
          match (record ← transform item;
                 latest ← track_latest self record latest_time;
                 Ok (record, latest)) with
          | Raise e => (Gen [] (Raised e), latest_time)
          | Ok (record, latest) =>
              let '(rest, final) :=
                read_loop self transform stops_early state sync_mode items'
                  listing_end latest in
              (gen_cons (JObj record) rest, final)
          end
      end
  end.

(** The loop and the update of the state that follows it when the loop is
    left without an exception.  The result is the run of the generator
    and the state of the stream when the run is over. *)
Definition read_with_cursor (self : BaseStream)
    (transform : json -> result dict) (stops_early : bool) (state : dict)
    (sync_mode : string) (listing : gen json) : gen json * dict :=
  let '(records, latest_time) :=
    read_loop self transform stops_early state sync_mode (yielded listing)
      (ending listing) None in
  (records,
   match ending records, latest_time with
   | Done, Some latest =>
       if String.eqb sync_mode "incremental"
       then set_last_sync_time state latest else state
   | _, _ => state
   end).

(** [UsersStream.read_records]: [list_users] is the run of
    [client.list_users()].  The counter [_records_read], which only the
    log reads, is left out here and below. *)
Definition Users_read_records (list_users : gen json) : gen json :=
  gen_bind list_users
    (yield_one (fun user =>
       record ← Users._transform_record user; Ok (Some (JObj record)))).

(** [DatabasesStream.read_records] *)
Definition Databases_read_records (state : dict) (sync_mode : string)
    (list_databases : gen json) : gen json * dict :=
  read_with_cursor DatabasesStream Databases._transform_record false state
    sync_mode list_databases.

(** [PagesStream.read_records]: [search_pages] is the run of the search
    for pages, sorted by the time of the last edit. *)
Definition Pages_read_records (state : dict) (sync_mode : string)
    (search_pages : gen json) : gen json * dict :=
  read_with_cursor PagesStream (Pages._transform_record repr_other) true
    state sync_mode search_pages.

(** The body of the loop over the pages in [BlocksStream.read_records] and
    [CommentsStream.read_records]: the children of the page ([children] is
    the run of [get_all_blocks] or of [list_comments] on its id), filtered
    and transformed inside the [try]. *)
Definition page_children (self : BaseStream)
    (transform : json -> json -> result dict) (state : dict)
    (sync_mode : string) (children : json -> gen json) (page : json)
    : gen json :=
  match py_get page "id" JNull with
  | Raise e => Gen [] (Raised e)
  | Ok page_id =>
      if negb (truthy page_id) then Gen [] Done
      else
        swallow
          (gen_bind (children page_id)
             (yield_one (fun child =>
                include ← include_item self state child sync_mode;
                if negb include then Ok None
                else
                  record ← transform child page_id;
                  Ok (Some (JObj record)))))
  end.

(** [BlocksStream.read_records].  [pages_iterator] is the run of the pages
    it reads its blocks from, be it the run of the pages stream or of a
    search of its own. *)
Definition Blocks_read_records (config : NotionConfig) (state : dict)
    (sync_mode : string) (pages_iterator : gen json)
    (get_all_blocks : json -> gen json) : gen json :=
  if negb (fetch_blocks config) then Gen [] Done
  else
    gen_bind pages_iterator
      (page_children BlocksStream Blocks._transform_record state sync_mode
         get_all_blocks).

(** [CommentsStream.read_records] *)
Definition Comments_read_records (state : dict) (sync_mode : string)
    (pages_iterator : gen json) (list_comments : json -> gen json)
    : gen json :=
  gen_bind pages_iterator
    (page_children CommentsStream Comments._transform_record state sync_mode
       list_comments).

End ReadRecords.

(** ** [connector.py]: reading *)

(** [s.upper()] on the ASCII letters, which the levels passed are made
    of. *)
Definition ascii_upper (c : ascii) : ascii :=
  let n := N_of_ascii c in
  if ((97 <=? n) && (n <=? 122))%N then ascii_of_N (n - 32) else c.

Fixpoint str_upper (s : string) : string :=
  match s with
  | EmptyString => EmptyString
  | String c s' => String (ascii_upper c) (str_upper s')
  end.

Module AirbyteMessage.

Definition log (level message : string) : dict :=
  {[ "type" := JStr "LOG";
     "log" := JObj {[ "level" := JStr (str_upper level);
                      "message" := JStr message ]} ]}.

(** [record], called without [emitted_at]: [now] is the reading of the
    clock in milliseconds. *)
Definition record (stream : string) (data : json) (now : Z) : dict :=
  {[ "type" := JStr "RECORD";
     "record" := JObj {[ "stream" := JStr stream; "data" := data;
                         "emitted_at" := JInt now ]} ]}.

(** [state]: the message holds [state_data] itself; it is modelled by the
    content of [state_data] when the message is yielded, which is what
    [run_connector] prints. *)
Definition state (state_data : gmap string dict) : dict :=
  {[ "type" := JStr "STATE";
     "state" := JObj {[ "data" := JObj (JObj <$> state_data) ]} ]}.

End AirbyteMessage.

(** What the loop of [read] carries from one stream to the next:
    [stream_states], the states built from the state passed in, which the
    streams created with them update in place; the state of the one
    [pages_stream], when there is one; [final_state]; and the number of
    record messages built so far, which the clock is read by. *)
Record read_store : Type := {
  stream_states : gmap string dict;
  pages_stream : option dict;
  final_state : gmap string dict;
  emitted : nat
}.

Section Read.
Variable fromisoformat : string -> option datetime.
Variable strptime_ymd : string -> option datetime.
Variable isoformat : datetime -> string.
Variable repr_other : json -> string.
(** The clock when the [n]-th record message is built. *)
Variable now : nat -> Z.
Variable config : NotionConfig.
(** The runs of the client: the listings of users and of databases, the
    search for pages sorted by the last edit (for the pages stream) and
    unsorted (for a blocks or comments stream without a pages stream), the
    blocks of a page and the comments of a page. *)
Variables list_users list_databases : gen json.
Variables search_pages_sorted search_pages : gen json.
Variables get_all_blocks list_comments : json -> gen json.

Local Abbreviation Pages_read :=
  (Pages_read_records fromisoformat strptime_ymd isoformat repr_other).

(** The pages a blocks or comments stream reads: the run of the pages
    stream it was given, which leaves the state of that stream updated, or
    a search of its own. *)
Definition pages_iterator (pages_stream : option dict) (sync_mode : string)
    : gen json * option dict :=
  match pages_stream with
  | Some pages_state =>
      let '(pages, pages_state') :=
        Pages_read pages_state sync_mode search_pages_sorted in
      (pages, Some pages_state')
  | None => (search_pages, None)
  end.

(** One stream of [read]: [_create_stream_instance] and the run of
    [read_records].  The result is [None] for an unknown stream, and
    otherwise the run, the state [get_updated_state] returns when the run
    is over, and the state of the pages stream then.  [own] is the state
    the stream is created with. *)
Definition sync_stream (stream_name : string) (own : dict)
    (pages_stream : option dict) (sync_mode : string)
    : option (gen json * dict * option dict) :=
  if String.eqb stream_name "users" then
    Some (Users_read_records list_users, own, pages_stream)
  else if String.eqb stream_name "databases" then
    let '(records, own') :=
      Databases_read_records fromisoformat strptime_ymd isoformat own
        sync_mode list_databases in
    Some (records, own', pages_stream)
  else if String.eqb stream_name "pages" then
    match pages_stream with
    | Some pages_state =>
        let '(records, pages_state') :=
          Pages_read pages_state sync_mode search_pages_sorted in
        Some (records, pages_state', Some pages_state')
    | None =>
        let '(records, own') := Pages_read own sync_mode search_pages_sorted in
        Some (records, own', None)
    end
  else if String.eqb stream_name "blocks" then
    if negb (fetch_blocks config) then Some (Gen [] Done, own, pages_stream)
    else
      let '(pages, pages_stream') := pages_iterator pages_stream sync_mode in
      let records :=
        Blocks_read_records fromisoformat strptime_ymd config own sync_mode
          pages get_all_blocks in
      Some (records, own,
            match ending records with
            | Unfinished => pages_stream
            | _ => pages_stream'
            end)
  else if String.eqb stream_name "comments" then
    let '(pages, pages_stream') := pages_iterator pages_stream sync_mode in
    let records :=
      Comments_read_records fromisoformat strptime_ymd own sync_mode pages
        list_comments in
    Some (records, own,
          match ending records with
          | Unfinished => pages_stream
          | _ => pages_stream'
          end)
  else None.

(** The loop over the records of one stream: a record message for each,
    and a state message after every hundredth.  [state_now] is what
    [get_updated_state] returns while the stream is read. *)
Fixpoint emit_records (stream_name : string) (state_now : dict)
    (records : list json) (record_count : nat) (store : read_store)
    : list dict * nat * read_store :=
  match records with
  | [] => ([], record_count, store)
  | data :: records' =>
      let message :=
        AirbyteMessage.record stream_name data (now (emitted store)) in
      let record_count := S record_count in
      let store :=
        {| stream_states := stream_states store;
           pages_stream := pages_stream store;
           final_state := final_state store;
           emitted := S (emitted store) |} in
      if (record_count mod 100 =? 0)%nat then
        let store :=
          {| stream_states := stream_states store;
             pages_stream := pages_stream store;
             final_state := <[ stream_name := state_now ]> (final_state store);
             emitted := emitted store |} in
        let '(messages, count, store') :=
          emit_records stream_name state_now records' record_count store in
        (message :: AirbyteMessage.state (final_state store) :: messages,
         count, store')
      else
        let '(messages, count, store') :=
          emit_records stream_name state_now records' record_count store in
        (message :: messages, count, store')
  end.

(** The body of the loop of [read] for one stream that exists. *)
Definition read_stream (stream_name sync_mode : string) (store : read_store)
    (records : gen json) (own own' : dict) (pages_stream' : option dict)
    : gen dict * read_store :=
  let '(messages, record_count, store) :=
    emit_records stream_name own (yielded records) 0 store in
  let start :=
    AirbyteMessage.log "INFO"
      ("Starting sync of " +:+ stream_name +:+ " stream") in
  let states :=
    if bool_decide (is_Some (stream_states store !! stream_name))
    then <[ stream_name := own' ]> (stream_states store)
    else stream_states store in
  match ending records with
  | Done =>
      let store :=
        {| stream_states := states;
           pages_stream := pages_stream';
           final_state := <[ stream_name := own' ]> (final_state store);
           emitted := emitted store |} in
      (Gen (start :: messages ++
            [AirbyteMessage.state (final_state store);
             AirbyteMessage.log "INFO"
               ("Completed " +:+ stream_name +:+ " stream: " +:+
                pretty (Z.of_nat record_count) +:+ " records")]) Done,
       store)
  | Raised e =>
      (Gen (start :: messages ++
            [AirbyteMessage.log "ERROR"
               ("Error reading " +:+ stream_name +:+ ": " +:+ exn_str e)])
         Done,
       {| stream_states := states;
          pages_stream := pages_stream';
          final_state := final_state store;
          emitted := emitted store |})
  | Unfinished => (Gen (start :: messages) Unfinished, store)
  end.

(** The loop of [read] over the streams to sync. *)
Fixpoint read_streams (streams_to_sync : list string) (sync_mode : string)
    (store : read_store) : gen dict :=
  match streams_to_sync with
  | [] => Gen [] Done
  | stream_name :: rest =>
      let own := default ∅ (stream_states store !! stream_name) in
      match sync_stream stream_name own (pages_stream store) sync_mode with
      | None => read_streams rest sync_mode store
      | Some (records, own', pages_stream') =>
          let '(messages, store') :=
            read_stream stream_name sync_mode store records
              (if String.eqb stream_name "pages"
               then default own (pages_stream store) else own)
              own' pages_stream' in
          gen_seq messages (read_streams rest sync_mode store')
      end
  end.

(** [read].  The state passed in holds a dictionary for each stream it
    names, as the state messages of [read] do. *)
Definition read (catalog : json) (state : option (gmap string dict))
    (sync_mode : string) : gen dict :=
  match _get_streams_to_sync config catalog with
  | Raise e => Gen [] (Raised e)
  | Ok streams_to_sync =>
      let stream_states := default ∅ state in
      read_streams streams_to_sync sync_mode
        {| stream_states := stream_states;
           pages_stream :=
             if bool_decide ("pages" ∈ streams_to_sync) && sync_pages config
             then Some (default ∅ (stream_states !! "pages")) else None;
           final_state := ∅;
           emitted := 0 |}
  end.

End Read.

(** ** Incremental reading in terms of the cursor *)

(** The instant a datetime denotes, a naive one being read as UTC. *)
Definition instant_of (d : datetime) : Z := wall d - default 0 (utcoffset d).

(** The later of the latest time so far and a further time, the first of
    two equal instants being kept. *)
Definition later_of (latest : option datetime) (t : datetime)
    : option datetime :=
  match latest with
  | None => Some t
  | Some l => if instant_of l <? instant_of t then Some t else Some l
  end.

(** The items a reading loop keeps: those that pass the test, up to the
    first that does not when the loop stops early. *)
Fixpoint kept {A} (stops_early : bool) (keep : A -> bool) (items : list A)
    : list A :=
  match items with
  | [] => []
  | x :: items' =>
      if keep x then x :: kept stops_early keep items'
      else if stops_early then [] else kept stops_early keep items'
  end.

Section CursorNotions.
Variable fromisoformat : string -> option datetime.
Variable strptime_ymd : string -> option datetime.

(** The time in the cursor field of an item, when the item is a map and
    the field reads as an aware datetime. *)
Definition cursor_time (field : string) (item : json) : option datetime :=
  match item with
  | JObj record =>
      if truthy (dict_get record field) then
        match parse_iso_datetime fromisoformat strptime_ymd
                (dict_get record field) with
        | Ok (Some t) =>
            match utcoffset t with Some _ => Some t | None => None end
        | _ => None
        end
      else None
  | _ => None
  end.

(** The item was edited after the stored time, if there is one. *)
Definition newer_than (last_sync : option datetime) (field : string)
    (item : json) : bool :=
  match last_sync, cursor_time field item with
  | Some l, Some t => instant_of l <? instant_of t
  | _, _ => true
  end.

(** The latest of the cursor times of the items, starting from
    [latest]. *)
Definition latest_of (field : string) (items : list json)
    (latest : option datetime) : option datetime :=
  foldl later_of latest (omap (cursor_time field) items).

End CursorNotions.

(** [isoformat] on the two datetimes of the examples. *)
Definition isoformat_sample (d : datetime) : string :=
  if wall d =? 1247400000000 then "2024-01-15T10:30:00+00:00"
  else if wall d =? 1247401000000 then "2024-01-15T10:30:01+00:00"
  else "".

(** Two pages, the one edited last first. *)
Definition sample_pages : list json :=
  [ sample_page "p2" "2024-01-15T10:30:01Z";
    sample_page "p1" "2024-01-15T10:30:00Z" ].

(** A database as the search lists it. *)
Definition sample_database (id last_edited_time : string) : json :=
  JObj {[ "id" := JStr id;
          "object" := JStr "database";
          "last_edited_time" := JStr last_edited_time;
          "title" := JArr [JObj {[ "plain_text" := JStr "Tasks" ]}] ]}.


(** The records a sequence of messages carries for a stream. *)
Definition stream_records (stream_name : string) (messages : list dict)
    : list json :=
  omap (fun message : dict =>
          match message !! "record" with
          | Some (JObj record) =>
              if json_is_str (dict_get record "stream") stream_name
              then record !! "data" else None
          | _ => None
          end) messages.

(** The blocks of the pages of the examples: one paragraph each, as
    [get_all_blocks] tags it. *)
Definition sample_blocks (page_id : json) : gen json :=
  Gen [JObj {[ "id" := JStr "b1"; "object" := JStr "block";
               "type" := JStr "paragraph";
               "last_edited_time" := JStr "2024-01-15T10:30:01Z";
               "_depth" := JInt 1; "_parent_id" := page_id ]}] Done.

(** One user, as the listing of users yields it. *)
Definition sample_users : gen json :=
  Gen [JObj {[ "id" := JStr "u1"; "object" := JStr "user";
               "type" := JStr "bot" ]}] Done.


(** A clock for the examples, in milliseconds. *)
Definition sample_clock (n : nat) : Z := 1705314600000 + Z.of_nat n.

(** ** Notions for the failing inputs and for the traversal *)

(** [datetime.fromisoformat] on the strings of the inclusion examples:
    the two instants above, a date alone and a time without a zone, which
    it reads as naive datetimes.  The wall clock is counted from
    2024-01-01T00:00:00. *)
Definition fromisoformat_dates (s : string) : option datetime :=
  if String.eqb s "2024-02-01"
  then Some {| wall := 2678400000000; utcoffset := None |}
  else if String.eqb s "2024-01-01T00:00:00"
  then Some {| wall := 0; utcoffset := None |}
  else fromisoformat_sample s.

(** A bot whose user object carries a null name. *)
Definition null_name_response : response :=
  {| status_code := 200; text := "{...}";
     json_body :=
       Some (JObj {[ "object" := JStr "user"; "type" := JStr "bot";
                     "name" := JNull ]}) |}.

Section Preorder.
(** The blocks of a workspace: the children the service lists for an
    id, in order. *)
Variable children : json -> list dict.

(** A block as the traversal hands it out: the listed block with its
    depth and the id of its parent added. *)
Definition tagged (parent_id : json) (depth : Z) (fields : dict) : dict :=
  <[ "_depth" := JInt depth ]> (<[ "_parent_id" := parent_id ]> fields).

(** The depth-first traversal as the specification describes it, written
    on plain lists and not from the code: the preorder of the workspace
    below [parent_id] is the children of [parent_id] in order, each tagged
    and followed at once by the preorder below itself when it is flagged as
    having children and [levels] further levels are allowed, and by nothing
    otherwise. *)
Fixpoint preorder (levels : nat) (parent_id : json) (depth : Z)
    : list dict :=
  flat_map
    (fun fields =>
       tagged parent_id depth fields ::
       match levels with
       | O => []
       | S levels' =>
           if truthy (dict_get fields "has_children") then
             match fields !! "id" with
             | Some id => preorder levels' id (depth + 1)
             | None => []
             end
           else []
       end)
    (children parent_id).

(** The listing of the service for [children]: every listing ends
    without an exception. *)
Definition listing_of (id : json) : gen json :=
  Gen (JObj <$> children id) Done.

(** Every block flagged as having children carries an id. *)
Definition flagged_have_ids : Prop :=
  forall q fields,
    fields ∈ children q ->
    truthy (dict_get fields "has_children") = true ->
    is_Some (fields !! "id").

End Preorder.

(** The workspace of the example: [root] has [a] and [d], [a] has [b],
    [b] has [c]; [a], [b] and [d] are flagged as having children, and [d]
    has none. *)
Definition sample_child_lists (parent_id : json) : list dict :=
  let block (id : string) (has_children : bool) : dict :=
    {[ "id" := JStr id; "has_children" := JBool has_children ]} in
  if json_is_str parent_id "root" then [block "a" true; block "d" true]
  else if json_is_str parent_id "a" then [block "b" true]
  else if json_is_str parent_id "b" then [block "c" false]
  else [].

(** * Properties *)

(** ** Retry classifications *)

Lemma should_retry_iff (s : Z) :
  RetryHandler.should_retry s = true <->
  s = 429 \/ s = 500 \/ s = 502 \/ s = 503 \/ s = 504.
Proof.
  unfold RetryHandler.should_retry, RetryHandler.RETRYABLE_STATUS_CODES.
  rewrite bool_decide_eq_true, !elem_of_union, !elem_of_singleton. tauto.
Qed.

Lemma is_retryable_iff (s : Z) :
  ApiError.is_retryable s = true <->
  s = 409 \/ s = 429 \/ s = 500 \/ s = 502 \/ s = 503 \/ s = 504.
Proof.
  unfold ApiError.is_retryable, ApiError.RETRYABLE_STATUS_CODES.
  rewrite bool_decide_eq_true, !elem_of_union, !elem_of_singleton. tauto.
Qed.

Lemma should_retry_implies_retryable (s : Z) :
  RetryHandler.should_retry s = true -> ApiError.is_retryable s = true.
Proof. rewrite should_retry_iff, is_retryable_iff. tauto. Qed.

(** C2: [should_retry] holds exactly for the statuses 429, 500, 502, 503 and
    504 (so it fails for 200, 400, 401, 403, 404 and 409), [is_retryable]
    exactly for 409, 429, 500, 502, 503 and 504, and the two
    classifications differ at the status 409 and nowhere else. *)
Theorem retry_classifications :
  (forall s, RetryHandler.should_retry s = true <->
             s = 429 \/ s = 500 \/ s = 502 \/ s = 503 \/ s = 504) /\
  Forall (fun s => RetryHandler.should_retry s = false)
         [200; 400; 401; 403; 404; 409] /\
  (forall s, ApiError.is_retryable s = true <->
             s = 409 \/ s = 429 \/ s = 500 \/ s = 502 \/ s = 503 \/ s = 504) /\
  (forall s, RetryHandler.should_retry s <> ApiError.is_retryable s <->
             s = 409).
Proof.
  split_and!.
  - apply should_retry_iff.
  - repeat (apply Forall_cons_2; [by vm_compute|]). apply Forall_nil_2.
  - apply is_retryable_iff.
  - intros s. split.
    + intros Hne.
      destruct (RetryHandler.should_retry s) eqn:Hs,
               (ApiError.is_retryable s) eqn:Hr; try congruence.
      * apply should_retry_implies_retryable in Hs. congruence.
      * apply is_retryable_iff in Hr.
        destruct Hr as [->|Hr]; [done|].
        assert (RetryHandler.should_retry s = true) as Hs'
          by (apply should_retry_iff; tauto).
        congruence.
    + intros ->. vm_compute. discriminate.
Qed.

(** ** Retry delays *)

Lemma ldexp_pow2_table :
  forallb (fun n => is_pow2 n (Z.ldexp PrimFloat.one (Z.of_nat n)))
          (seq 0 1024) = true.
Proof. vm_compute. reflexivity. Qed.

(** Up to [2 ** 1023] the conversion returns, and is exact. *)
Lemma pow2_as_float_exact (attempt : nat) :
  (attempt <= 1023)%nat ->
  exists p, pow2_as_float attempt = Ok p /\ is_pow2 attempt p = true.
Proof.
  intros Hle. unfold pow2_as_float.
  destruct (Z.leb_spec (Z.of_nat attempt) 1023) as [_|Hgt]; [|lia].
  eexists; split; [reflexivity|].
  pose proof ldexp_pow2_table as Htab.
  rewrite forallb_forall in Htab. apply Htab, in_seq. lia.
Qed.

Lemma pow2_as_float_overflow (attempt : nat) :
  (1024 <= attempt)%nat ->
  pow2_as_float attempt =
    Raise (OverflowError "int too large to convert to float").
Proof.
  intros Hle. unfold pow2_as_float.
  destruct (Z.leb_spec (Z.of_nat attempt) 1023) as [Hgt|_]; [lia|done].
Qed.

(** C3, the failing input: with the base 1.0 and the maximum 60.0, and
    without a retry-after hint, the attempt 1024 raises [OverflowError]
    where the specification gives the capped delay 60.0: the integer
    [2 ** 1024] does not convert to a float, and the cap comes after the
    product.  The attempt 1023 and the path with a hint return the cap. *)
Theorem calculate_delay_attempt_1024 :
  RetryHandler.calculate_delay RetryHandler.default 1024 None
  = Raise (OverflowError "int too large to convert to float") /\
  RetryHandler.calculate_delay RetryHandler.default 1023 None
  = Ok 60.0%float /\
  RetryHandler.calculate_delay RetryHandler.default 1024 (Some 100.0%float)
  = Ok 60.0%float.
Proof. split_and!; vm_compute; reflexivity. Qed.

(** X1: what [calculate_delay] does guarantee: with a retry-after hint the
    delay is [min(retry_after, max_delay)] for every attempt; without one
    it is [min(base_delay * 2 ** attempt, max_delay)] for the attempts 0 to
    1023, the factor being exactly [2 ** attempt]; from the attempt 1024
    on the call raises [OverflowError].  With base 1.0 and max 60.0 the
    attempts 0, 1, 2, 3 give 1.0, 2.0, 4.0, 8.0; a hint of 30.0 gives 30.0
    and a hint of 100.0 gives 60.0; with max 10.0 the attempt 10 gives
    10.0. *)
Theorem calculate_delay_spec (self : RetryHandler.t) (attempt : nat) :
  (forall retry_after,
     RetryHandler.calculate_delay self attempt (Some retry_after) =
       Ok (py_min retry_after (RetryHandler.max_delay self))) /\
  ((attempt <= 1023)%nat ->
     exists p, is_pow2 attempt p = true /\
       RetryHandler.calculate_delay self attempt None =
         Ok (py_min (PrimFloat.mul (RetryHandler.base_delay self) p)
                    (RetryHandler.max_delay self))) /\
  ((1024 <= attempt)%nat ->
     RetryHandler.calculate_delay self attempt None =
       Raise (OverflowError "int too large to convert to float")) /\
  ((fun a => RetryHandler.calculate_delay RetryHandler.default a None)
     <$> [0; 1; 2; 3]%nat) = [Ok 1.0; Ok 2.0; Ok 4.0; Ok 8.0]%float /\
  RetryHandler.calculate_delay RetryHandler.default attempt (Some 30.0%float)
    = Ok 30.0%float /\
  RetryHandler.calculate_delay RetryHandler.default attempt (Some 100.0%float)
    = Ok 60.0%float /\
  RetryHandler.calculate_delay
    {| RetryHandler.max_retries := 5; RetryHandler.base_delay := 1.0%float;
       RetryHandler.max_delay := 10.0%float |} 10 None = Ok 10.0%float.
Proof.
  split_and!; try reflexivity.
  - intros Hle. destruct (pow2_as_float_exact attempt Hle) as (p & Hp & Hpow).
    exists p. split; [done|].
    unfold RetryHandler.calculate_delay. by rewrite Hp.
  - intros Hle. unfold RetryHandler.calculate_delay.
    by rewrite pow2_as_float_overflow.
Qed.

(** ** Notion ids *)

Section NotionIdProperties.
Context {char : Type} `{EqDecision char}.
Variable dash : char.

Lemma remove_dashes_idemp (s : list char) :
  remove_dashes dash (remove_dashes dash s) = remove_dashes dash s.
Proof.
  unfold remove_dashes. induction s as [|c s IH]; [done|].
  rewrite filter_cons. case_decide as Hc; [|done].
  rewrite filter_cons. case_decide; [|done]. by f_equal.
Qed.

Lemma remove_dashes_app (s1 s2 : list char) :
  remove_dashes dash (s1 ++ s2) = remove_dashes dash s1 ++ remove_dashes dash s2.
Proof. apply filter_app. Qed.

Lemma remove_dashes_dash (s : list char) :
  remove_dashes dash (dash :: s) = remove_dashes dash s.
Proof. unfold remove_dashes. rewrite filter_cons. by case_decide. Qed.

(** On 32 characters the slices of the source are the groups of the
    canonical form. *)
Lemma slices_canonical (c : list char) :
  length c = 32%nat ->
  take 8 c ++ [dash] ++ slice 8 12 c ++ [dash] ++ slice 12 16 c ++ [dash] ++
  slice 16 20 c ++ [dash] ++ drop 20 c = canonical_dashed dash c.
Proof.
  intros Hlen. unfold canonical_dashed, slice. cbn [groups join_dash].
  rewrite !drop_drop. cbn [Nat.add Nat.sub].
  rewrite (take_ge (drop 20 c)) by (rewrite length_drop; lia).
  reflexivity.
Qed.

(** The canonical form of 32 dash-free characters: 36 characters that give
    the 32 back when the dashes are removed. *)
Lemma canonical_dashed_length (c : list char) :
  length c = 32%nat -> length (canonical_dashed dash c) = 36%nat.
Proof.
  intros Hlen. rewrite <- slices_canonical by done. unfold slice.
  rewrite !length_app, !length_take, !length_drop. cbn [length]. lia.
Qed.

Lemma canonical_dashed_remove (c : list char) :
  length c = 32%nat -> remove_dashes dash c = c ->
  remove_dashes dash (canonical_dashed dash c) = c.
Proof.
  intros Hlen Hc. rewrite <- slices_canonical by done. unfold slice.
  rewrite !remove_dashes_app, !remove_dashes_dash.
  change (remove_dashes dash []) with (@nil char). rewrite !app_nil_l.
  rewrite <- !remove_dashes_app.
  replace (take 8 c ++ take (12 - 8) (drop 8 c) ++ take (16 - 12) (drop 12 c) ++
           take (20 - 16) (drop 16 c) ++ drop 20 c) with c; [done|].
  cbn [Nat.sub].
  rewrite <- (take_drop 8 c) at 1. f_equal.
  rewrite <- (take_drop 4 (drop 8 c)) at 1. f_equal. rewrite drop_drop.
  rewrite <- (take_drop 4 (drop (8 + 4) c)) at 1. f_equal. rewrite drop_drop.
  rewrite <- (take_drop 4 (drop (8 + 4 + 4) c)) at 1. f_equal.
  by rewrite drop_drop.
Qed.

Lemma format_notion_id_clean (x : list char) :
  length (remove_dashes dash x) = 32%nat ->
  format_notion_id dash x = canonical_dashed dash (remove_dashes dash x).
Proof.
  intros Hlen. unfold format_notion_id. cbn zeta.
  rewrite decide_True by done. by apply slices_canonical.
Qed.

(** C8: when [x] without its dashes has 32 characters,
    [format_notion_id (normalize_notion_id x)] is the canonical 8-4-4-4-12
    form of these characters, whatever the dashes of [x] were: it is the
    same for every [y] with the same 32 characters, it has 36 characters,
    and removing its dashes gives the 32 characters back.  When [x]
    without its dashes does not have 32 characters, [format_notion_id x] is
    [x]. *)
Theorem format_normalize_notion_id (x : list char) :
  (length (remove_dashes dash x) = 32%nat ->
     format_notion_id dash (normalize_notion_id dash x)
       = canonical_dashed dash (remove_dashes dash x) /\
     (forall y, remove_dashes dash y = remove_dashes dash x ->
        format_notion_id dash (normalize_notion_id dash y)
          = format_notion_id dash (normalize_notion_id dash x)) /\
     length (format_notion_id dash (normalize_notion_id dash x)) = 36%nat /\
     normalize_notion_id dash
       (format_notion_id dash (normalize_notion_id dash x))
       = normalize_notion_id dash x) /\
  (length (remove_dashes dash x) <> 32%nat -> format_notion_id dash x = x).
Proof.
  split.
  - intros Hlen.
    assert (format_notion_id dash (normalize_notion_id dash x)
            = canonical_dashed dash (remove_dashes dash x)) as Hfmt.
    { unfold normalize_notion_id. rewrite format_notion_id_clean.
      - by rewrite remove_dashes_idemp.
      - by rewrite remove_dashes_idemp. }
    split_and!.
    + done.
    + intros y Hy. rewrite Hfmt. unfold normalize_notion_id.
      rewrite format_notion_id_clean; rewrite remove_dashes_idemp, Hy; done.
    + rewrite Hfmt. by apply canonical_dashed_length.
    + rewrite Hfmt. unfold normalize_notion_id.
      apply canonical_dashed_remove; [done|]. apply remove_dashes_idemp.
  - intros Hlen. unfold format_notion_id. cbn zeta.
    by rewrite decide_False.
Qed.

End NotionIdProperties.

(** The 32 characters of the tests of the repository, bare and dashed. *)
Example format_notion_id_bare :
  format_notion_id "-"%char
    (String.list_ascii_of_string "12345678123412341234123456789012")
  = String.list_ascii_of_string "12345678-1234-1234-1234-123456789012".
Proof. reflexivity. Qed.

Example format_notion_id_misplaced_dashes :
  format_notion_id "-"%char
    (normalize_notion_id "-"%char
       (String.list_ascii_of_string "1-2345678123412341234-123456789012--"))
  = String.list_ascii_of_string "12345678-1234-1234-1234-123456789012".
Proof. reflexivity. Qed.

Example format_notion_id_short :
  format_notion_id "-"%char (String.list_ascii_of_string "short")
  = String.list_ascii_of_string "short".
Proof. reflexivity. Qed.

(** ** Nested lookup *)

(** Along a non-empty path the helper is the plain lookup, with the default
    in place of a missing value and of a null. *)
Lemma safe_get_nested_path (data : json) (key : string) (keys : list string)
    (dflt : json) :
  safe_get_nested data (key :: keys) dflt =
    match path_lookup data (key :: keys) with
    | Some JNull | None => dflt
    | Some v => v
    end.
Proof.
  revert data key. induction keys as [|key' keys IH]; intros data key.
  - destruct data; try done. cbn. unfold dict_get.
    destruct (m !! key) as [[]|]; done.
  - destruct data; try done.
    change (safe_get_nested (JObj m) (key :: key' :: keys) dflt)
      with (match dict_get m key with
            | JNull => dflt
            | current' => safe_get_nested current' (key' :: keys) dflt
            end).
    change (path_lookup (JObj m) (key :: key' :: keys))
      with (m !! key ≫= fun v => path_lookup v (key' :: keys)).
    unfold dict_get. destruct (m !! key) as [v|]; [|done].
    cbn [default mbind option_bind].
    destruct v; try apply IH; done.
Qed.

(** C10: for every map, key sequence and default, [safe_get_nested] returns
    the default when the path breaks (a key is missing or an intermediate
    value is not a map) and also when the value found at the final key is
    null; it returns the value found when that is not null; so it returns
    null only when the default is null. *)
Theorem safe_get_nested_null (m : dict) (keys : list string) (default : json) :
  (path_lookup (JObj m) keys = None ->
     safe_get_nested (JObj m) keys default = default) /\
  (path_lookup (JObj m) keys = Some JNull ->
     safe_get_nested (JObj m) keys default = default) /\
  (forall v, path_lookup (JObj m) keys = Some v -> v <> JNull ->
     safe_get_nested (JObj m) keys default = v) /\
  (safe_get_nested (JObj m) keys default = JNull -> default = JNull).
Proof.
  destruct keys as [|key keys].
  - split_and!; try done. cbn. by intros v [= <-].
  - rewrite safe_get_nested_path.
    destruct (path_lookup (JObj m) (key :: keys)) as [v|].
    + split_and!; try done.
      * by intros [= ->].
      * intros v' [= <-] Hv. by destruct v.
      * by destruct v.
    + split_and!; done.
Qed.

(** The case of the tests of the repository: a null on the path. *)
Example safe_get_nested_null_leaf :
  safe_get_nested
    (JObj {[ "level1" := JObj {[ "level2" := JNull ]} ]})
    ["level1"; "level2"] (JStr "default") = JStr "default".
Proof. reflexivity. Qed.

(** ** Authentication headers *)

Lemma get_token_token (self : NotionConfig) (token : string) :
  config_credentials self = TokenCredentials token -> get_token self = token.
Proof. unfold get_token. by intros ->. Qed.

Lemma get_token_oauth2 (self : NotionConfig) (cid secret access : string)
    (refresh : option string) :
  config_credentials self = OAuth2Credentials cid secret access refresh ->
  get_token self = access.
Proof. unfold get_token. by intros ->. Qed.

(** C9: for every configuration, under either credential variant,
    [get_auth_headers] is a map of exactly three entries: [Authorization]
    with ["Bearer "] followed by the result of [get_token], [Notion-Version]
    with the configured API version, and [Content-Type] with
    ["application/json"]; [get_token] is the token of a token credential
    and the access token of an OAuth2 credential. *)
Theorem get_auth_headers_spec (self : NotionConfig) :
  get_auth_headers self !! "Authorization"
    = Some ("Bearer " +:+ get_token self) /\
  get_auth_headers self !! "Notion-Version" = Some (api_version self) /\
  get_auth_headers self !! "Content-Type" = Some "application/json" /\
  size (get_auth_headers self) = 3%nat /\
  dom (get_auth_headers self)
    = ({[ "Authorization"; "Notion-Version"; "Content-Type" ]} : gset string) /\
  (forall token,
     config_credentials self = TokenCredentials token ->
     get_token self = token) /\
  (forall cid secret access refresh,
     config_credentials self = OAuth2Credentials cid secret access refresh ->
     get_token self = access).
Proof.
  unfold get_auth_headers. split_and!.
  - by simplify_map_eq.
  - by simplify_map_eq.
  - by simplify_map_eq.
  - rewrite !map_size_insert_None, map_size_singleton; [done|by simplify_map_eq..].
  - rewrite !dom_insert_L, dom_singleton_L. set_solver.
  - apply get_token_token.
  - apply get_token_oauth2.
Qed.

(** ** The inclusion predicate *)





Lemma datetime_gt_mixed (a b : datetime) :
  is_Some (utcoffset a) <-> utcoffset b = None ->
  ~ returns (datetime_gt a b).
Proof.
  intros Hmix [r Hr]. unfold datetime_gt in Hr.
  destruct (utcoffset a), (utcoffset b); try done.
  - destruct Hmix as [Hmix _]. by specialize (Hmix (mk_is_Some _ _ eq_refl)).
  - destruct Hmix as [_ Hmix]. by destruct (Hmix eq_refl).
Qed.

Section StreamProperties.
Variable fromisoformat : string -> option datetime.
Variable strptime_ymd : string -> option datetime.

Local Abbreviation parse := (parse_iso_datetime fromisoformat strptime_ymd).
Local Abbreviation last_sync_time :=
  (get_last_sync_time fromisoformat strptime_ymd).
Local Abbreviation should_include :=
  (_should_include_record fromisoformat strptime_ymd).

Lemma parse_iso_datetime_falsy (v : json) :
  truthy v = false -> parse v = Ok None.
Proof. unfold parse_iso_datetime. by intros ->. Qed.


(** The predicate once the three early returns are passed. *)
Lemma should_include_incremental (self : BaseStream) (field : string)
    (state record : dict) :
  supports_incremental self = true ->
  cursor_field self = Some field -> field <> "" ->
  truthy (dict_get record field) = true ->
  should_include self state record "incremental" =
    (last_sync ← last_sync_time state;
     match last_sync with
     | None => Ok true
     | Some last_sync =>
         record_time ← parse (dict_get record field);
         match record_time with
         | None => Ok true
         | Some record_time => datetime_gt record_time last_sync
         end
     end).
Proof.
  intros Hinc Hfield Hne Hcv. unfold _should_include_record.
  rewrite Hinc, Hfield, Hcv. cbn [negb orb].
  destruct (String.eqb_spec field ""); done.
Qed.


End StreamProperties.


(** A naive cursor against an aware stored time: the comparison raises. *)
Example should_include_record_mixed :
  _should_include_record fromisoformat_sample strptime_ymd_sample PagesStream
    {[ "last_sync_time" := JStr "2024-01-15T10:30:00Z" ]}
    {[ "last_edited_time" := JStr "2024-01-15" ]} "incremental"
  = Raise (TypeError "can't compare offset-naive and offset-aware datetimes").
Proof. reflexivity. Qed.

(** A stored time and a cursor of which one carries a zone and the other
    does not cannot be compared: whatever the two times are, the predicate
    raises, and the record is neither included nor excluded. *)
Lemma should_include_record_mixed_raises
    (fromisoformat strptime_ymd : string -> option datetime)
    (self : BaseStream) (field : string) (state record : dict)
    (last_sync record_time : datetime) :
  supports_incremental self = true ->
  cursor_field self = Some field -> field <> "" ->
  truthy (dict_get record field) = true ->
  get_last_sync_time fromisoformat strptime_ymd state = Ok (Some last_sync) ->
  parse_iso_datetime fromisoformat strptime_ymd (dict_get record field)
    = Ok (Some record_time) ->
  (is_Some (utcoffset record_time) <-> utcoffset last_sync = None) ->
  _should_include_record fromisoformat strptime_ymd self state record
    "incremental"
  = Raise (TypeError "can't compare offset-naive and offset-aware datetimes").
Proof.
  intros Hinc Hfield Hne Hcv Hls Hparse Hmix.
  rewrite (should_include_incremental fromisoformat strptime_ymd self field)
    by done.
  rewrite Hls. cbn [mbind result_bind]. rewrite Hparse.
  cbn [mbind result_bind]. unfold datetime_gt.
  destruct (utcoffset record_time) as [o1|], (utcoffset last_sync) as [o2|];
    try done.
  - destruct Hmix as [Hmix _]. by specialize (Hmix (mk_is_Some _ _ eq_refl)).
  - destruct Hmix as [_ Hmix]. by destruct (Hmix eq_refl).
Qed.

(** C1, the failing inputs.  On the pages stream in incremental mode, a
    record edited on 2024-02-01, its cursor a date without a zone, is
    later than the stored time 2024-01-15T10:30:00Z, and a record edited at
    2024-01-15T10:30:00Z is later than a stored time 2024-01-01T00:00:00
    written without a zone: the specification includes both, and
    [_should_include_record] raises [TypeError] on both, the comparison
    being between a naive and an aware datetime. *)
Theorem should_include_record_zone_mismatch :
  _should_include_record fromisoformat_dates strptime_ymd_sample PagesStream
    {[ "last_sync_time" := JStr "2024-01-15T10:30:00Z" ]}
    {[ "last_edited_time" := JStr "2024-02-01" ]} "incremental"
  = Raise (TypeError "can't compare offset-naive and offset-aware datetimes")
  /\
  _should_include_record fromisoformat_dates strptime_ymd_sample PagesStream
    {[ "last_sync_time" := JStr "2024-01-01T00:00:00" ]}
    {[ "last_edited_time" := JStr "2024-01-15T10:30:00Z" ]} "incremental"
  = Raise (TypeError "can't compare offset-naive and offset-aware datetimes")
  /\
  (parse_iso_datetime fromisoformat_dates strptime_ymd_sample
     (JStr "2024-02-01")
   = Ok (Some {| wall := 2678400000000; utcoffset := None |}) /\
   parse_iso_datetime fromisoformat_dates strptime_ymd_sample
     (JStr "2024-01-15T10:30:00Z")
   = Ok (Some {| wall := 1247400000000; utcoffset := Some 0 |}) /\
   1247400000000 < 2678400000000).
Proof. split_and!; try reflexivity. Qed.

(** ** Validation of the credentials *)

Section AuthProperties.
Variable http_error_text : response -> string.
Variable json_error_text : response -> string.

Local Abbreviation validate_result st get :=
  (validate http_error_text json_error_text st get).2.

Lemma validate_except_returns (r : result AuthenticationResult) :
  returns (validate_except r) <->
  match r with Ok _ => True | Raise e => request_level e = true end.
Proof.
  unfold returns. destruct r as [res|e]; cbn.
  - split; [done|]. by exists res.
  - destruct e; cbn; split; try done; try (intros [? [=]]); eauto.
Qed.

Lemma validate_result_response (st : auth_state) (r : response) :
  validate_result st (Ok r)
  = validate_except (validate_try http_error_text json_error_text st r).2.
Proof.
  unfold validate.
  by destruct (validate_try http_error_text json_error_text st r).
Qed.

(** An exception leaves the [try] of [validate] as a request-level one
    exactly on the responses of [object_bodies]. *)
Lemma validate_try_request_level (st : auth_state) (r : response) :
  match (validate_try http_error_text json_error_text st r).2 with
  | Ok _ => True
  | Raise e => request_level e = true
  end <-> object_bodies r = true.
Proof.
  unfold validate_try, object_bodies, response_json, raise_for_status.
  destruct (status_code r =? 401).
  { destruct (String.eqb (text r) ""); cbn; [done|].
    destruct (json_body r) as [[]|]; cbn; done. }
  destruct (status_code r =? 403); [done|].
  destruct ((400 <=? status_code r) && (status_code r <? 600)); [done|].
  destruct (json_body r) as [[]|]; cbn; try done.
  unfold dict_get_or, dict_get.
  destruct (json_is_str (default JNull (m !! "object")) "user"); cbn; [|done].
  destruct (json_is_str (default JNull (m !! "type")) "bot"); cbn; [|done].
  destruct (m !! "bot") as [[]|]; cbn; done.
Qed.

Lemma validate_returns_iff (st : auth_state) (get : result response) :
  returns (validate_result st get) <-> handled_outcome get = true.
Proof.
  destruct get as [r|e].
  - rewrite validate_result_response, validate_except_returns.
    apply validate_try_request_level.
  - cbn [validate snd]. rewrite validate_except_returns. done.
Qed.

(** What [validate] does guarantee: it returns an [AuthenticationResult],
    and does not raise, on every outcome of the GET that is a request-level
    exception (a timeout, a connection failure, any other
    [RequestException]) or a response whose body, where [validate] reads
    it, does not decode or is a JSON object: a 401 gives the failure with
    the message of the server or the default one, a 403 the fixed failure,
    any other status from 400 to 599 the failure with the HTTP error text,
    a body that does not decode the failure with the decoding error text,
    and a success response whose object is not a user the failure for an
    unexpected response. *)
Theorem validate_returns_result (st : auth_state) (get : result response) :
  (handled_outcome get = true -> returns (validate_result st get)) /\
  (forall m, get = Raise (Timeout m) ->
     validate_result st get
       = Ok (auth_failure (JStr "Connection timeout while validating token"))) /\
  (forall m, get = Raise (ConnectionError m) ->
     validate_result st get
       = Ok (auth_failure (JStr "Failed to connect to Notion API"))) /\
  (forall m, get = Raise (RequestException m) ->
     validate_result st get
       = Ok (auth_failure (JStr ("Request failed: " +:+ m)))) /\
  (forall r, get = Ok r -> status_code r = 401 ->
     (text r = "" ->
        validate_result st get
          = Ok (auth_failure (JStr "Invalid or expired token"))) /\
     (forall body, text r <> "" -> json_body r = Some (JObj body) ->
        validate_result st get
          = Ok (auth_failure
                  (dict_get_or body "message"
                     (JStr "Invalid or expired token")))) /\
     (text r <> "" -> json_body r = None ->
        validate_result st get
          = Ok (auth_failure
                  (JStr ("Request failed: " +:+ json_error_text r))))) /\
  (forall r, get = Ok r -> status_code r = 403 ->
     validate_result st get
       = Ok (auth_failure
               (JStr "Access forbidden - check integration permissions"))) /\
  (forall r, get = Ok r -> status_code r <> 401 -> status_code r <> 403 ->
     400 <= status_code r < 600 ->
     validate_result st get
       = Ok (auth_failure (JStr ("Request failed: " +:+ http_error_text r)))) /\
  (forall r, get = Ok r ->
     ~ 400 <= status_code r < 600 -> json_body r = None ->
     validate_result st get
       = Ok (auth_failure (JStr ("Request failed: " +:+ json_error_text r)))) /\
  (forall r body, get = Ok r ->
     ~ 400 <= status_code r < 600 -> json_body r = Some (JObj body) ->
     json_is_str (dict_get body "object") "user" = false ->
     validate_result st get
       = Ok (auth_failure
               (JStr "Unexpected response from /users/me endpoint"))).
Proof.
  split_and!.
  - apply validate_returns_iff.
  - by intros m ->.
  - by intros m ->.
  - by intros m ->.
  - intros r -> H401. rewrite validate_result_response.
    unfold validate_try, response_json. rewrite H401. cbn [Z.eqb Pos.eqb].
    split_and!.
    + by intros ->.
    + intros body Htext ->.
      by destruct (String.eqb_spec (text r) "").
    + intros Htext ->.
      by destruct (String.eqb_spec (text r) "").
  - intros r -> H403. rewrite validate_result_response.
    unfold validate_try. by rewrite H403.
  - intros r -> H401 H403 Herr. rewrite validate_result_response.
    unfold validate_try, raise_for_status.
    destruct (Z.eqb_spec (status_code r) 401); [done|].
    destruct (Z.eqb_spec (status_code r) 403); [done|].
    destruct (Z.leb_spec 400 (status_code r)); [|lia].
    destruct (Z.ltb_spec (status_code r) 600); [|lia]. done.
  - intros r -> Hok Hbody. rewrite validate_result_response.
    unfold validate_try, raise_for_status, response_json.
    destruct (Z.eqb_spec (status_code r) 401); [lia|].
    destruct (Z.eqb_spec (status_code r) 403); [lia|].
    rewrite Hbody.
    destruct (Z.leb_spec 400 (status_code r)),
             (Z.ltb_spec (status_code r) 600); try lia; done.
  - intros r body -> Hok Hbody Hobj. rewrite validate_result_response.
    unfold validate_try, raise_for_status, response_json.
    destruct (Z.eqb_spec (status_code r) 401); [lia|].
    destruct (Z.eqb_spec (status_code r) 403); [lia|].
    rewrite Hbody.
    assert (json_is_str (dict_get_or body "object" JNull) "user" = false)
      as Hobj' by done.
    destruct (Z.leb_spec 400 (status_code r)),
             (Z.ltb_spec (status_code r) 600); try lia;
      cbn; by rewrite Hobj'.
Qed.

End AuthProperties.

(** C4: [validate] does raise.  A success response and a 401 response whose
    body is the JSON array [[]], and a bot user whose [bot] entry is null,
    make it raise [AttributeError]: the [get] of the source is called on a
    value that is not a map, and no [except] clause names that exception. *)
Theorem validate_raises_on_non_object :
  let no_text := fun _ : response => "" in
  let st := {| _authenticated := false; _bot_info := JNull |} in
  (validate no_text no_text st
     (Ok {| status_code := 200; text := "[]"; json_body := Some (JArr []) |})).2
    = Raise (AttributeError "object has no attribute 'get'") /\
  (validate no_text no_text st
     (Ok {| status_code := 401; text := "[]"; json_body := Some (JArr []) |})).2
    = Raise (AttributeError "object has no attribute 'get'") /\
  (validate no_text no_text st
     (Ok {| status_code := 200; text := "{...}";
            json_body := Some (JObj {[ "object" := JStr "user";
                                       "type" := JStr "bot";
                                       "bot" := JNull ]}) |})).2
    = Raise (AttributeError "object has no attribute 'get'").
Proof. split_and!; reflexivity. Qed.

(** ** Pagination *)

Lemma read_page_shaped (data : json) (p : page) :
  shaped data p ->
  read_page data =
    Ok (results p,
        if continues p then JStr <$> next_cursor p else None).
Proof.
  intros (m & -> & Hres & Hmore & Hcur).
  unfold read_page, continues. cbn. unfold dict_get_or.
  rewrite Hres, Hmore. cbn.
  destruct (has_more p); cbn; [|done].
  destruct (next_cursor p) as [c|].
  - rewrite Hcur. cbn. by destruct (String.eqb c "").
  - by destruct Hcur as [-> | ->].
Qed.

Lemma fetched_le (ps : list page) : (fetched ps <= length ps)%nat.
Proof.
  induction ps as [|p ps IH]; cbn; [done|]. destruct (continues p); lia.
Qed.

(** Every fetched page but the last continues. *)
Lemma fetched_continues (ps : list page) (i : nat) (p : page) :
  ps !! i = Some p -> (S i < fetched ps)%nat -> continues p = true.
Proof.
  revert i. induction ps as [|q ps IH]; intros i Hi Hlt; [done|].
  cbn in Hlt. destruct i as [|i]; cbn in Hi.
  - injection Hi as ->. destruct (continues p); [done|lia].
  - destruct (continues q); [|lia]. apply (IH i); [done|lia].
Qed.

(** The last fetched page is the first that does not continue, unless every
    page of the sequence continues. *)
Lemma fetched_last (ps : list page) :
  forallb continues ps = false ->
  exists p, ps !! (fetched ps - 1)%nat = Some p /\ continues p = false.
Proof.
  induction ps as [|q ps IH]; cbn; [done|].
  destruct (continues q) eqn:Hq; cbn.
  - intros Hall. destruct (IH Hall) as (p & Hp & Hc). exists p. split; [|done].
    rewrite Nat.sub_0_r.
    destruct (fetched ps) as [|n] eqn:Hn.
    + destruct ps; [done|]. cbn in Hn. lia.
    + cbn in Hp. by rewrite Nat.sub_0_r in Hp.
  - intros _. by exists q.
Qed.

Lemma forallb_continues (ps : list page) :
  forallb continues ps = true <-> Forall (fun p => continues p = true) ps.
Proof.
  rewrite forallb_forall, Forall_forall.
  split; intros H p Hp; apply H; by apply list_elem_of_In.
Qed.

Section PaginateProperties.
Variable config : NotionConfig.
Variables (endpoint method : string) (body params : option dict).

Local Abbreviation paginate_loop :=
  (_paginate_loop config endpoint method body params).

(** The run of the loop over a script of shaped pages. *)
Lemma paginate_loop_shaped (datas : list json) (ps : list page) :
  Forall2 shaped datas ps ->
  forall start_cursor,
  let out := paginate_loop start_cursor (Ok <$> datas) in
  yielded (run out) = concat (results <$> take (fetched ps) ps) /\
  ending (run out) = (if forallb continues ps then Unfinished else Done) /\
  length (requests out)
    = (if forallb continues ps then S (fetched ps) else fetched ps).
Proof.
  induction 1 as [|data p datas ps Hshape _ IH]; intros start_cursor.
  - done.
  - cbn [fmap list_fmap _paginate_loop].
    rewrite (read_page_shaped data p Hshape).
    cbn [fetched forallb]. destruct (continues p) eqn:Hcont.
    + unfold continues in Hcont. destruct (next_cursor p) as [c|] eqn:Hc;
        [|by rewrite andb_false_r in Hcont].
      cbn [fmap option_fmap option_map].
      destruct (IH (Some (JStr c))) as (Hy & He & Hl).
      cbn [run yielded ending requests length take list_fmap concat andb].
      change (list_fmap page (list json) results (take (fetched ps) ps))
        with (results <$> take (fetched ps) ps).
      rewrite Hy, He, Hl. split_and!; [done|done|].
      by destruct (forallb continues ps).
    + cbn. by rewrite app_nil_r.
Qed.

(** C5: over every sequence of pages shaped [{results, has_more,
    next_cursor}], [_paginate] yields the items of the [results] of every
    fetched page, in order; after a fetched page it sends a further request
    exactly when the page has [has_more] set and a non-empty [next_cursor];
    it ends at the first page that does not continue, also when [has_more]
    is set and the cursor is missing, and never by an exception. *)
Theorem paginate_spec (datas : list json) (ps : list page) :
  Forall2 shaped datas ps ->
  let out := _paginate config endpoint method body params (Ok <$> datas) in
  let n := fetched ps in
  yielded (run out) = concat (results <$> take n ps) /\
  (n <= length ps)%nat /\
  (forall i p, ps !! i = Some p -> (i < n)%nat ->
     (continues p = true <-> (S i < length (requests out))%nat)) /\
  (ending (run out) = Done <->
     exists p, ps !! (n - 1)%nat = Some p /\ continues p = false) /\
  (ending (run out) = Unfinished <-> Forall (fun p => continues p = true) ps) /\
  (forall p, In p ps -> has_more p = true -> next_cursor p = None ->
     ending (run out) = Done) /\
  (forall e, ending (run out) <> Raised e).
Proof.
  intros Hshaped. cbv zeta. unfold _paginate.
  destruct (paginate_loop_shaped datas ps Hshaped None) as (Hy & He & Hl).
  cbv zeta in Hy, He, Hl.
  set (out := paginate_loop None (Ok <$> datas)) in *.
  set (n := fetched ps) in *.
  split_and!.
  - done.
  - apply fetched_le.
  - intros i p Hp Hi. rewrite Hl.
    destruct (forallb continues ps) eqn:Hc.
    + split; [lia|]. intros _. apply forallb_continues in Hc.
      rewrite Forall_forall in Hc. eapply Hc, list_elem_of_lookup_2, Hp.
    + destruct (fetched_last ps Hc) as (q & Hq & Hqc). fold n in Hq.
      destruct (decide (S i < n)%nat) as [Hlt|Hge].
      * split; [done|]. intros _. by apply (fetched_continues ps i).
      * assert (i = (n - 1)%nat) as -> by lia.
        rewrite Hq in Hp. injection Hp as <-. rewrite Hqc. split; [done|lia].
  - rewrite He. destruct (forallb continues ps) eqn:Hc.
    + split; [done|]. intros (p & Hp & Hpc). apply forallb_continues in Hc.
      rewrite Forall_forall in Hc.
      rewrite (Hc p) in Hpc; [done|]. eapply list_elem_of_lookup_2, Hp.
    + split; [|done]. intros _. by apply fetched_last.
  - rewrite He, <- forallb_continues. by destruct (forallb continues ps).
  - intros p Hp Hmore Hcur. rewrite He.
    destruct (forallb continues ps) eqn:Hc; [|done].
    rewrite forallb_forall in Hc. specialize (Hc p Hp).
    unfold continues in Hc. rewrite Hcur, andb_false_r in Hc. done.
  - intros e. rewrite He. by destruct (forallb continues ps).
Qed.

(** The cursors the requests carry, when the caller's own body and
    parameters have no [start_cursor]: none on the first request, then the
    [next_cursor] of the page before. *)
Lemma page_request_cursor (start_cursor : option json) :
  default ∅ body !! "start_cursor" = None ->
  default ∅ params !! "start_cursor" = None ->
  start_cursor_of (page_request config endpoint method body params start_cursor)
  = start_cursor.
Proof.
  intros Hbody Hparams. unfold page_request, start_cursor_of.
  destruct (String.eqb method "POST"); cbn [rq_json rq_params];
    destruct start_cursor as [c|].
  - apply lookup_union_Some_l. by simplify_map_eq.
  - apply lookup_union_None. split; [by simplify_map_eq|done].
  - apply lookup_union_Some_l. by simplify_map_eq.
  - apply lookup_union_None. split; [by simplify_map_eq|done].
Qed.

Lemma paginate_cursors (datas : list json) (ps : list page) :
  default ∅ body !! "start_cursor" = None ->
  default ∅ params !! "start_cursor" = None ->
  Forall2 shaped datas ps ->
  forall start_cursor,
  let out := paginate_loop start_cursor (Ok <$> datas) in
  start_cursor_of <$> requests out
  = take (length (requests out))
         (start_cursor :: ((fun p => JStr <$> next_cursor p) <$> ps)).
Proof.
  intros Hbody Hparams.
  induction 1 as [|data p datas ps Hshape _ IH]; intros start_cursor.
  - cbn. by rewrite page_request_cursor.
  - cbn [fmap list_fmap _paginate_loop].
    rewrite (read_page_shaped data p Hshape).
    destruct (continues p) eqn:Hcont.
    + unfold continues in Hcont. destruct (next_cursor p) as [c|] eqn:Hc;
        [|by rewrite andb_false_r in Hcont].
      cbn [fmap option_fmap option_map requests length take list_fmap].
      rewrite page_request_cursor by done. f_equal.
      apply (IH (Some (JStr c))).
    + cbn. by rewrite page_request_cursor.
Qed.

End PaginateProperties.

(** The two-page sequence of the specification: one item and a cursor, then
    the remaining items. *)
Lemma paginate_two_pages :
  let d1 := JObj {[ "object" := JStr "list";
                    "results" := JArr [JStr "user-1"];
                    "has_more" := JBool true;
                    "next_cursor" := JStr "cursor-2" ]} in
  let d2 := JObj {[ "object" := JStr "list";
                    "results" := JArr [JStr "user-2"; JStr "user-3"];
                    "has_more" := JBool false;
                    "next_cursor" := JNull ]} in
  let p1 := {| results := [JStr "user-1"]; has_more := true;
               next_cursor := Some "cursor-2" |} in
  let p2 := {| results := [JStr "user-2"; JStr "user-3"]; has_more := false;
               next_cursor := None |} in
  let out := _paginate sample_config "/users" "GET" None None [Ok d1; Ok d2] in
  Forall2 shaped [d1; d2] [p1; p2] /\
  yielded (run out) = [JStr "user-1"; JStr "user-2"; JStr "user-3"] /\
  ending (run out) = Done /\
  length (requests out) = 2%nat.
Proof.
  intros d1 d2 p1 p2 out.
  assert (Forall2 shaped [d1; d2] [p1; p2]) as Hshaped.
  { repeat constructor.
    - eexists. split; [reflexivity|]. split_and!; reflexivity.
    - eexists. split; [reflexivity|]. split_and!; try reflexivity.
      right. reflexivity. }
  destruct (paginate_spec sample_config "/users" "GET" None None
              [d1; d2] [p1; p2] Hshaped) as (Hy & _ & Hreq & Hdone & _).
  split_and!.
  - exact Hshaped.
  - exact Hy.
  - apply Hdone. exists p2. split; reflexivity.
  - destruct (Hreq 0%nat p1 eq_refl ltac:(cbn; lia)) as [Hfwd _].
    destruct (Hreq 1%nat p2 eq_refl ltac:(cbn; lia)) as [_ Hbwd].
    specialize (Hfwd eq_refl).
    destruct (decide (2 < length (requests out))%nat) as [Hlt|Hge].
    + by specialize (Hbwd Hlt).
    + change (Ok <$> [d1; d2]) with [@Ok json d1; Ok d2] in Hfwd.
      fold out in Hfwd. lia.
Defined.

(** The defensive case: [has_more] is set and the cursor is missing. *)
Example paginate_missing_cursor :
  let d := JObj {[ "results" := JArr [JStr "block-1"];
                   "has_more" := JBool true ]} in
  run (_paginate sample_config "/blocks/b/children" "GET" None None
         [Ok d; Ok d])
  = Gen [JStr "block-1"] Done.
Proof. reflexivity. Qed.

(** ** Generators *)

Lemma gen_for_ext {A B} (xs : list A) (f g : A -> gen B) :
  (forall x, f x = g x) -> gen_for xs f = gen_for xs g.
Proof.
  intros Hfg. induction xs as [|x xs IH]; cbn; [done|]. by rewrite Hfg, IH.
Qed.

Lemma gen_bind_ext {A B} (c : gen A) (f g : A -> gen B) :
  (forall x, f x = g x) -> gen_bind c f = gen_bind c g.
Proof. intros Hfg. unfold gen_bind. by rewrite (gen_for_ext _ f g). Qed.

Lemma gen_seq_unfinished {A} (g k : gen A) :
  ending (gen_seq g k) = Unfinished ->
  ending g = Unfinished \/ ending k = Unfinished.
Proof. unfold gen_seq. destruct (ending g); cbn; auto. Qed.

Lemma gen_for_unfinished {A B} (xs : list A) (body : A -> gen B) :
  ending (gen_for xs body) = Unfinished ->
  exists x, x ∈ xs /\ ending (body x) = Unfinished.
Proof.
  induction xs as [|x xs IH]; cbn; [done|].
  intros [Hx|Hxs]%gen_seq_unfinished.
  - exists x. split; [left|done].
  - destruct (IH Hxs) as (x' & Hx' & He). exists x'. split; [by right|done].
Qed.

Lemma gen_seq_yielded_l {A} (g k : gen A) (x : A) :
  x ∈ yielded g -> x ∈ yielded (gen_seq g k).
Proof.
  unfold gen_seq. destruct (ending g); cbn; [|done..].
  rewrite elem_of_app. tauto.
Qed.

Lemma gen_seq_yielded_r {A} (g k : gen A) (x : A) :
  ending g = Done -> x ∈ yielded k -> x ∈ yielded (gen_seq g k).
Proof. unfold gen_seq. intros ->. cbn. rewrite elem_of_app. tauto. Qed.

Lemma gen_seq_yielded_inv {A} (g k : gen A) (x : A) :
  x ∈ yielded (gen_seq g k) ->
  x ∈ yielded g \/ (ending g = Done /\ x ∈ yielded k).
Proof.
  unfold gen_seq. destruct (ending g); cbn; [|by left..].
  rewrite elem_of_app. tauto.
Qed.

(** An item of a [for] loop comes from the body of some element, and the
    loop yields everything that body yields. *)
Lemma gen_for_yielded_inv {A B} (xs : list A) (body : A -> gen B) (y : B) :
  y ∈ yielded (gen_for xs body) ->
  exists x, x ∈ xs /\ y ∈ yielded (body x) /\
            forall z, z ∈ yielded (body x) -> z ∈ yielded (gen_for xs body).
Proof.
  induction xs as [|x xs IH]; cbn.
  - by intros ?%elem_of_nil.
  - intros [Hy|[Hdone Hy]]%gen_seq_yielded_inv.
    + exists x. split_and!; [left|done|]. intros z. apply gen_seq_yielded_l.
    + destruct (IH Hy) as (x' & Hx' & Hy' & Hsub).
      exists x'. split_and!; [by right|done|].
      intros z Hz. apply gen_seq_yielded_r; auto.
Qed.

Lemma gen_bind_yielded_inv {A B} (g : gen A) (body : A -> gen B) (y : B) :
  y ∈ yielded (gen_bind g body) ->
  exists x, x ∈ yielded g /\ y ∈ yielded (body x) /\
            forall z, z ∈ yielded (body x) -> z ∈ yielded (gen_bind g body).
Proof.
  unfold gen_bind. intros [Hy|[_ Hy]]%gen_seq_yielded_inv.
  - destruct (gen_for_yielded_inv _ _ _ Hy) as (x & Hx & Hyx & Hsub).
    exists x. split_and!; [done..|].
    intros z Hz. by apply gen_seq_yielded_l, Hsub.
  - by apply elem_of_nil in Hy.
Qed.

Lemma gen_bind_unfinished {A B} (g : gen A) (body : A -> gen B) :
  ending (gen_bind g body) = Unfinished ->
  ending g = Unfinished \/
  exists x, x ∈ yielded g /\ ending (body x) = Unfinished.
Proof.
  unfold gen_bind. intros [H|H]%gen_seq_unfinished.
  - right. by apply gen_for_unfinished.
  - by left.
Qed.

(** ** The recursive block fetch *)

Lemma tag_block_depth (parent_id : json) (depth : Z) (fields : dict) :
  tag_block parent_id depth fields !! "_depth" = Some (JInt depth).
Proof. unfold tag_block. by simplify_map_eq. Qed.

Lemma tag_block_parent (parent_id : json) (depth : Z) (fields : dict) :
  tag_block parent_id depth fields !! "_parent_id" = Some parent_id.
Proof. unfold tag_block. by simplify_map_eq. Qed.

Section BlocksProperties.
Variable list_block_children : json -> gen json.

Local Abbreviation fetch := (_fetch_recursive list_block_children).
Local Abbreviation spec_dfs := (dfs list_block_children).

(** With a budget that covers the levels left below [current_depth], the
    source function is the traversal of the specification; in particular
    the budget is never used up. *)
Lemma fetch_recursive_dfs (max_depth : Z) (levels : nat) :
  forall (budget : nat) (parent_id : json) (current_depth : Z),
  levels = Z.to_nat (max_depth - current_depth) ->
  (levels <= budget)%nat ->
  fetch max_depth budget parent_id current_depth
  = spec_dfs levels parent_id current_depth.
Proof.
  induction levels as [|levels IH]; intros budget parent_id d Hlevels Hbudget.
  - assert ((d <? max_depth) = false) as Hd by lia.
    destruct budget; cbn [_fetch_recursive dfs]; apply gen_bind_ext;
      intros []; try done; by rewrite Hd, andb_false_r.
  - assert ((d <? max_depth) = true) as Hd by lia.
    destruct budget as [|budget]; [lia|].
    cbn [_fetch_recursive dfs]. apply gen_bind_ext. intros []; try done.
    rewrite Hd, andb_true_r. cbv zeta.
    destruct (truthy _); [|done].
    destruct (_ !! "id"); [|done].
    f_equal. apply IH; lia.
Qed.

(** The blocks the traversal yields: each is a listed child of its parent,
    tagged with the parent id and with a depth between the starting depth
    and the deepest level; a block of the starting depth is a child of the
    root, a deeper one a child of a yielded block of the depth above that
    is flagged as having children. *)
Lemma dfs_yields (levels : nat) :
  forall (parent_id : json) (depth : Z) (item : json),
  item ∈ yielded (spec_dfs levels parent_id depth) ->
  exists (q : json) (d : Z) (fields : dict),
    item = JObj (tag_block q d fields) /\
    JObj fields ∈ yielded (list_block_children q) /\
    depth <= d <= depth + Z.of_nat levels /\
    (d = depth -> q = parent_id) /\
    (depth < d ->
       exists above : dict,
         JObj above ∈ yielded (spec_dfs levels parent_id depth) /\
         above !! "_depth" = Some (JInt (d - 1)) /\
         above !! "id" = Some q /\
         truthy (dict_get above "has_children") = true).
Proof.
  induction levels as [|levels IH]; intros parent_id depth item Hitem.
  - cbn [dfs] in Hitem.
    destruct (gen_bind_yielded_inv _ _ _ Hitem) as (x & Hx & Hyx & _).
    destruct x as [| | | | | |fields]; try by apply elem_of_nil in Hyx.
    cbn in Hyx. apply list_elem_of_singleton in Hyx as ->.
    exists parent_id, depth, fields. split_and!; [done|done|lia|lia|done|lia].
  - cbn [dfs] in Hitem.
    destruct (gen_bind_yielded_inv _ _ _ Hitem) as (x & Hx & Hyx & Hsub).
    fold (spec_dfs (S levels) parent_id depth) in Hsub.
    destruct x as [| | | | | |fields]; try by apply elem_of_nil in Hyx.
    cbv zeta in Hyx, Hsub. unfold gen_cons in Hyx, Hsub at 1.
    cbn [yielded] in Hyx, Hsub.
    set (block := tag_block parent_id depth fields) in *.
    apply elem_of_cons in Hyx as [->|Hbelow].
    { exists parent_id, depth, fields.
      split_and!; [done|done|lia|lia|done|lia]. }
    destruct (truthy (dict_get block "has_children")) eqn:Hflag;
      [|by apply elem_of_nil in Hbelow].
    destruct (block !! "id") as [id|] eqn:Hid;
      [|by apply elem_of_nil in Hbelow].
    destruct (IH id (depth + 1) item Hbelow)
      as (q & d & fields' & -> & Hchild & Hd & Hq & Habove).
    exists q, d, fields'. split_and!; [done|done|lia|lia|lia|].
    intros Hlt. destruct (decide (d = depth + 1)) as [Heq|Hne].
    + exists block. split_and!.
      * apply Hsub. left.
      * subst d. replace (depth + 1 - 1) with depth by lia.
        apply tag_block_depth.
      * by rewrite (Hq Heq).
      * done.
    + destruct Habove as (above & Hab & Hdepth & Hidq & Hfl); [lia|].
      exists above. split_and!; [|done..].
      apply Hsub. by right.
Qed.

Lemma dfs_unfinished (levels : nat) :
  forall (parent_id : json) (depth : Z),
  ending (spec_dfs levels parent_id depth) = Unfinished ->
  exists q, ending (list_block_children q) = Unfinished.
Proof.
  induction levels as [|levels IH]; intros parent_id depth Hend;
    cbn [dfs] in Hend;
    apply gen_bind_unfinished in Hend as [Hend|(x & _ & Hend)];
    try (by exists parent_id);
    destruct x as [| | | | | |fields]; try done.
  cbv zeta in Hend. cbn [gen_cons ending] in Hend.
  destruct (truthy _); [|done].
  destruct (_ !! "id") as [id|]; [|done].
  by apply (IH id (depth + 1)).
Qed.

(** One level of the source function, the budget being the levels left:
    a yielded block is expanded exactly when it is flagged as having
    children and its depth is below the maximum. *)
Lemma fetch_recursive_unfold (max_depth : Z) (parent_id : json) (d : Z) :
  fetch max_depth (Z.to_nat (max_depth - d)) parent_id d
  = gen_bind (list_block_children parent_id) (fun block =>
      match block with
      | JObj fields =>
          let block := tag_block parent_id d fields in
          gen_cons (JObj block)
            (if truthy (dict_get block "has_children") && (d <? max_depth)
             then match block !! "id" with
                  | None => Gen [] (Raised (KeyError "'id'"))
                  | Some id =>
                      fetch max_depth (Z.to_nat (max_depth - (d + 1))) id
                            (d + 1)
                  end
             else Gen [] Done)
      | _ =>
          Gen [] (Raised (TypeError "object does not support item assignment"))
      end).
Proof.
  destruct (Z.ltb_spec d max_depth) as [Hlt|Hge].
  - replace (Z.to_nat (max_depth - d))
      with (S (Z.to_nat (max_depth - (d + 1)))) by lia.
    cbn [_fetch_recursive]. apply gen_bind_ext. intros []; try done.
    assert ((d <? max_depth) = true) as -> by lia. done.
  - replace (Z.to_nat (max_depth - d)) with 0%nat by lia.
    cbn [_fetch_recursive]. apply gen_bind_ext. intros []; try done.
    assert ((d <? max_depth) = false) as -> by lia.
    by rewrite !andb_false_r.
Qed.

(** At the maximum depth and beyond, the children are yielded as leaves. *)
Lemma fetch_recursive_leaves (max_depth : Z) (budget : nat)
    (parent_id : json) (d : Z) :
  max_depth <= d ->
  fetch max_depth budget parent_id d
  = gen_bind (list_block_children parent_id) (fun block =>
      match block with
      | JObj fields => Gen [JObj (tag_block parent_id d fields)] Done
      | _ =>
          Gen [] (Raised (TypeError "object does not support item assignment"))
      end).
Proof.
  intros Hge. assert ((d <? max_depth) = false) as Hd by lia.
  destruct budget; cbn [_fetch_recursive]; apply gen_bind_ext;
    intros []; try done; by rewrite Hd, andb_false_r.
Qed.

(** On every listing, also one that raises or yields what is not a map:
    for every root id and maximum depth, [get_all_blocks] is the
    traversal [dfs].  Every yielded block is a
    listed child tagged with its parent's id and with its depth, counted
    from 1 and at most the maximum (or 1); a block of depth 1 is a child of
    the root, a deeper one a child of a yielded block of the depth above
    that is flagged as having children.  A yielded block is expanded
    exactly when it is flagged and its depth is below the maximum, and the
    children of a block at the maximum depth are never expanded.  The
    traversal ends when the listings do. *)
Theorem get_all_blocks_spec (config : NotionConfig) (block_id : string)
    (max_depth : option Z) :
  let md := default (max_block_depth config) max_depth in
  let out := get_all_blocks list_block_children config block_id max_depth in
  out = spec_dfs (Z.to_nat (md - 1)) (JStr block_id) 1 /\
  (forall item, item ∈ yielded out ->
     exists (q : json) (d : Z) (fields block : dict),
       item = JObj block /\
       block = tag_block q d fields /\
       block !! "_depth" = Some (JInt d) /\
       block !! "_parent_id" = Some q /\
       JObj fields ∈ yielded (list_block_children q) /\
       1 <= d /\ (d <= md \/ d = 1) /\
       (d = 1 -> q = JStr block_id) /\
       (1 < d ->
          exists above : dict,
            JObj above ∈ yielded out /\
            above !! "_depth" = Some (JInt (d - 1)) /\
            above !! "id" = Some q /\
            truthy (dict_get above "has_children") = true)) /\
  (forall parent_id d,
     fetch md (Z.to_nat (md - d)) parent_id d
     = gen_bind (list_block_children parent_id) (fun block =>
         match block with
         | JObj fields =>
             let block := tag_block parent_id d fields in
             gen_cons (JObj block)
               (if truthy (dict_get block "has_children") && (d <? md)
                then match block !! "id" with
                     | None => Gen [] (Raised (KeyError "'id'"))
                     | Some id =>
                         fetch md (Z.to_nat (md - (d + 1))) id (d + 1)
                     end
                else Gen [] Done)
         | _ =>
             Gen [] (Raised
                       (TypeError "object does not support item assignment"))
         end)) /\
  (forall budget parent_id d, md <= d ->
     fetch md budget parent_id d
     = gen_bind (list_block_children parent_id) (fun block =>
         match block with
         | JObj fields => Gen [JObj (tag_block parent_id d fields)] Done
         | _ =>
             Gen [] (Raised
                       (TypeError "object does not support item assignment"))
         end)) /\
  (ending out = Unfinished ->
     exists q, ending (list_block_children q) = Unfinished).
Proof.
  intros md out.
  assert (out = spec_dfs (Z.to_nat (md - 1)) (JStr block_id) 1) as Hout.
  { unfold out, get_all_blocks. fold md. by apply fetch_recursive_dfs. }
  split_and!.
  - done.
  - rewrite Hout. intros item Hitem.
    destruct (dfs_yields _ _ _ _ Hitem)
      as (q & d & fields & -> & Hchild & Hd & Hq & Habove).
    exists q, d, fields, (tag_block q d fields).
    split_and!; [done|done|apply tag_block_depth|apply tag_block_parent
                |done|lia|lia|done|done].
  - intros parent_id d. apply fetch_recursive_unfold.
  - intros budget parent_id d. apply fetch_recursive_leaves.
  - rewrite Hout. apply dfs_unfinished.
Qed.

End BlocksProperties.

(** The example of the specification: with the maximum depth 2 the blocks
    of depth 1 and 2 are yielded, and the block [b] of depth 2, flagged as
    having children, is not expanded. *)
Example get_all_blocks_depth_2 :
  get_all_blocks sample_children sample_config "root" (Some 2)
  = Gen [ JObj {[ "id" := JStr "a"; "has_children" := JBool true;
                  "_depth" := JInt 1; "_parent_id" := JStr "root" ]};
          JObj {[ "id" := JStr "b"; "has_children" := JBool true;
                  "_depth" := JInt 2; "_parent_id" := JStr "a" ]} ]
        Done.
Proof. vm_compute. reflexivity. Qed.

(** *** The traversal against the preorder of the workspace *)

Lemma tag_block_tagged (parent_id : json) (depth : Z) (fields : dict) :
  tag_block parent_id depth fields = tagged parent_id depth fields.
Proof. unfold tag_block, tagged. by apply insert_insert_ne. Qed.

Lemma tag_block_keeps (parent_id : json) (depth : Z) (fields : dict) :
  dict_get (tag_block parent_id depth fields) "has_children"
    = dict_get fields "has_children" /\
  tag_block parent_id depth fields !! "id" = fields !! "id".
Proof.
  unfold tag_block, dict_get. by rewrite !lookup_insert_ne by done.
Qed.

(** A loop over listed blocks whose body, on each of them, yields a list
    of blocks and returns. *)
Lemma gen_for_blocks (blocks : list dict) (body : json -> gen json)
    (out : dict -> list dict) :
  (forall fields, fields ∈ blocks ->
     body (JObj fields) = Gen (JObj <$> out fields) Done) ->
  gen_for (JObj <$> blocks) body = Gen (JObj <$> flat_map out blocks) Done.
Proof.
  induction blocks as [|fields blocks IH]; intros Hbody; [done|].
  cbn [fmap list_fmap gen_for flat_map].
  rewrite Hbody by left. rewrite IH by (intros f Hf; apply Hbody; by right).
  unfold gen_seq. cbn. by rewrite fmap_app.
Qed.

Section PreorderProperties.
Variable children : json -> list dict.
Hypothesis Hids : flagged_have_ids children.

Local Abbreviation listing := (listing_of children).
Local Abbreviation walk := (preorder children).

(** The source function on a workspace whose listings succeed yields the
    preorder, and returns. *)
Lemma fetch_recursive_preorder (max_depth : Z) (levels : nat) :
  forall (budget : nat) (parent_id : json) (current_depth : Z),
  levels = Z.to_nat (max_depth - current_depth) ->
  (levels <= budget)%nat ->
  _fetch_recursive listing max_depth budget parent_id current_depth
  = Gen (JObj <$> walk levels parent_id current_depth) Done.
Proof using Hids.
  induction levels as [|levels IH]; intros budget parent_id d Hlevels Hbudget.
  - assert ((d <? max_depth) = false) as Hd by lia.
    rewrite fetch_recursive_leaves by lia.
    unfold gen_bind, listing_of. cbn [yielded ending preorder].
    rewrite (gen_for_blocks _ _ (fun fields => [tagged parent_id d fields])).
    + unfold gen_seq. cbn. by rewrite app_nil_r.
    + intros fields _. cbn. by rewrite tag_block_tagged.
  - assert ((d <? max_depth) = true) as Hd by lia.
    destruct budget as [|budget]; [lia|].
    cbn [_fetch_recursive preorder]. unfold gen_bind, listing_of at 1.
    cbn [yielded ending].
    rewrite (gen_for_blocks _ _ (fun fields =>
      tagged parent_id d fields ::
      (if truthy (dict_get fields "has_children") then
         match fields !! "id" with
         | Some id => walk levels id (d + 1)
         | None => []
         end
       else []))).
    + unfold gen_seq. cbn. by rewrite app_nil_r.
    + intros fields Hin. cbv zeta.
      destruct (tag_block_keeps parent_id d fields) as [-> ->].
      rewrite Hd, andb_true_r, tag_block_tagged.
      destruct (truthy (dict_get fields "has_children")) eqn:Hflag; [|done].
      destruct (Hids parent_id fields Hin Hflag) as [id ->].
      rewrite (IH budget id (d + 1)) by lia. done.
Qed.

(** The preorder by depth: a block is followed by the blocks below it
    exactly when it is flagged and its depth is below the maximum. *)
Lemma preorder_by_depth (max_depth : Z) (parent_id : json) (depth : Z) :
  walk (Z.to_nat (max_depth - depth)) parent_id depth
  = flat_map
      (fun fields =>
         tagged parent_id depth fields ::
         if truthy (dict_get fields "has_children") && (depth <? max_depth)
         then match fields !! "id" with
              | Some id =>
                  walk (Z.to_nat (max_depth - (depth + 1))) id (depth + 1)
              | None => []
              end
         else [])
      (children parent_id).
Proof using Type.
  destruct (Z.ltb_spec depth max_depth) as [Hlt|Hge].
  - replace (Z.to_nat (max_depth - depth))
      with (S (Z.to_nat (max_depth - (depth + 1)))) by lia.
    cbn [preorder]. apply flat_map_ext. intros fields.
    by rewrite andb_true_r.
  - replace (Z.to_nat (max_depth - depth)) with 0%nat by lia.
    cbn [preorder]. apply flat_map_ext. intros fields.
    by rewrite andb_false_r.
Qed.

(** The depths of the preorder run from the starting depth to the deepest
    level allowed, and the parent of a block of the starting depth is the
    root. *)
Lemma preorder_depths (levels : nat) :
  forall (parent_id : json) (depth : Z) (block : dict),
  block ∈ walk levels parent_id depth ->
  exists (q : json) (d : Z) (fields : dict),
    block = tagged q d fields /\ fields ∈ children q /\
    depth <= d <= depth + Z.of_nat levels /\
    (d = depth -> q = parent_id).
Proof using Type.
  induction levels as [|levels IH]; intros parent_id depth block;
    cbn [preorder]; rewrite list_elem_of_In, in_flat_map;
    intros (fields & Hin%list_elem_of_In & Hblock%list_elem_of_In).
  - apply list_elem_of_singleton in Hblock as ->.
    exists parent_id, depth, fields. split_and!; [done|done|lia|lia|done].
  - apply elem_of_cons in Hblock as [->|Hbelow].
    { exists parent_id, depth, fields. split_and!; [done|done|lia|lia|done]. }
    destruct (truthy _); [|by apply elem_of_nil in Hbelow].
    destruct (fields !! "id") as [id|]; [|by apply elem_of_nil in Hbelow].
    destruct (IH _ _ _ Hbelow) as (q & d & f & -> & Hf & Hd & _).
    exists q, d, f. split_and!; [done|done|lia|lia|lia].
Qed.

(** C6: on a workspace whose listings succeed and whose flagged blocks
    carry ids, for every root id and maximum depth, [get_all_blocks] yields
    exactly the preorder of the workspace and returns: the children of the
    root in order, each tagged with the depth 1 and the id of the root, and
    each block followed at once by the traversal of its own children, one
    level deeper and tagged with its id as their parent, exactly when it
    is flagged as having children and its depth is below the maximum; the
    blocks at the maximum depth are yielded and never expanded, so no block
    is deeper than the maximum. *)
Theorem get_all_blocks_preorder (config : NotionConfig) (block_id : string)
    (max_depth : option Z) :
  let md := default (max_block_depth config) max_depth in
  let below parent_id depth :=
    walk (Z.to_nat (md - depth)) parent_id depth in
  get_all_blocks listing config block_id max_depth
    = Gen (JObj <$> below (JStr block_id) 1) Done /\
  (forall parent_id depth,
     below parent_id depth
     = flat_map
         (fun fields =>
            tagged parent_id depth fields ::
            if truthy (dict_get fields "has_children") && (depth <? md)
            then match fields !! "id" with
                 | Some id => below id (depth + 1)
                 | None => []
                 end
            else [])
         (children parent_id)) /\
  (forall parent_id depth, md <= depth ->
     below parent_id depth
     = tagged parent_id depth <$> children parent_id) /\
  (forall block, block ∈ below (JStr block_id) 1 ->
     exists (q : json) (d : Z) (fields : dict),
       block = tagged q d fields /\ fields ∈ children q /\
       block !! "_depth" = Some (JInt d) /\
       block !! "_parent_id" = Some q /\
       1 <= d /\ (d <= md \/ d = 1) /\
       (d = 1 -> q = JStr block_id)).
Proof using Hids.
  intros md below. split_and!.
  - unfold get_all_blocks. fold md. by apply fetch_recursive_preorder.
  - intros parent_id depth. apply preorder_by_depth.
  - intros parent_id depth Hge. unfold below.
    replace (Z.to_nat (md - depth)) with 0%nat by lia. cbn [preorder].
    induction (children parent_id) as [|fields rest IH]; [done|].
    cbn. by rewrite IH.
  - intros block Hblock.
    destruct (preorder_depths _ _ _ _ Hblock)
      as (q & d & fields & -> & Hin & Hd & Hq).
    exists q, d, fields. unfold tagged.
    split_and!; [done|done| | |lia|lia|done].
    + by rewrite lookup_insert_eq.
    + by rewrite lookup_insert_ne, lookup_insert_eq by done.
Qed.

End PreorderProperties.

Lemma sample_child_lists_ids : flagged_have_ids sample_child_lists.
Proof.
  intros q fields Hin _. unfold sample_child_lists in Hin.
  repeat case_match;
    repeat (apply elem_of_cons in Hin as [->|Hin]; [by eexists|]);
    by apply elem_of_nil in Hin.
Qed.

(** The example of the specification, with the maximum depth 2: [a] and
    its child [b] come before [d]; [b], at the depth 2 and flagged, is not
    expanded; [d] is expanded and has no child. *)
Lemma get_all_blocks_preorder_depth_2 :
  get_all_blocks (listing_of sample_child_lists) sample_config "root" (Some 2)
  = Gen [ JObj {[ "id" := JStr "a"; "has_children" := JBool true;
                  "_depth" := JInt 1; "_parent_id" := JStr "root" ]};
          JObj {[ "id" := JStr "b"; "has_children" := JBool true;
                  "_depth" := JInt 2; "_parent_id" := JStr "a" ]};
          JObj {[ "id" := JStr "d"; "has_children" := JBool true;
                  "_depth" := JInt 1; "_parent_id" := JStr "root" ]} ]
        Done.
Proof.
  destruct (get_all_blocks_preorder sample_child_lists sample_child_lists_ids
              sample_config "root" (Some 2)) as [Hrun _].
  rewrite Hrun. vm_compute. reflexivity.
Defined.

(** ** The connection check *)

Lemma status_of_connection_status (status : string) (message : option string) :
  status_of (connection_status status message) = Some (JStr status).
Proof.
  unfold status_of, connection_status.
  rewrite lookup_insert_ne, lookup_singleton_eq by done. cbn.
  destruct message as [text|]; [destruct (String.eqb text "")|];
    by simplify_map_eq.
Qed.

Lemma message_of_connection_status (status text : string) :
  text <> "" ->
  message_of (connection_status status (Some text)) = Some (JStr text).
Proof.
  intros Hne. unfold message_of, connection_status.
  rewrite lookup_insert_ne, lookup_singleton_eq by done. cbn. destruct (String.eqb_spec text ""); [done|]. by simplify_map_eq.
Qed.

Lemma connection_status_type (status : string) (message : option string) :
  connection_status status message !! "type" = Some (JStr "CONNECTION_STATUS").
Proof. unfold connection_status. by simplify_map_eq. Qed.

Section ConnectorProperties.
Variable repr_other : json -> string.
Variable http_error_text : response -> string.
Variable json_error_text : response -> string.

Local Abbreviation validation st get :=
  (validate http_error_text json_error_text st get).2.
Local Abbreviation run_check :=
  (check repr_other http_error_text json_error_text).

(** A successful validation carries the user object of the service. *)
Lemma validate_success_user_info (st : auth_state) (get : result response)
    (res : AuthenticationResult) :
  validation st get = Ok res -> success res = true ->
  exists info : dict, user_info res = JObj info.
Proof.
  destruct get as [r|e].
  - unfold validate, validate_try, response_json, raise_for_status.
    destruct (status_code r =? 401).
    { destruct (negb (String.eqb (text r) "")); cbn;
        [destruct (json_body r) as [[]|]|]; cbn; by intros [= <-]. }
    destruct (status_code r =? 403); [cbn; by intros [= <-]|].
    destruct ((400 <=? status_code r) && (status_code r <? 600));
      [cbn; by intros [= <-]|].
    destruct (json_body r) as [[]|]; cbn; try by intros [= <-].
    destruct (negb (json_is_str (dict_get_or m "object" JNull) "user"));
      cbn; [by intros [= <-]|].
    destruct (json_is_str (dict_get_or m "type" JNull) "bot"); cbn.
    + destruct (dict_get_or m "bot" (JObj ∅)); cbn; try done.
      intros [= <-] _. by eexists.
    + intros [= <-] _. by eexists.
  - destruct e; cbn; try done; by intros [= <-].
Qed.

Lemma check_try_failed_or_raised (v : result AuthenticationResult)
    (users : result (list json)) (msg : dict) :
  check_try repr_other v users = Ok msg ->
  status_of msg = Some (JStr "SUCCEEDED") ->
  exists res us, v = Ok res /\ success res = true /\ users = Ok us.
Proof.
  unfold check_try. destruct v as [res|e]; cbn; [|done].
  destruct (success res) eqn:Hs; cbn.
  - destruct users as [us|e].
    + intros _ _. by exists res, us.
    + destruct e as [status ? ? ?|?|?|?|?|?|?|?|?|?]; try done.
           destruct (status =? 403); [|done].
      intros [= <-]. by rewrite status_of_connection_status.
  - intros [= <-]. by rewrite status_of_connection_status.
Qed.

Lemma check_except_status (r : result dict) :
  (forall msg, r = Ok msg ->
     status_of msg = Some (JStr "SUCCEEDED") \/
     status_of msg = Some (JStr "FAILED")) ->
  status_of (check_except r) = Some (JStr "SUCCEEDED") \/
  status_of (check_except r) = Some (JStr "FAILED").
Proof.
  intros Hok. destruct r as [msg|e]; cbn; [by apply Hok|].
  right. destruct e; apply status_of_connection_status.
Qed.

(** X3: what [check] does guarantee: it returns a connection status message
    for every outcome of the validation and of the probe, and never
    raises.  The status is SUCCEEDED, with a message naming the user
    ("Bot" when the user object has no name entry), when the validation
    succeeds and the probe returns;
    FAILED with the fixed message on insufficient permissions when the
    probe raises an API error with status 403; FAILED with the error
    message of the authenticator when the validation fails; and FAILED in
    every other case. *)
Theorem check_spec (st : auth_state) (get : result response)
    (users : result (list json)) :
  let msg := run_check st get users in
  msg !! "type" = Some (JStr "CONNECTION_STATUS") /\
  (status_of msg = Some (JStr "SUCCEEDED") \/
   status_of msg = Some (JStr "FAILED")) /\
  (forall res us,
     validation st get = Ok res -> success res = true -> users = Ok us ->
     exists info : dict,
       user_info res = JObj info /\
       status_of msg = Some (JStr "SUCCEEDED") /\
       message_of msg
         = Some (JStr ("Connected to Notion workspace as " +:+
                       py_str repr_other (dict_get_or info "name" (JStr "Bot")))) /\
       (info !! "name" = None ->
          message_of msg = Some (JStr "Connected to Notion workspace as Bot")) /\
       (forall n, info !! "name" = Some (JStr n) ->
          message_of msg
            = Some (JStr ("Connected to Notion workspace as " +:+ n)))) /\
  (forall res code message rid,
     validation st get = Ok res -> success res = true ->
     users = Raise (NotionAPIError 403 code message rid) ->
     status_of msg = Some (JStr "FAILED") /\
     message_of msg = Some (JStr insufficient_permissions)) /\
  (forall res,
     validation st get = Ok res -> success res = false ->
     status_of msg = Some (JStr "FAILED") /\
     message_of msg
       = Some (JStr ("Authentication failed: " +:+
                     py_str repr_other (error res)))) /\
  (status_of msg = Some (JStr "SUCCEEDED") ->
     exists res us,
       validation st get = Ok res /\ success res = true /\ users = Ok us).
Proof.
  intros msg. unfold msg, check.
  set (v := validation st get).
  assert (forall res us, v = Ok res -> success res = true -> users = Ok us ->
          exists info : dict,
            user_info res = JObj info /\
            check_try repr_other v users
            = Ok (connection_status "SUCCEEDED"
                    (Some ("Connected to Notion workspace as " +:+
                           py_str repr_other
                             (dict_get_or info "name" (JStr "Bot")))))) as Hsucc.
  { intros res us Hv Hs ->.
    destruct (validate_success_user_info st get res Hv Hs) as (info & Hinfo).
    exists info. split; [done|].
    unfold check_try. rewrite Hv. cbn. by rewrite Hs, Hinfo. }
  split_and!.
  - destruct (check_try repr_other v users) as [m|e] eqn:Htry; cbn.
    + unfold check_try in Htry. destruct v as [res|e]; cbn in Htry; [|done].
      destruct (success res); cbn in Htry.
      * destruct users as [us|e].
        -- destruct (py_get (user_info res) "name" (JStr "Bot")); cbn in Htry;
             [|done]. injection Htry as <-. apply connection_status_type.
        -- destruct e as [status ? ? ?|?|?|?|?|?|?|?|?|?]; try done.
           destruct (status =? 403); [|done].
           injection Htry as <-. apply connection_status_type.
      * injection Htry as <-. apply connection_status_type.
    + destruct e; apply connection_status_type.
  - apply check_except_status. intros m Htry.
    unfold check_try in Htry. destruct v as [res|e]; cbn in Htry; [|done].
    destruct (success res); cbn in Htry.
    + destruct users as [us|e].
      * destruct (py_get (user_info res) "name" (JStr "Bot")); cbn in Htry;
          [|done]. injection Htry as <-. left.
        apply status_of_connection_status.
      * destruct e as [status ? ? ?|?|?|?|?|?|?|?|?|?]; try done.
           destruct (status =? 403); [|done].
        injection Htry as <-. right. apply status_of_connection_status.
    + injection Htry as <-. right. apply status_of_connection_status.
  - intros res us Hv Hs Hu.
    destruct (Hsucc res us Hv Hs Hu) as (info & Hinfo & ->).
    exists info. cbn [check_except].
    rewrite status_of_connection_status, message_of_connection_status by done.
    split_and!; [done..| |].
    + intros Hname. unfold dict_get_or. by rewrite Hname.
    + intros n Hname. unfold dict_get_or. by rewrite Hname.
  - intros res code message rid Hv Hs ->.
    unfold check_try. rewrite Hv. cbn. rewrite Hs. cbn.
    by rewrite status_of_connection_status, message_of_connection_status.
  - intros res Hv Hs. unfold check_try. rewrite Hv. cbn. rewrite Hs. cbn.
    by rewrite status_of_connection_status, message_of_connection_status.
  - destruct (check_try repr_other v users) as [m|e] eqn:Htry; cbn.
    + by apply check_try_failed_or_raised.
    + destruct e; by rewrite status_of_connection_status.
Qed.

End ConnectorProperties.

(** A bot with a name, a user object without a name, and a probe that is
    refused. *)
Example check_named_bot :
  let me := {| status_code := 200; text := "{...}";
               json_body := Some (JObj {[ "object" := JStr "user";
                                          "type" := JStr "bot";
                                          "name" := JStr "Test Integration" ]}) |} in
  let st := {| _authenticated := false; _bot_info := JNull |} in
  let msg := check (fun _ => "") (fun _ => "") (fun _ => "") st (Ok me) (Ok []) in
  status_of msg = Some (JStr "SUCCEEDED") /\
  message_of msg
    = Some (JStr "Connected to Notion workspace as Test Integration").
Proof. split; reflexivity. Qed.

Example check_unnamed_user :
  let me := {| status_code := 200; text := "{...}";
               json_body := Some (JObj {[ "object" := JStr "user" ]}) |} in
  let st := {| _authenticated := false; _bot_info := JNull |} in
  let msg := check (fun _ => "") (fun _ => "") (fun _ => "") st (Ok me) (Ok []) in
  status_of msg = Some (JStr "SUCCEEDED") /\
  message_of msg = Some (JStr "Connected to Notion workspace as Bot").
Proof. split; reflexivity. Qed.

Example check_probe_forbidden :
  let me := {| status_code := 200; text := "{...}";
               json_body := Some (JObj {[ "object" := JStr "user" ]}) |} in
  let st := {| _authenticated := false; _bot_info := JNull |} in
  let msg := check (fun _ => "") (fun _ => "") (fun _ => "") st (Ok me)
               (Raise (NotionAPIError 403 "restricted_resource" "Forbidden" None)) in
  status_of msg = Some (JStr "FAILED") /\
  message_of msg = Some (JStr insufficient_permissions).
Proof. split; reflexivity. Qed.

(** A validation that raises is reported, not propagated. *)
Example check_array_body :
  let me := {| status_code := 200; text := "[]"; json_body := Some (JArr []) |} in
  let st := {| _authenticated := false; _bot_info := JNull |} in
  let msg := check (fun _ => "") (fun _ => "") (fun _ => "") st (Ok me) (Ok []) in
  status_of msg = Some (JStr "FAILED") /\
  message_of msg
    = Some (JStr "Unexpected error: object has no attribute 'get'").
Proof. split; reflexivity. Qed.

(** C7, the failing input: the validation succeeds on a bot whose user
    object carries [name: null], and the probe returns.  The specification
    gives the message that falls back to "Bot" for a user without a name;
    the default of [get] covers a missing entry only, and [check] answers
    SUCCEEDED with the text of [None] in place of the name. *)
Theorem check_null_name :
  let msg := check (fun _ => "") (fun _ => "") (fun _ => "") fresh_auth
               (Ok null_name_response) (Ok []) in
  status_of msg = Some (JStr "SUCCEEDED") /\
  message_of msg = Some (JStr "Connected to Notion workspace as None") /\
  message_of msg <> Some (JStr "Connected to Notion workspace as Bot").
Proof. cbn zeta. split_and!; [reflexivity|reflexivity|by vm_compute]. Qed.

(** * Further properties *)

(** ** Chunks *)

Lemma range_step_chunks {A} (items : list A) (n m : nat) :
  concat ((fun i => take n (drop i items))
            <$> ((fun k => (k * n)%nat) <$> seq 0 m))
  = take (m * n) items.
Proof.
  induction m as [|m IH]; [done|].
  rewrite seq_S, !fmap_app, concat_app, IH. cbn.
  rewrite app_nil_r, take_take_drop. f_equal. lia.
Qed.

Lemma ceil_div_bounds (len n : nat) :
  (0 < n)%nat ->
  let m := ((len + n - 1) / n)%nat in
  (len <= m * n)%nat /\ (0 < len -> (m - 1) * n < len)%nat /\
  (len = 0 -> m = 0)%nat.
Proof.
  intros Hn m.
  pose proof (Nat.div_mod_eq (len + n - 1) n) as Hdiv.
  pose proof (Nat.mod_upper_bound (len + n - 1) n ltac:(lia)) as Hmod.
  fold m in Hdiv. split_and!; [nia| |].
  - intros Hlen. destruct m as [|m]; [nia|]. nia.
  - intros ->. subst m. apply Nat.div_small. lia.
Qed.

(** X4: for a positive chunk size [chunk_list] loses and reorders nothing
    (the chunks concatenated are the items), gives ceil(len / size) chunks,
    none of them empty and none longer than the size, and every chunk but
    the last has exactly the size. *)
Theorem chunk_list_spec {A} (items : list A) (chunk_size : Z) :
  0 < chunk_size ->
  exists chunks,
    chunk_list items chunk_size = Ok chunks /\
    concat chunks = items /\
    length chunks
      = ((length items + Z.to_nat chunk_size - 1) / Z.to_nat chunk_size)%nat /\
    (forall i c, chunks !! i = Some c ->
       (0 < length c <= Z.to_nat chunk_size)%nat /\
       ((S i < length chunks)%nat -> length c = Z.to_nat chunk_size)).
Proof.
  intros Hpos. unfold chunk_list.
  destruct (Z.eqb_spec chunk_size 0) as [|_]; [lia|].
  destruct (Z.ltb_spec chunk_size 0) as [|_]; [lia|].
  cbv zeta. set (n := Z.to_nat chunk_size). assert (0 < n)%nat as Hn by lia.
  eexists. split; [reflexivity|].
  unfold range_step. set (m := ((length items + n - 1) / n)%nat).
  destruct (ceil_div_bounds (length items) n Hn) as (Hup & Hlow & Hzero).
  fold m in Hup, Hlow, Hzero.
  split_and!.
  - rewrite range_step_chunks. apply take_ge, Hup.
  - by rewrite !length_fmap, length_seq.
  - intros i c. rewrite !list_lookup_fmap, !length_fmap, length_seq.
    destruct (seq 0 m !! i) as [k|] eqn:Hk; [|done]. cbn.
    apply lookup_seq in Hk as [-> Hi]. intros [= <-].
    rewrite length_take, length_drop. cbn.
    assert (0 < length items)%nat as Hlen by (destruct (length items); lia).
    specialize (Hlow Hlen). split; [nia|]. intros Hlast. nia.
Qed.

Lemma chunk_list_spec_example :
  0 < 2 /\
  chunk_list [1; 2; 3; 4; 5] 2 = Ok [[1; 2]; [3; 4]; [5]].
Proof.
  split; [lia|].
  destruct (chunk_list_spec [1; 2; 3; 4; 5] 2 ltac:(lia))
    as (chunks & Hrun & _).
  rewrite Hrun. f_equal. injection Hrun as <-. reflexivity.
Defined.


(** ** Rich text *)

Lemma string_app_assoc (a b c : string) : (a +:+ b) +:+ c = a +:+ b +:+ c.
Proof.
  induction a as [|x a IH]; [done|].
  change (String x ((a +:+ b) +:+ c) = String x (a +:+ b +:+ c)).
  by rewrite IH.
Qed.

Lemma str_join_app (xs ys : list string) :
  str_join (xs ++ ys) = str_join xs +:+ str_join ys.
Proof.
  induction xs as [|x xs IH]; [done|].
  unfold str_join in *. cbn [app foldr].
  by rewrite IH, string_app_assoc.
Qed.

Lemma mapM_result_app {A B} (f : A -> result B) (xs ys : list A) :
  mapM f (xs ++ ys)
  = (xs' ← mapM f xs; ys' ← mapM f ys; Ok (xs' ++ ys')).
Proof.
  induction xs as [|x xs IH]; cbn.
  - by destruct (mapM f ys).
  - destruct (f x); cbn; [|done]. rewrite IH.
    destruct (mapM f xs); cbn; [|done]. by destruct (mapM f ys).
Qed.

Lemma mapM_result_Ok {A B} (f : A -> result B) (g : A -> option B)
    (xs : list A) (ys : list B) :
  (forall x y, f x = Ok y <-> g x = Some y) ->
  mapM f xs = Ok ys <-> mapM g xs = Some ys.
Proof.
  intros Hfg. revert ys. induction xs as [|x xs IH]; intros ys; cbn.
  - split; by intros [= <-].
  - destruct (f x) as [y|e] eqn:Hf.
    + apply Hfg in Hf. rewrite Hf. cbn.
      destruct (mapM f xs) as [ys'|e] eqn:Hm; cbn.
      * assert (mapM g xs = Some ys') as -> by by apply IH.
        cbn. split; by intros [= <-].
      * destruct (mapM g xs) as [ys'|] eqn:Hg; cbn; [|done].
        destruct (IH ys') as [_ Hback]. by specialize (Hback eq_refl).
    + destruct (g x) as [y|] eqn:Hg; [|done].
      apply Hfg in Hg. congruence.
Qed.

Lemma plain_text_of_get (item : json) (s : string) :
  (text ← py_get item "plain_text" (JStr ""); py_join_item text) = Ok s
  <-> plain_text_of item = Some s.
Proof.
  destruct item as [| | | | | |m]; try done. cbn. unfold dict_get_or.
  destruct (m !! "plain_text") as [[]|]; cbn; try done;
    split; by intros [= <-].
Qed.

Lemma mapM_result_two_phase {A B C} (g1 : A -> result B)
    (g2 : B -> result C) (xs : list A) (parts : list C) :
  (ys ← mapM g1 xs; mapM g2 ys) = Ok parts
  <-> mapM (fun x => y ← g1 x; g2 y) xs = Ok parts.
Proof.
  revert parts. induction xs as [|x xs IH]; intros parts; [done|].
  cbn. destruct (g1 x) as [y|e]; cbn; [|by split].
  destruct (mapM g1 xs) as [ys|e]; cbn in *.
  - destruct (g2 y) as [p|e]; cbn; [|by split].
    destruct (mapM g2 ys) as [ps|e]; cbn.
    + rewrite (proj1 (IH ps) eq_refl). done.
    + destruct (mapM _ xs) as [ps|e'] eqn:Hm; cbn; [|by split].
      discriminate (proj2 (IH ps) eq_refl).
  - destruct (g2 y) as [p|e']; cbn; [|by split].
    destruct (mapM _ xs) as [ps|e'] eqn:Hm; cbn; [|by split].
    discriminate (proj2 (IH ps) eq_refl).
Qed.

Lemma join_plain_text_Ok (items : list json) (s : string) :
  join_plain_text items = Ok s
  <-> exists texts, mapM plain_text_of items = Some texts /\ s = str_join texts.
Proof.
  unfold join_plain_text.
  assert (forall parts,
    (texts ← mapM (fun item => py_get item "plain_text" (JStr "")) items;
     mapM py_join_item texts) = Ok parts
    <-> mapM plain_text_of items = Some parts) as Hphase.
  { intros parts. rewrite mapM_result_two_phase.
    apply mapM_result_Ok. intros x y. apply plain_text_of_get. }
  destruct (mapM (fun item => py_get item "plain_text" (JStr "")) items)
    as [texts|e]; cbn in *.
  - destruct (mapM py_join_item texts) as [parts|e]; cbn.
    + pose proof (proj1 (Hphase parts) eq_refl) as Hparts. split.
      * intros [= <-]. by exists parts.
      * intros (texts' & Ht & ->). congruence.
    + split; [done|]. intros (texts' & Ht & _).
      apply Hphase in Ht. congruence.
  - split; [done|]. intros (texts' & Ht & _).
    apply Hphase in Ht. congruence.
Qed.

(** X6: on an array, [extract_plain_text] returns exactly when every item
    is a map whose [plain_text] is a string or is missing, and then returns
    the texts joined in order (the empty string for the empty array); so
    the text of two arrays put together is the two texts put together. *)
Theorem extract_plain_text_array (items : list json) :
  (forall s,
     extract_plain_text (JArr items) = Ok s <->
     exists texts,
       mapM plain_text_of items = Some texts /\ s = str_join texts) /\
  (forall more s,
     extract_plain_text (JArr (items ++ more)) = Ok s <->
     exists s1 s2,
       extract_plain_text (JArr items) = Ok s1 /\
       extract_plain_text (JArr more) = Ok s2 /\ s = s1 +:+ s2).
Proof.
  assert (forall xs s,
    extract_plain_text (JArr xs) = Ok s <->
    exists texts, mapM plain_text_of xs = Some texts /\ s = str_join texts)
    as Harr.
  { intros xs s. destruct xs as [|x xs].
    - cbn. split.
      + intros [= <-]. by exists [].
      + intros (texts & [= <-] & ->). done.
    - apply join_plain_text_Ok. }
  split; [apply Harr|].
  intros more s. rewrite Harr. split.
  - intros (texts & Hm & ->).
    apply mapM_Some in Hm. apply Forall2_app_inv_l in Hm
      as (t1 & t2 & H1 & H2 & ->).
    exists (str_join t1), (str_join t2). split_and!.
    + apply Harr. exists t1. split; [by apply mapM_Some|done].
    + apply Harr. exists t2. split; [by apply mapM_Some|done].
    + apply str_join_app.
  - intros (s1 & s2 & (t1 & H1 & ->)%Harr & (t2 & H2 & ->)%Harr & ->).
    exists (t1 ++ t2). split; [|by rewrite str_join_app].
    apply mapM_Some, Forall2_app; by apply mapM_Some.
Qed.

(** A null [plain_text] is refused by [join], and an item that is not a
    map by [get], which comes first even when the item comes later. *)
Example extract_plain_text_errors :
  extract_plain_text (JArr [JObj {[ "plain_text" := JNull ]}])
    = Raise (TypeError "sequence item: expected str instance") /\
  extract_plain_text (JArr [JObj {[ "plain_text" := JNull ]}; JStr "x"])
    = Raise (AttributeError "object has no attribute 'get'") /\
  extract_plain_text JNull = Ok "".
Proof. split_and!; reflexivity. Qed.


(** ** Errors built from a response *)

Section FromResponseProperties.
Variable parse_float : string -> option float.
Variable repr_other : json -> string.

Local Abbreviation from_response' := (from_response parse_float repr_other).

Lemma retry_after_or_raise_reads (r : http_response) :
  (retry_after_reads parse_float r = true ->
   retry_after_or_raise parse_float r = Ok (get_retry_after parse_float r)) /\
  (retry_after_reads parse_float r = false ->
   retry_after_or_raise parse_float r
     = Raise (OtherException "could not convert string to float") /\
   get_retry_after parse_float r = None).
Proof.
  unfold retry_after_reads, retry_after_or_raise, get_retry_after.
  destruct (retry_after_header r) as [s|]; [|by split].
  destruct (String.eqb s ""); [by split|]. cbn.
  destruct (parse_float s) as [f|] eqn:Hf; by split.
Qed.

Lemma from_response_codes (r : http_response) :
  is_object_or_missing (json_body (resp r)) = true ->
  exists code message,
    from_response' r =
    (_ ← (if status_code (resp r) =? 429
          then retry_after_or_raise parse_float r else Ok None);
     Ok (NotionAPIError (status_code (resp r)) code message
           (request_id_header r))).
Proof.
  intros Hbody. unfold from_response.
  destruct (json_body (resp r)) as [[| | | | | |m]|]; try done; cbn.
  all: eexists _, _.
  all: repeat (case_match; [match goal with
         | H : (_ =? _) = true |- _ => apply Z.eqb_eq in H; rewrite ?H
         end; try lia; try reflexivity|]).
  all: try reflexivity.
  all: destruct (retry_after_or_raise parse_float r); reflexivity.
Qed.

(** X7: the error [from_response] builds carries the status and the request
    id of the response, whatever subclass is selected; it is built exactly
    when the body does not decode or decodes to a map and, for a 429, the
    [Retry-After] header is missing, empty or reads as a float.  On a 429
    whose header does not read as a float, [from_response] raises the
    [ValueError] of [float] where [get_retry_after] returns [None]. *)
Theorem from_response_spec (r : http_response) :
  (forall e, from_response' r = Ok e ->
     exists code message,
       e = NotionAPIError (status_code (resp r)) code message
             (request_id_header r)) /\
  (returns (from_response' r) <->
     is_object_or_missing (json_body (resp r)) = true /\
     (status_code (resp r) = 429 -> retry_after_reads parse_float r = true)) /\
  (status_code (resp r) = 429 ->
   is_object_or_missing (json_body (resp r)) = true ->
   retry_after_reads parse_float r = false ->
   get_retry_after parse_float r = None /\
   from_response' r
     = Raise (OtherException "could not convert string to float")).
Proof.
  assert (is_object_or_missing (json_body (resp r)) = false ->
          exists e, from_response' r = Raise e) as Hbad.
  { unfold from_response.
    destruct (json_body (resp r)) as [[| | | | | |m]|]; try done;
      intros _; by eexists. }
  destruct (is_object_or_missing (json_body (resp r))) eqn:Hbody.
  - destruct (from_response_codes r Hbody) as (code & message & Hrun).
    destruct (retry_after_or_raise_reads r) as [Hreads Hnot].
    split_and!.
    + intros e He. exists code, message. rewrite Hrun in He.
      destruct (status_code (resp r) =? 429);
        [destruct (retry_after_or_raise parse_float r)|]; cbn in He;
        congruence.
    + rewrite Hrun. split.
      * intros [e He]. split; [done|]. intros H429.
        apply Z.eqb_eq in H429. rewrite H429 in He.
        destruct (retry_after_reads parse_float r); [done|].
        destruct Hnot as [Hraise _]; [done|]. by rewrite Hraise in He.
      * intros [_ H429]. destruct (status_code (resp r) =? 429) eqn:Hst.
        -- apply Z.eqb_eq in Hst. rewrite (Hreads (H429 Hst)). by eexists.
        -- by eexists.
    + intros H429 _ Hno. destruct (Hnot Hno) as [Hraise Hnone].
      split; [done|]. rewrite Hrun. apply Z.eqb_eq in H429.
      by rewrite H429, Hraise.
  - destruct (Hbad eq_refl) as [e He]. rewrite He. split_and!.
    + done.
    + split; [by intros [? ?]|by intros [? _]].
    + done.
Qed.

End FromResponseProperties.

(** A 429 whose [Retry-After] is not a number, and a 409 whose body is a
    list. *)
Example from_response_examples :
  let r429 := {| resp := {| status_code := 429; text := "{}";
                            json_body := Some (JObj ∅) |};
                 retry_after_header := Some "soon";
                 request_id_header := Some "r1" |} in
  let r409 := {| resp := {| status_code := 409; text := "[]";
                            json_body := Some (JArr []) |};
                 retry_after_header := None;
                 request_id_header := None |} in
  get_retry_after parse_float_sample r429 = None /\
  from_response parse_float_sample (fun _ => "") r429
    = Raise (OtherException "could not convert string to float") /\
  from_response parse_float_sample (fun _ => "") r409
    = Raise (AttributeError "object has no attribute 'get'").
Proof. split_and!; reflexivity. Qed.

(** ** One request with its retries *)

Lemma sent_retried (attempt : nat) (delays : list float) :
  sent (retried attempt delays) = seq attempt (length delays).
Proof.
  revert attempt. induction delays as [|d delays IH]; intros attempt; [done|].
  cbn. f_equal. apply IH.
Qed.

Lemma slept_retried (attempt : nat) (delays : list float) :
  slept (retried attempt delays) = delays.
Proof.
  revert attempt. induction delays as [|d delays IH]; intros attempt; [done|].
  cbn. f_equal. apply IH.
Qed.

Section RequestProperties.
Variable parse_float : string -> option float.
Variable repr_other : json -> string.
Variable json_error_text : response -> string.
Variable time_sleep : float -> result unit.
Variable retry_handler : RetryHandler.t.
Variable endpoint : string.
Variable send : nat -> result http_response.

Local Abbreviation turn_of :=
  (attempt_turn parse_float repr_other json_error_text time_sleep
     retry_handler endpoint send).
Local Abbreviation loop :=
  (_request_loop parse_float repr_other json_error_text time_sleep
     retry_handler endpoint send).
Local Abbreviation request_run :=
  (_request parse_float repr_other json_error_text time_sleep
     retry_handler endpoint send).
Local Abbreviation backoff' := (backoff time_sleep retry_handler).
Local Abbreviation max_retries' := (RetryHandler.max_retries retry_handler).

Lemma backoff_continue (attempt : nat) (retry_after : option float)
    (exhausted : result exn) (delay : float) :
  backoff' attempt retry_after exhausted = Continue delay ->
  Z.of_nat attempt < max_retries' /\
  RetryHandler.calculate_delay retry_handler attempt retry_after = Ok delay /\
  time_sleep delay = Ok tt.
Proof.
  unfold backoff. destruct (Z.ltb_spec (Z.of_nat attempt) max_retries');
    [|by destruct exhausted].
  destruct (RetryHandler.calculate_delay _ _ _) as [d|]; [|done].
  destruct (time_sleep d) as [[]|] eqn:Hs; [|done]. by intros [= <-].
Qed.

(** A turn continues only while attempts remain, after a transient
    outcome, and after the pause computed for it. *)
Lemma attempt_turn_continue (attempt : nat) (delay : float) :
  turn_of attempt = Continue delay <->
  Z.of_nat attempt < max_retries' /\
  transient (send attempt) = true /\
  RetryHandler.calculate_delay retry_handler attempt
    (retry_after_of parse_float (send attempt)) = Ok delay /\
  time_sleep delay = Ok tt.
Proof.
  unfold attempt_turn, transient, retry_after_of. split.
  - destruct (send attempt) as [r|e].
    + destruct (status_code (resp r) =? 429) eqn:H429; cbn.
      { intros (? & ? & ?)%backoff_continue. done. }
      destruct (500 <=? status_code (resp r)) eqn:H500; cbn.
      { intros (? & ? & ?)%backoff_continue. done. }
      destruct (response_ok (resp r)); cbn.
      * by destruct (response_json _ _).
      * by destruct (from_response _ _ _).
    + destruct e; try done; intros (? & ? & ?)%backoff_continue; done.
  - intros (Hlt & Htr & Hcalc & Hsleep).
    assert (forall ra ex,
      RetryHandler.calculate_delay retry_handler attempt ra = Ok delay ->
      backoff' attempt ra ex = Continue delay) as Hback.
    { intros ra ex Hra. unfold backoff.
      destruct (Z.ltb_spec (Z.of_nat attempt) max_retries'); [|lia].
      by rewrite Hra, Hsleep. }
    destruct (send attempt) as [r|e].
    + destruct (status_code (resp r) =? 429) eqn:H429; cbn in *.
      { by apply Hback. }
      destruct (500 <=? status_code (resp r)) eqn:H500; [|done].
      by apply Hback.
    + destruct e; try done; by apply Hback.
Qed.


(** A response with a status below 400 ends the call with its body. *)
Lemma attempt_turn_success (attempt : nat) (r : http_response) :
  send attempt = Ok r ->
  status_code (resp r) < 400 ->
  turn_of attempt =
  match json_body (resp r) with
  | Some data => Return data
  | None => Fail (RequestException (json_error_text (resp r)))
  end.
Proof.
  intros Hsend Hst. unfold attempt_turn. rewrite Hsend.
  destruct (Z.eqb_spec (status_code (resp r)) 429); [lia|].
  destruct (Z.leb_spec 500 (status_code (resp r))); [lia|].
  unfold response_ok.
  destruct (Z.leb_spec 400 (status_code (resp r))); [lia|]. cbn.
  unfold response_json. by destruct (json_body (resp r)).
Qed.

(** A client error other than 429 ends the call at once. *)
Lemma attempt_turn_client_error (attempt : nat) (r : http_response) :
  send attempt = Ok r ->
  400 <= status_code (resp r) < 500 ->
  status_code (resp r) <> 429 ->
  turn_of attempt = Fail (response_error parse_float repr_other r).
Proof.
  intros Hsend Hst Hne. unfold attempt_turn. rewrite Hsend.
  destruct (Z.eqb_spec (status_code (resp r)) 429); [lia|].
  destruct (Z.leb_spec 500 (status_code (resp r))); [lia|].
  unfold response_ok.
  destruct (Z.leb_spec 400 (status_code (resp r))); [|lia].
  destruct (Z.ltb_spec (status_code (resp r)) 600); [|lia]. cbn.
  unfold response_error. by destruct (from_response _ _ _).
Qed.

(** The loop after [delays] turns that continue. *)
Lemma request_loop_retried (delays : list float) (remaining attempt : nat) :
  (forall i d, delays !! i = Some d ->
     turn_of (attempt + i) = Continue d) ->
  loop (length delays + remaining) attempt =
  (retried attempt delays ++ (loop remaining (attempt + length delays)).1,
   (loop remaining (attempt + length delays)).2).
Proof.
  revert attempt. induction delays as [|d delays IH]; intros attempt Hturns.
  - cbn. rewrite Nat.add_0_r. by destruct (loop remaining attempt).
  - cbn [length Nat.add _request_loop].
    pose proof (Hturns 0%nat d eq_refl) as H0. rewrite Nat.add_0_r in H0.
    rewrite H0, IH.
    + cbn. by rewrite Nat.add_succ_r.
    + intros i d' Hi. rewrite <- (Hturns (S i) d' Hi). f_equal. lia.
Qed.

Lemma request_loop_events (remaining attempt : nat) :
  Z.of_nat attempt + Z.of_nat remaining = max_retries' + 1 ->
  remaining <> 0%nat ->
  exists n,
    (Z.of_nat n <= max_retries') /\
    (attempt <= n)%nat /\
    sent (loop remaining attempt).1 = seq attempt (S n - attempt) /\
    length (slept (loop remaining attempt).1) = (n - attempt)%nat /\
    last (loop remaining attempt).1 = Some (Sent n).
Proof.
  revert attempt. induction remaining as [|remaining IH];
    intros attempt Hsum Hpos; [done|].
  cbn [_request_loop].
  destruct (turn_of attempt) as [data|e|delay] eqn:Hturn.
  - exists attempt. cbn. replace (S attempt - attempt)%nat with 1%nat by lia.
    replace (attempt - attempt)%nat with 0%nat by lia. split_and!; try done; lia.
  - exists attempt. cbn. replace (S attempt - attempt)%nat with 1%nat by lia.
    replace (attempt - attempt)%nat with 0%nat by lia. split_and!; try done; lia.
  - apply attempt_turn_continue in Hturn as (Hlt & _).
    destruct (IH (S attempt)) as (n & Hn & Hle & Hsent & Hslept & Hlast);
      [lia|lia|].
    exists n. destruct (loop remaining (S attempt)) as [events outcome].
    cbn in *. split_and!; try lia.
    + rewrite Hsent. replace (S n - attempt)%nat with (S (S n - S attempt)) by lia.
      done.
    + destruct events as [|ev events]; [done|]. done.
Qed.

(** X8: with a maximum of retries that is not negative, [_request] sends
    the attempts [0] to [n] for some [n] up to the maximum, pauses exactly
    [n] times, and ends (returning or raising) on a request, so the [raise]
    after the loop is not reached; with a negative maximum it sends nothing
    and raises the error after the loop. *)
Theorem request_attempts :
  (0 <= max_retries' ->
   exists n,
     Z.of_nat n <= max_retries' /\
     sent request_run.1 = seq 0 (S n) /\
     length (slept request_run.1) = n /\
     last request_run.1 = Some (Sent n)) /\
  (max_retries' < 0 ->
   request_run =
   ([], Raise (NotionConnectionError
                 ("Max retries exceeded for " +:+ endpoint)))).
Proof.
  unfold _request. split.
  - intros Hpos.
    destruct (request_loop_events (Z.to_nat (max_retries' + 1)) 0)
      as (n & Hn & _ & Hsent & Hslept & Hlast); [lia|lia|].
    exists n. rewrite Nat.sub_0_r in *. done.
  - intros Hneg. by replace (Z.to_nat (max_retries' + 1)) with 0%nat by lia.
Qed.

(** X9: a client error other than 429 is never retried, whatever the
    maximum of retries: after [k] transient failures that were retried,
    an answer with such a status ends the call with the error built from
    the response, without a pause after it.  This holds for the status 409
    too, which [is_retryable] counts as retryable. *)
Theorem request_client_error (k : nat) (delays : list float)
    (r : http_response) :
  length delays = k ->
  Z.of_nat k <= max_retries' ->
  (forall i d, delays !! i = Some d ->
     transient (send i) = true /\
     RetryHandler.calculate_delay retry_handler i
       (retry_after_of parse_float (send i)) = Ok d /\
     time_sleep d = Ok tt) ->
  send k = Ok r ->
  400 <= status_code (resp r) < 500 ->
  status_code (resp r) <> 429 ->
  request_run =
  (retried 0 delays ++ [Sent k],
   Raise (response_error parse_float repr_other r)).
Proof.
  intros Hlen Hk Hturns Hsend Hst Hne. unfold _request.
  replace (Z.to_nat (max_retries' + 1))
    with (length delays + S (Z.to_nat max_retries' - k))%nat by lia.
  rewrite request_loop_retried.
  - rewrite Hlen. cbn [_request_loop Nat.add].
    by rewrite (attempt_turn_client_error k r).
  - intros i d Hi. cbn. apply attempt_turn_continue.
    apply lookup_lt_Some in Hi as Hlt.
    destruct (Hturns i d Hi) as (? & ? & ?). split_and!; try done. lia.
Qed.

(** X10: transient failures are retried.  When the attempts before the
    [k]-th end in a rate limit, a server error, a timeout or a connection
    error, [k] is at most the maximum of retries, each pause (the
    [Retry-After] of a 429 that reads as a float, the exponential delay
    otherwise, capped) is computed and slept, and the [k]-th attempt is
    answered with a status below 400 and a body that decodes, then
    [_request] returns the body after [k + 1] requests and these [k]
    pauses. *)
Theorem request_retries (k : nat) (delays : list float) (r : http_response)
    (data : json) :
  length delays = k ->
  Z.of_nat k <= max_retries' ->
  (forall i d, delays !! i = Some d ->
     transient (send i) = true /\
     RetryHandler.calculate_delay retry_handler i
       (retry_after_of parse_float (send i)) = Ok d /\
     time_sleep d = Ok tt) ->
  send k = Ok r ->
  status_code (resp r) < 400 ->
  json_body (resp r) = Some data ->
  request_run = (retried 0 delays ++ [Sent k], Ok data).
Proof.
  intros Hlen Hk Hturns Hsend Hst Hbody. unfold _request.
  replace (Z.to_nat (max_retries' + 1))
    with (length delays + S (Z.to_nat max_retries' - k))%nat by lia.
  rewrite request_loop_retried.
  - rewrite Hlen. cbn [_request_loop Nat.add].
    by rewrite (attempt_turn_success k r), Hbody.
  - intros i d Hi. cbn. apply attempt_turn_continue.
    apply lookup_lt_Some in Hi as Hlt.
    destruct (Hturns i d Hi) as (? & ? & ?). split_and!; try done. lia.
Qed.


(** X12: the [Retry-After] of a 429 reaches [time.sleep] capped from above
    only.  When attempts remain and [time.sleep] refuses the delay (as it
    does a negative one), the call ends at once with the error of
    [time.sleep] in place of a retry. *)
Theorem request_sleep_refused (r : http_response) (retry_after : float)
    (e : exn) :
  send 0%nat = Ok r ->
  status_code (resp r) = 429 ->
  0 < max_retries' ->
  get_retry_after parse_float r = Some retry_after ->
  time_sleep (py_min retry_after (RetryHandler.max_delay retry_handler))
    = Raise e ->
  request_run = ([Sent 0], Raise e).
Proof.
  intros Hsend H429 Hpos Hra Hsleep. unfold _request.
  replace (Z.to_nat (max_retries' + 1))
    with (S (Z.to_nat max_retries')) by lia.
  cbn [_request_loop]. unfold attempt_turn. rewrite Hsend, H429. cbn.
  unfold backoff. change (Z.of_nat 0) with 0.
  destruct (Z.ltb_spec 0 max_retries'); [|lia].
  rewrite Hra. cbn. by rewrite Hsleep.
Qed.

End RequestProperties.

Lemma request_client_error_example :
  ApiError.is_retryable 409 = true /\
  _request parse_float_sample (fun _ => "") (fun _ => "") time_sleep_sample
    RetryHandler.default "/pages/p1" send_conflict
  = ([Sent 0], Raise (NotionAPIError 409 "conflict_error" "Conflict" None)).
Proof.
  split; [reflexivity|].
  rewrite (request_client_error parse_float_sample (fun _ => "")
             (fun _ => "") time_sleep_sample RetryHandler.default
             "/pages/p1" send_conflict 0 []
             (sample_response 409
                (Some (JObj {[ "code" := JStr "conflict_error";
                               "message" := JStr "Conflict" ]})) None)).
  - reflexivity.
  - reflexivity.
  - cbn. lia.
  - intros i d Hi. done.
  - reflexivity.
  - cbn. lia.
  - cbn. lia.
Defined.

Lemma request_retries_example :
  _request parse_float_sample (fun _ => "") (fun _ => "") time_sleep_sample
    RetryHandler.default "/users/me" send_sample
  = ([Sent 0; Slept 2; Sent 1; Slept 2; Sent 2; Slept 4; Sent 3],
     Ok (JObj {[ "object" := JStr "user" ]})).
Proof.
  apply (request_retries parse_float_sample (fun _ => "") (fun _ => "")
           time_sleep_sample RetryHandler.default "/users/me" send_sample
           3 [2; 2; 4]%float
           (sample_response 200
              (Some (JObj {[ "object" := JStr "user" ]})) None)).
  - reflexivity.
  - cbn. lia.
  - intros [|[|[|i]]] d Hi; cbn in Hi; simplify_eq;
      split_and!; vm_compute; reflexivity.
  - reflexivity.
  - cbn. lia.
  - reflexivity.
Defined.


Lemma request_sleep_refused_example :
  _request parse_float_sample (fun _ => "") (fun _ => "") time_sleep_sample
    RetryHandler.default "/search" send_negative
  = ([Sent 0],
     Raise (OtherException "sleep length must be non-negative")).
Proof.
  apply (request_sleep_refused parse_float_sample (fun _ => "")
           (fun _ => "") time_sleep_sample RetryHandler.default "/search"
           send_negative
           (sample_response 429 (Some (JObj ∅)) (Some "-5")) (-5)%float).
  - reflexivity.
  - reflexivity.
  - cbn. lia.
  - reflexivity.
  - vm_compute. reflexivity.
Defined.

(** ** The authenticator: state, failures raised, workspace *)

Lemma truthy_nonempty_map (m : dict) (k : string) (v : json) :
  m !! k = Some v -> truthy (JObj m) = true.
Proof.
  intros Hk. cbn. destruct (Nat.eqb_spec (size m) 0) as [Hsize|]; [|done].
  apply map_size_empty_iff in Hsize. by rewrite Hsize in Hk.
Qed.

Lemma json_is_str_eq (v : json) (s : string) :
  json_is_str v s = true <-> v = JStr s.
Proof.
  destruct v; cbn; try (split; done).
  rewrite String.eqb_eq. split; congruence.
Qed.

Section AuthStateProperties.
Variable http_error_text : response -> string.
Variable json_error_text : response -> string.

Local Abbreviation validate' := (validate http_error_text json_error_text).
Local Abbreviation validate_try' :=
  (validate_try http_error_text json_error_text).
Local Abbreviation raised st get :=
  (validate_or_raise http_error_text json_error_text st get).2.

(** The ways the [try] of [validate] ends on a response: with the state
    untouched, or with the decoded user recorded. *)
Lemma validate_try_cases (st : auth_state) (r : response) :
  ((validate_try' st r).1 = st /\
   match (validate_try' st r).2 with
   | Ok result => success result = false
   | Raise e => (exists m, e = RequestException m) \/
                (exists m, e = AttributeError m)
   end) \/
  (exists user_data : dict,
     json_body r = Some (JObj user_data) /\
     user_data !! "object" = Some (JStr "user") /\
     (validate_try' st r).1
       = {| _authenticated := true; _bot_info := JObj user_data |} /\
     match (validate_try' st r).2 with
     | Ok result => success result = true /\ user_info result = JObj user_data
     | Raise e => exists m, e = AttributeError m
     end).
Proof.
  unfold validate_try, response_json, raise_for_status.
  destruct (status_code r =? 401).
  { left. split; [done|]. cbn.
    destruct (String.eqb (text r) ""); cbn; [done|].
    destruct (json_body r) as [[]|]; cbn; eauto. }
  destruct (status_code r =? 403); [by left|].
  destruct ((400 <=? status_code r) && (status_code r <? 600)); cbn.
  { left. eauto. }
  destruct (json_body r) as [[| | | | | |m]|]; cbn; try (left; by eauto).
  unfold dict_get_or.
  destruct (json_is_str (default JNull (m !! "object")) "user") eqn:Hobj;
    cbn; [|by left].
  right. exists m. apply json_is_str_eq in Hobj.
  split; [done|]. split.
  { destruct (m !! "object"); cbn in Hobj; congruence. }
  split; [done|].
  destruct (json_is_str (default JNull (m !! "type")) "bot"); cbn; [|done].
  destruct (m !! "bot") as [[]|]; cbn; eauto.
Qed.

(** X13: what [validate] leaves in the authenticator.  When it returns a
    success the authenticator is marked authenticated and holds the user
    returned; when it returns a failure it is left as it was.  So
    [validate] never takes the mark back: after one success a later
    failure (an expired token, say) leaves [is_authenticated] true. *)
Theorem validate_state (st : auth_state) (get : result response) :
  (forall result, (validate' st get).2 = Ok result ->
     (validate' st get).1 =
     if success result
     then {| _authenticated := true; _bot_info := user_info result |}
     else st) /\
  (_authenticated st = true ->
   _authenticated (validate' st get).1 = true).
Proof.
  destruct get as [r|e].
  - unfold validate.
    destruct (validate_try_cases st r) as [[Hst Hres]|(u & _ & _ & Hst & Hres)];
      destruct (validate_try' st r) as [st' res]; cbn in *; subst st'.
    + split; [|done]. intros result.
      destruct res as [res|e]; cbn.
      * intros [= <-]. by rewrite Hres.
      * destruct Hres as [[m ->]|[m ->]]; cbn; [|done].
        by intros [= <-].
    + split; [|done]. intros result.
      destruct res as [res|e]; cbn.
      * intros [= <-]. destruct Hres as [-> ->]. done.
      * by destruct Hres as [m ->].
  - cbn. split; [|done]. intros result.
    destruct e; cbn; try done; by intros [= <-].
Qed.

(** A failure after a success: the mark stays. *)
Example validate_keeps_mark :
  let st := {| _authenticated := true;
               _bot_info := JObj {[ "object" := JStr "user" ]} |} in
  validate' st (Ok {| status_code := 401; text := ""; json_body := None |})
  = (st, Ok (auth_failure (JStr "Invalid or expired token"))).
Proof. reflexivity. Qed.

(** X14: after a validation that succeeded, [get_workspace_info] does not
    raise.  For a bot it returns the workspace name and the owner of the
    [bot] entry, also where [validate] reported no workspace because the
    name is missing or empty; for any other user both report none. *)
Theorem get_workspace_info_after_validate (st : auth_state)
    (get : result response) (result : AuthenticationResult) :
  (validate' st get).2 = Ok result ->
  success result = true ->
  exists user_data : dict,
    user_info result = JObj user_data /\
    if json_is_str (dict_get user_data "type") "bot" then
      exists bot : dict,
        dict_get_or user_data "bot" (JObj ∅) = JObj bot /\
        get_workspace_info (validate' st get).1
          = Ok (JObj {[ "name" := dict_get bot "workspace_name";
                        "owner" := dict_get bot "owner" ]}) /\
        workspace_info result
          = if truthy (dict_get bot "workspace_name")
            then JObj {[ "name" := dict_get bot "workspace_name" ]}
            else JNull
    else
      get_workspace_info (validate' st get).1 = Ok JNull /\
      workspace_info result = JNull.
Proof.
  intros Hres Hok. destruct get as [r|e].
  2:{ cbn in Hres. destruct e; cbn in Hres; try done;
        injection Hres as <-; done. }
  unfold validate in *.
  destruct (validate_try' st r) as [st' res] eqn:Hrun. cbn in *.
  destruct res as [res|e].
  2:{ destruct e; cbn in Hres; try done; injection Hres as <-; done. }
  cbn in Hres. injection Hres as ->.
  revert Hrun. unfold validate_try, response_json, raise_for_status.
  destruct (status_code r =? 401).
  { destruct (String.eqb (text r) ""); cbn; [intros [= <- <-]; done|].
    destruct (json_body r) as [[]|]; cbn; intros [= <- Hr]; try done.
    by rewrite <- Hr in Hok. }
  destruct (status_code r =? 403); [intros [= <- <-]; done|].
  destruct ((400 <=? status_code r) && (status_code r <? 600)); cbn;
    [done|].
  destruct (json_body r) as [[| | | | | |m]|]; cbn; try done.
  unfold dict_get_or.
  destruct (json_is_str (default JNull (m !! "object")) "user") eqn:Hobj;
    cbn; [|intros [= <- <-]; done].
  assert (truthy (JObj m) = true) as Htruthy.
  { apply json_is_str_eq in Hobj.
    destruct (m !! "object") as [v|] eqn:Hm; [|done].
    by eapply truthy_nonempty_map. }
  unfold dict_get.
  destruct (json_is_str (default JNull (m !! "type")) "bot") eqn:Htype; cbn.
  - destruct (m !! "bot") as [[| | | | | |bot]|] eqn:Hbot; cbn; try done.
    + intros [= <- <-]. exists m. split; [done|]. rewrite Htype.
      exists bot. rewrite Hbot. split; [done|]. split; [|done].
      unfold get_workspace_info. cbn [_authenticated _bot_info negb orb].
      rewrite Htruthy. cbn. unfold dict_get_or. rewrite Htype, Hbot. done.
    + intros [= <- <-]. exists m. split; [done|]. rewrite Htype.
      exists ∅. rewrite Hbot. split; [done|]. split; [|done].
      unfold get_workspace_info. cbn [_authenticated _bot_info negb orb].
      rewrite Htruthy. cbn. unfold dict_get_or. rewrite Htype, Hbot. done.
  - intros [= <- <-]. exists m. split; [done|]. rewrite Htype.
    split; [|done].
    unfold get_workspace_info. cbn [_authenticated _bot_info negb orb].
    rewrite Htruthy. cbn. unfold dict_get_or. by rewrite Htype.
Qed.

(** X15: the exceptions of [validate_or_raise].  Whatever the response,
    an API error it raises has the status 401 and the code [unauthorized]:
    so has the error for a 403, and for any other status from 400 to 599
    unless the text of the HTTP error mentions a connection or a timeout.
    A failure is raised as a connection error exactly when its text
    contains [connect] or [timeout] in any case: the two fixed texts for a
    timeout and for a failed connection do, and so does a 401 whose message
    from the server happens to.  The user is returned exactly when
    [validate] succeeds. *)
Theorem validate_or_raise_classes (st : auth_state) :
  (forall r status code message rid,
     raised st (Ok r) = Raise (NotionAPIError status code message rid) ->
     status = 401 /\ code = "unauthorized" /\ rid = None) /\
  (forall r, status_code r = 403 ->
     raised st (Ok r)
     = Raise (NotionAPIError 401 "unauthorized"
                "Access forbidden - check integration permissions" None)) /\
  (forall r, status_code r <> 401 -> status_code r <> 403 ->
     400 <= status_code r < 600 ->
     raised st (Ok r)
     = let msg := "Request failed: " +:+ http_error_text r in
       if mentions_connection msg then Raise (NotionConnectionError msg)
       else Raise (NotionAPIError 401 "unauthorized" msg None)) /\
  (forall r body msg, status_code r = 401 -> text r <> "" ->
     json_body r = Some (JObj body) ->
     body !! "message" = Some (JStr msg) ->
     raised st (Ok r)
     = if mentions_connection msg then Raise (NotionConnectionError msg)
       else Raise (NotionAPIError 401 "unauthorized" msg None)) /\
  (forall m,
     raised st (Raise (Timeout m))
     = Raise (NotionConnectionError
                "Connection timeout while validating token")) /\
  (forall m,
     raised st (Raise (ConnectionError m))
     = Raise (NotionConnectionError "Failed to connect to Notion API")) /\
  (forall get data,
     raised st get = Ok data <->
     exists result,
       (validate' st get).2 = Ok result /\ success result = true /\
       user_info result = data).
Proof.
  assert (forall get,
    raised st get =
    (result ← (validate' st get).2;
     if negb (success result) then
       match error result with
       | JStr msg =>
           if mentions_connection msg then Raise (NotionConnectionError msg)
           else Raise (NotionAPIError 401 "unauthorized" msg None)
       | _ => Raise (AttributeError "object has no attribute 'lower'")
       end
     else Ok (user_info result))) as Hraised.
  { intros get. unfold validate_or_raise.
    by destruct (validate' st get). }
  split_and!.
  - intros r status code message rid. rewrite Hraised. unfold validate.
    destruct (validate_try_cases st r) as [[_ Hres]|(u & _ & _ & _ & Hres)];
      destruct (validate_try' st r) as [st' res]; cbn in *.
    + destruct res as [res|e]; cbn.
      * rewrite Hres. cbn. destruct (error res); try done.
        destruct (mentions_connection s); [done|]. by intros [= <- <- <- <-].
      * destruct Hres as [[m ->]|[m ->]]; cbn; [|done].
        destruct (mentions_connection _); [done|]. by intros [= <- <- <- <-].
    + destruct res as [res|e]; cbn.
      * destruct Hres as [-> _]. done.
      * by destruct Hres as [m ->].
  - intros r H403. rewrite Hraised. unfold validate, validate_try.
    rewrite H403. reflexivity.
  - intros r H401 H403 Hrange. rewrite Hraised.
    unfold validate, validate_try, raise_for_status.
    destruct (Z.eqb_spec (status_code r) 401); [done|].
    destruct (Z.eqb_spec (status_code r) 403); [done|].
    destruct (Z.leb_spec 400 (status_code r)); [|lia].
    destruct (Z.ltb_spec (status_code r) 600); [|lia]. reflexivity.
  - intros r body msg H401 Htext Hbody Hmsg. rewrite Hraised.
    unfold validate, validate_try, response_json. rewrite H401. cbn.
    destruct (String.eqb_spec (text r) ""); [done|]. cbn.
    rewrite Hbody. cbn. unfold dict_get_or. rewrite Hmsg. reflexivity.
  - intros m. reflexivity.
  - intros m. reflexivity.
  - intros get data. rewrite Hraised.
    destruct ((validate' st get).2) as [res|e]; cbn.
    + destruct (success res) eqn:Hs; cbn.
      * split; [intros [= <-]; by exists res|].
        intros (res' & [= <-] & _ & <-). done.
      * split.
        -- destruct (error res); try done.
           by destruct (mentions_connection _).
        -- intros (res' & [= <-] & Hs' & _). congruence.
    + split; [done|]. by intros (res' & ? & _).
Qed.

End AuthStateProperties.

Lemma get_workspace_info_example :
  let run := validate (fun _ => "") (fun _ => "") fresh_auth
               (Ok bot_response) in
  exists result,
    run.2 = Ok result /\
    workspace_info result = JNull /\
    get_workspace_info run.1
      = Ok (JObj {[ "name" := JNull; "owner" := JStr "workspace" ]}).
Proof.
  cbn zeta. eexists. split; [reflexivity|].
  destruct (get_workspace_info_after_validate (fun _ => "") (fun _ => "")
              fresh_auth (Ok bot_response) _ eq_refl eq_refl)
    as (user_data & Huser & Hinfo).
  injection Huser as <-. vm_compute in Hinfo.
  destruct Hinfo as (bot & Hbot & Hinfo & Hws). injection Hbot as <-.
  split; [exact Hws|exact Hinfo].
Defined.

(** A 401 whose message speaks of a connection is raised as a connection
    error; a 500 as an authentication error. *)
Example validate_or_raise_examples :
  (validate_or_raise (fun _ => "500 Server Error") (fun _ => "") fresh_auth
     (Ok {| status_code := 401; text := "{...}";
            json_body := Some (JObj {[ "message" :=
              JStr "Integration is not Connected to this workspace" ]}) |})).2
  = Raise (NotionConnectionError
             "Integration is not Connected to this workspace") /\
  (validate_or_raise (fun _ => "500 Server Error") (fun _ => "") fresh_auth
     (Ok {| status_code := 500; text := ""; json_body := None |})).2
  = Raise (NotionAPIError 401 "unauthorized"
             "Request failed: 500 Server Error" None) /\
  (validate_or_raise (fun _ => "") (fun _ => "") fresh_auth
     (Ok {| status_code := 401; text := "{...}";
            json_body := Some (JObj {[ "message" := JNull ]}) |})).2
  = Raise (AttributeError "object has no attribute 'lower'").
Proof. split_and!; reflexivity. Qed.

(** ** The streams to sync *)

Lemma enabled_name_elem (enabled_streams : list string) (v : json)
    (s : string) :
  enabled_name enabled_streams v = Some s -> s ∈ enabled_streams.
Proof.
  destruct v as [| | | |s'| |]; cbn; try done.
  destruct (negb (String.eqb s' "")); cbn; [|done].
  case_bool_decide; [|done]. by intros [= <-].
Qed.

Lemma select_streams_enabled (enabled_streams : list string)
    (defs : list json) (selected out : list string) :
  select_streams enabled_streams defs selected = Ok out ->
  Forall (fun s => s ∈ enabled_streams) selected ->
  Forall (fun s => s ∈ enabled_streams) out.
Proof.
  revert selected. induction defs as [|stream_def defs IH];
    intros selected; cbn.
  - by intros [= <-].
  - destruct (py_get stream_def "stream" (JObj ∅)) as [stream|]; [|done].
    cbn. destruct (py_get stream "name" JNull) as [stream_name|]; [|done].
    cbn. intros Hrun Hsel. apply (IH _ Hrun).
    destruct (enabled_name enabled_streams stream_name) as [s|] eqn:Hname;
      [|done].
    apply Forall_app. split; [done|].
    apply Forall_singleton. by eapply enabled_name_elem.
Qed.

Lemma select_streams_names (enabled_streams : list string)
    (defs names : list json) (selected : list string) :
  mapM catalog_name defs = Some names ->
  select_streams enabled_streams defs selected
  = Ok (selected ++ omap (enabled_name enabled_streams) names).
Proof.
  revert names selected. induction defs as [|stream_def defs IH];
    intros names selected; cbn.
  - intros [= <-]. cbn. by rewrite app_nil_r.
  - destruct stream_def as [| | | | | |d]; cbn; try done.
    unfold dict_get_or.
    destruct (default (JObj ∅) (d !! "stream")) as [| | | | | |stream];
      cbn; try done.
    destruct (mapM catalog_name defs) as [names'|]; cbn; [|done].
    intros [= <-]. rewrite (IH names') by done. cbn.
    unfold dict_get, dict_get_or.
    destruct (enabled_name enabled_streams (default JNull (stream !! "name")));
      [|done].
    by rewrite <- app_assoc.
Qed.

(** X16: the streams [_get_streams_to_sync] selects.  Every stream it
    returns is enabled in the configuration, and it returns none only when
    none is enabled.  Without a catalog (or with an empty one) these are
    the enabled streams.  With a catalog whose definitions are maps it is
    the names of the catalog that are enabled, in the order and with the
    repetitions of the catalog; when the catalog names no enabled stream,
    every enabled stream is selected instead. *)
Theorem get_streams_to_sync_spec (config : NotionConfig) (catalog : json) :
  let enabled_streams := _get_enabled_streams config in
  (forall out, _get_streams_to_sync config catalog = Ok out ->
     Forall (fun s => s ∈ enabled_streams) out /\
     (out = [] -> enabled_streams = [])) /\
  (truthy catalog = false ->
   _get_streams_to_sync config catalog = Ok enabled_streams) /\
  (forall c defs names,
     catalog = JObj c -> c !! "streams" = Some (JArr defs) ->
     mapM catalog_name defs = Some names ->
     _get_streams_to_sync config catalog
     = Ok match omap (enabled_name enabled_streams) names with
          | [] => enabled_streams
          | s :: selected => s :: selected
          end).
Proof.
  cbn zeta. split_and!.
  - intros out. unfold _get_streams_to_sync.
    destruct (truthy catalog); cbn.
    + destruct (py_get catalog "streams" (JArr [])) as [streams|]; [|done].
      cbn. destruct (py_iter streams) as [defs|]; [|done]. cbn.
      destruct (select_streams _ defs []) as [selected|] eqn:Hsel; [|done].
      cbn. apply select_streams_enabled in Hsel; [|done].
      destruct selected as [|s selected]; intros [= <-].
      * split; [|done]. apply Forall_forall. done.
      * done.
    + intros [= <-]. split; [|done]. apply Forall_forall. done.
  - intros Hfalsy. unfold _get_streams_to_sync. by rewrite Hfalsy.
  - intros c defs names -> Hstreams Hnames. unfold _get_streams_to_sync.
    rewrite (truthy_nonempty_map c "streams" (JArr defs)) by done.
    cbn. unfold dict_get_or. rewrite Hstreams. cbn.
    rewrite (select_streams_names _ defs names) by done. cbn.
    by destruct (omap _ names).
Qed.

(** A catalog that names a disabled stream and an unknown one selects
    every enabled stream; one that names a stream twice syncs it twice. *)
Example get_streams_to_sync_examples :
  let config :=
    {| config_credentials := TokenCredentials "secret_token";
       api_version := "2022-06-28"; start_date := None; max_retries := 5;
       base_retry_delay := 1; max_retry_delay := 60; page_size := 100;
       request_timeout := 60; fetch_blocks := true; max_block_depth := 5;
       sync_users := true; sync_databases := false; sync_pages := true;
       sync_blocks := false; sync_comments := false |} in
  _get_streams_to_sync config (catalog_of ["databases"; "tasks"])
    = Ok ["users"; "pages"] /\
  _get_streams_to_sync config (catalog_of ["pages"; "blocks"; "pages"])
    = Ok ["pages"; "pages"] /\
  _get_streams_to_sync config (JArr [JStr "pages"])
    = Raise (AttributeError "object has no attribute 'get'").
Proof. split_and!; vm_compute; reflexivity. Qed.

(** ** Records and schemas *)

#[local] Arguments dict_of : simpl never.

Lemma dom_dict_of (entries : list (string * json)) :
  dom (dict_of entries) = list_to_set entries.*1.
Proof. apply dom_list_to_map_L. Qed.

(** One step of a run of statements: the statement raises, or returns. *)
Ltac bind_step :=
  match goal with
  | |- context [mbind _ ?r] =>
      let v := fresh "v" in
      let e := fresh "e" in
      destruct r as [v|e]; cbn [mbind result_bind]; [|discriminate]
  end.

Section RecordProperties.
Variable repr_other : json -> string.

(** X17: a record a stream emits has exactly the fields the schema of the
    stream declares: whenever [_transform_record] returns, the keys of the
    record are the keys of [_get_schema_properties], for each of the five
    streams. *)
Theorem records_have_schema_fields :
  (forall record out,
     Users._transform_record record = Ok out ->
     dom out = dom Users._get_schema_properties) /\
  (forall record out,
     Databases._transform_record record = Ok out ->
     dom out = dom Databases._get_schema_properties) /\
  (forall record out,
     Pages._transform_record repr_other record = Ok out ->
     dom out = dom Pages._get_schema_properties) /\
  (forall record page_id out,
     Blocks._transform_record record page_id = Ok out ->
     dom out = dom Blocks._get_schema_properties) /\
  (forall record page_id out,
     Comments._transform_record record page_id = Ok out ->
     dom out = dom Comments._get_schema_properties).
Proof.
  split_and!.
  - intros record out. unfold Users._transform_record.
    destruct record; cbn; try done. intros [= <-].
    unfold Users._get_schema_properties. by rewrite !dom_dict_of.
  - intros record out. unfold Databases._transform_record.
    destruct record; cbn; try done. repeat bind_step. intros [= <-].
    unfold Databases._get_schema_properties. by rewrite !dom_dict_of.
  - intros record out. unfold Pages._transform_record.
    destruct record; cbn; try done. repeat bind_step. intros [= <-].
    unfold Pages._get_schema_properties. by rewrite !dom_dict_of.
  - intros record page_id out. unfold Blocks._transform_record.
    destruct record; cbn; try done. repeat bind_step. intros [= <-].
    unfold Blocks._get_schema_properties. by rewrite !dom_dict_of.
  - intros record page_id out. unfold Comments._transform_record.
    destruct record; cbn; try done. repeat bind_step. intros [= <-].
    unfold Comments._get_schema_properties. by rewrite !dom_dict_of.
Qed.

Local Abbreviation extract := (extract_property_value repr_other).

Lemma flatten_items_spec (items : list (string * json)) (flat out : dict) :
  NoDup items.*1 ->
  flatten_items repr_other items flat = Ok out <->
  forall name,
    match (list_to_map items : dict) !! name with
    | Some prop_data =>
        exists value, extract prop_data = Ok value /\ out !! name = Some value
    | None => out !! name = flat !! name
    end.
Proof.
  revert flat. induction items as [|[k d] items IH]; intros flat Hnodup.
  - cbn. split.
    + intros [= <-] name. by rewrite lookup_empty.
    + intros Heq. f_equal. apply map_eq. intros name.
      specialize (Heq name). by rewrite lookup_empty in Heq.
  - cbn [fmap list_fmap fst] in Hnodup. apply NoDup_cons in Hnodup
      as [Hk Hnodup].
    assert ((list_to_map items : dict) !! k = None) as Hfresh.
    { by apply not_elem_of_list_to_map_1. }
    cbn [flatten_items list_to_map foldr]. split.
    + destruct (extract d) as [v|e] eqn:Hd; cbn; [|done].
      intros Hrun name.
      pose proof (proj1 (IH _ Hnodup) Hrun name) as Hname.
      clear Hrun. rename Hname into Hrun. cbn.
      destruct (decide (k = name)) as [<-|Hne].
      * rewrite lookup_insert_eq. rewrite Hfresh in Hrun.
        rewrite lookup_insert_eq in Hrun. by exists v.
      * rewrite lookup_insert_ne by done.
        destruct (_ !! name); [done|].
        by rewrite lookup_insert_ne in Hrun.
    + intros Hall. pose proof (Hall k) as Hk'. cbn in Hk'.
      rewrite lookup_insert_eq in Hk'. destruct Hk' as (v & Hv & Hout).
      rewrite Hv. cbn. apply (proj2 (IH _ Hnodup)). intros name.
      specialize (Hall name). cbn in Hall.
      destruct (decide (k = name)) as [<-|Hne].
      * rewrite Hfresh. by rewrite lookup_insert_eq.
      * rewrite lookup_insert_ne in Hall by done.
        destruct (_ !! name); [done|].
        by rewrite lookup_insert_ne.
Qed.

(** X18: [flatten_properties] keeps the names of the properties.  On a map
    it returns exactly when [extract_property_value] returns on every
    property, and the result maps each property name to the value
    extracted from its data, and nothing else to anything. *)
Theorem flatten_properties_spec (properties out : dict) :
  flatten_properties repr_other (JObj properties) = Ok out <->
  forall name,
    match properties !! name with
    | Some prop_data =>
        exists value, extract prop_data = Ok value /\ out !! name = Some value
    | None => out !! name = None
    end.
Proof.
  unfold flatten_properties.
  rewrite flatten_items_spec by apply NoDup_fst_map_to_list.
  rewrite list_to_map_to_list.
  split; intros Hall name; specialize (Hall name);
    destruct (properties !! name); try done;
    by rewrite lookup_empty in *.
Qed.

(** X19: for a property whose type is a string outside the structured
    types (so for [number], [checkbox], [url], [email], [phone_number],
    [created_time], [last_edited_time], [verification], and for a type the
    code does not know), [extract_property_value] returns the entry of the
    property named after its type, untouched, and [None] when there is no
    such entry. *)
Theorem extract_property_value_raw (property_data : dict) (type : string) :
  property_data !! "type" = Some (JStr type) ->
  type ∉ structured_types ->
  extract (JObj property_data) = Ok (dict_get property_data type).
Proof.
  intros Htype Hraw. unfold extract_property_value.
  rewrite (truthy_nonempty_map property_data "type" (JStr type)) by done.
  cbn [negb py_get mbind result_bind]. unfold dict_get_or. rewrite Htype.
  change (default JNull (Some (JStr type))) with (JStr type).
  cbn [json_is_str].
  unfold structured_types in Hraw.
  rewrite !not_elem_of_cons in Hraw.
  destruct Hraw as (? & ? & ? & ? & ? & ? & ? & ? & ? & ? & ? & ? & ? & ? & _).
  repeat match goal with
  | |- context [String.eqb type ?s] =>
      destruct (String.eqb_spec type s); [subst; try done|]
  end.
  done.
Qed.

End RecordProperties.

(** ** Discovery *)

Lemma get_stream_class_registered (stream_name : string)
    (stream_class : stream_class) :
  get_stream_class stream_name = Some stream_class ->
  (stream_name, stream_class) ∈ AVAILABLE_STREAMS.
Proof. apply elem_of_list_to_map_2. Qed.

Lemma stream_definition_coherent (stream_name : string)
    (stream_class : stream_class) :
  (stream_name, stream_class) ∈ AVAILABLE_STREAMS ->
  coherent_definition (stream_definition stream_class).
Proof.
  unfold AVAILABLE_STREAMS. rewrite !elem_of_cons, elem_of_nil.
  intros [H|[H|[H|[H|[H|[]]]]]]; injection H as _ ->;
    unfold coherent_definition; eexists _, _, _;
    (split; [reflexivity|]); (split; [reflexivity|]);
    (split; [reflexivity|]); (split; [by eexists|]);
    vm_compute; try done;
    eexists; (split; [reflexivity|]); (split; [by eexists|]); done.
Qed.

Lemma discover_streams_coherent (enabled_streams : list string) :
  Forall coherent_definition (discover_streams enabled_streams).
Proof.
  induction enabled_streams as [|stream_name rest IH]; cbn; [done|].
  destruct (get_stream_class stream_name) as [stream_class|] eqn:Hclass;
    [|done].
  apply Forall_cons. split; [|done].
  apply get_stream_class_registered in Hclass.
  by eapply stream_definition_coherent.
Qed.

(** X20: the catalog [discover] announces.  It defines the enabled streams
    of the configuration, one definition each and in their order; and each
    definition is coherent: its schema requires the primary key and
    declares it, and either the stream offers the incremental mode, defines
    its cursor and names a cursor field that the schema declares, or it
    offers the full refresh only and names no cursor. *)
Theorem discover_spec (config : NotionConfig) :
  exists stream_defs : list dict,
    catalog_streams (discover config) = Some (JObj <$> stream_defs) /\
    (fun stream_def : dict => stream_def !! "name") <$> stream_defs
      = (fun stream_name => Some (JStr stream_name))
          <$> _get_enabled_streams config /\
    Forall coherent_definition stream_defs.
Proof.
  exists (discover_streams (_get_enabled_streams config)). split_and!.
  - reflexivity.
  - unfold _get_enabled_streams.
    destruct (sync_users config), (sync_databases config),
      (sync_pages config), (sync_blocks config), (sync_comments config);
      reflexivity.
  - apply discover_streams_coherent.
Qed.

Lemma extract_property_value_raw_example :
  extract_property_value (fun _ => "")
    (JObj {[ "type" := JStr "checkbox"; "checkbox" := JBool true ]})
  = Ok (JBool true).
Proof.
  rewrite (extract_property_value_raw (fun _ => "")
             {[ "type" := JStr "checkbox"; "checkbox" := JBool true ]}
             "checkbox").
  - reflexivity.
  - reflexivity.
  - unfold structured_types. rewrite !not_elem_of_cons.
    split_and!; try done. apply not_elem_of_nil.
Defined.

(** The record of a page: the title found among the properties, and the
    properties flattened. *)
Example pages_transform_record_example :
  (out ← Pages._transform_record (fun _ => "")
           (sample_page "p1" "2024-01-15T10:30:00Z");
   Ok (out !! "title", out !! "properties_flat", out !! "created_time"))
  = Ok (Some (JStr "Roadmap"),
        Some (JObj {[ "Name" := JStr "Roadmap"; "Done" := JBool true ]}),
        Some JNull).
Proof. vm_compute. reflexivity. Qed.

(** The email of a user is read for a person only. *)
Example users_transform_record_example :
  (Users._transform_record
     (JObj {[ "id" := JStr "u1"; "type" := JStr "person";
              "person" := JObj {[ "email" := JStr "ada@example.org" ]} ]})
     ≫= fun out => Ok (out !! "email"))
  = Ok (Some (JStr "ada@example.org")) /\
  (Users._transform_record
     (JObj {[ "id" := JStr "u2"; "type" := JStr "bot";
              "person" := JObj {[ "email" := JStr "ada@example.org" ]} ]})
     ≫= fun out => Ok (out !! "email"))
  = Ok (Some JNull).
Proof. split; vm_compute; reflexivity. Qed.

(** ** Incremental reading *)

Lemma later_of_aware (latest : option datetime) (t : datetime) :
  (forall l, latest = Some l -> is_Some (utcoffset l)) ->
  is_Some (utcoffset t) ->
  forall l, later_of latest t = Some l -> is_Some (utcoffset l).
Proof.
  intros Hlatest Ht l. unfold later_of. destruct latest as [l0|].
  - destruct (instant_of l0 <? instant_of t); intros [= <-]; auto.
  - by intros [= <-].
Qed.

Section IncrementalProperties.
Variable fromisoformat : string -> option datetime.
Variable strptime_ymd : string -> option datetime.
Variable self : BaseStream.
Variable field : string.
Variable transform : json -> result dict.
Variable stops_early : bool.
Variable state : dict.
Variable last_sync : option datetime.
Hypothesis Hinc : supports_incremental self = true.
Hypothesis Hfield : cursor_field self = Some field.
Hypothesis Hne : field <> "".
Hypothesis Hkeeps : forall r record,
  transform (JObj r) = Ok record -> dict_get record field = dict_get r field.
Hypothesis Hstate :
  get_last_sync_time fromisoformat strptime_ymd state = Ok last_sync.
Hypothesis Haware : forall l, last_sync = Some l -> is_Some (utcoffset l).

Local Abbreviation time_of := (cursor_time fromisoformat strptime_ymd field).
Local Abbreviation newer :=
  (newer_than fromisoformat strptime_ymd last_sync field).
Local Abbreviation loop_of :=
  (read_loop fromisoformat strptime_ymd self transform stops_early state
     "incremental").

Lemma cursor_time_Some (item : json) (t : datetime) :
  time_of item = Some t ->
  exists r o,
    item = JObj r /\ truthy (dict_get r field) = true /\
    parse_iso_datetime fromisoformat strptime_ymd (dict_get r field)
      = Ok (Some t) /\
    utcoffset t = Some o.
Proof using Type.
  unfold cursor_time. destruct item as [| | | | | |r]; try done.
  destruct (truthy (dict_get r field)) eqn:Htruthy; [|done].
  destruct (parse_iso_datetime _ _ _) as [[t'|]|] eqn:Hparse; try done.
  destruct (utcoffset t') as [o|] eqn:Ho; [|done].
  intros [= <-]. by exists r, o.
Qed.

Lemma include_item_timed (item : json) (t : datetime) :
  time_of item = Some t ->
  include_item fromisoformat strptime_ymd self state item "incremental"
  = Ok (newer item).
Proof using Hinc Hfield Hne Hstate Haware.
  intros Ht. unfold newer_than. rewrite Ht.
  apply cursor_time_Some in Ht as (r & o & -> & Htruthy & Hparse & Ho).
  cbn [include_item].
  rewrite (should_include_incremental fromisoformat strptime_ymd self field
             state r Hinc Hfield Hne Htruthy).
  rewrite Hstate. cbn. destruct last_sync as [l|]; [|done].
  rewrite Hparse. cbn. destruct (Haware l eq_refl) as [ol Hol].
  unfold datetime_gt, instant_of. by rewrite Ho, Hol.
Qed.

Lemma track_latest_timed (r record : dict) (t : datetime)
    (latest : option datetime) :
  time_of (JObj r) = Some t ->
  transform (JObj r) = Ok record ->
  (forall l, latest = Some l -> is_Some (utcoffset l)) ->
  track_latest fromisoformat strptime_ymd self record latest
  = Ok (later_of latest t).
Proof using Hfield Hne Hkeeps.
  intros Ht Hrecord Hlatest.
  apply cursor_time_Some in Ht as (r' & o & [= <-] & _ & Hparse & Ho).
  unfold track_latest. rewrite Hfield.
  destruct (String.eqb_spec field ""); [done|].
  rewrite (Hkeeps r record Hrecord), Hparse. cbn.
  destruct latest as [l|]; [|done].
  destruct (Hlatest l eq_refl) as [ol Hol].
  unfold datetime_gt, later_of, instant_of. rewrite Ho, Hol. cbn.
  by destruct (wall l - ol <? wall t - o).
Qed.

(** The loop on a listing whose items carry a cursor time and
    transform. *)
Lemma read_loop_timed (items : list json) (listing_end : gen_end)
    (latest : option datetime) :
  Forall (fun item => is_Some (time_of item) /\ returns (transform item))
    items ->
  (forall l, latest = Some l -> is_Some (utcoffset l)) ->
  exists records,
    mapM transform (kept stops_early newer items) = Ok records /\
    loop_of items listing_end latest
    = (Gen (JObj <$> records)
         (if stops_early && negb (forallb newer items)
          then Done else listing_end),
       latest_of fromisoformat strptime_ymd field
         (kept stops_early newer items) latest).
Proof using Hinc Hfield Hne Hkeeps Hstate Haware.
  intros Hitems. revert latest.
  induction Hitems as [|item items [[t Ht] [record Hrecord]] _ IH];
    intros latest Hlatest.
  - exists []. split; [done|]. cbn. by rewrite andb_false_r.
  - cbn [read_loop kept forallb].
    rewrite (include_item_timed item t Ht).
    destruct (newer item) eqn:Hnewer.
    + pose proof Ht as Ht'.
      apply cursor_time_Some in Ht' as (r & o & -> & _ & _ & Ho).
      rewrite Hrecord. cbn [mbind result_bind].
      rewrite (track_latest_timed r record t latest Ht Hrecord Hlatest).
      cbn [mbind result_bind].
      destruct (IH (later_of latest t)) as (records & Hrecords & Hloop).
      { apply later_of_aware; [done|by rewrite Ho]. }
      exists (record :: records). split.
      * cbn. rewrite Hrecord. cbn. by rewrite Hrecords.
      * rewrite Hloop. cbn [andb]. unfold latest_of. cbn [omap list_omap].
        rewrite Ht. done.
    + destruct stops_early eqn:Hstops; cbn [andb String.eqb negb].
      * exists []. split; [done|]. done.
      * destruct (IH latest Hlatest) as (records & Hrecords & Hloop).
        exists records. split; [done|]. rewrite Hloop. done.
Qed.

(** The latest time is not before any of the times it is taken over. *)
Lemma latest_of_upper (items : list json) (latest : option datetime)
    (l' : datetime) :
  latest_of fromisoformat strptime_ymd field items latest = Some l' ->
  (forall l0, latest = Some l0 -> instant_of l0 <= instant_of l') /\
  Forall (fun item => forall t, time_of item = Some t ->
            instant_of t <= instant_of l') items.
Proof using Type.
  unfold latest_of. revert latest.
  induction items as [|item items IH]; intros latest.
  - cbn. intros ->. split; [|done]. intros l0 [= <-]. lia.
  - cbn [omap list_omap]. destruct (time_of item) as [t|] eqn:Ht.
    + cbn [foldl]. intros Hl'. destruct (IH _ Hl') as [Hlater Hitems].
      assert (instant_of t <= instant_of l' /\
              forall l0, latest = Some l0 ->
                instant_of l0 <= instant_of l') as [Hto Hlo].
      { unfold later_of in Hlater. destruct latest as [l0|].
        - destruct (Z.ltb_spec (instant_of l0) (instant_of t)).
          + specialize (Hlater t eq_refl). split; [done|].
            intros ? [= <-]. lia.
          + specialize (Hlater l0 eq_refl). split; [lia|].
            by intros ? [= <-].
        - specialize (Hlater t eq_refl). split; [done|]. done. }
      split; [done|]. apply Forall_cons. split; [|done].
      intros t' Ht'. congruence.
    + intros Hl'. destruct (IH _ Hl') as [Hlater Hitems].
      split; [done|]. apply Forall_cons. split; [|done]. congruence.
Qed.

(** Without a time to start from, there is no latest time only when no
    item has a time. *)
Lemma latest_of_None (items : list json) :
  latest_of fromisoformat strptime_ymd field items None = None ->
  Forall (fun item => time_of item = None) items.
Proof using Type.
  unfold latest_of.
  assert (forall ts l, foldl later_of (Some l) ts <> None) as Hsome.
  { induction ts as [|t ts IH]; intros l; [done|]. cbn.
    destruct (instant_of l <? instant_of t); apply IH. }
  induction items as [|item items IH]; [done|].
  cbn [omap list_omap]. destruct (time_of item) as [t|] eqn:Ht.
  - cbn. intros Hnone. by apply Hsome in Hnone.
  - intros Hnone. apply Forall_cons. split; [done|]. by apply IH.
Qed.

End IncrementalProperties.

Lemma kept_Forall {A} (P : A -> Prop) (stops_early : bool) (keep : A -> bool)
    (items : list A) :
  Forall P items -> Forall P (kept stops_early keep items).
Proof.
  induction 1 as [|x items Hx _ IH]; cbn; [done|].
  destruct (keep x); [by apply Forall_cons|]. by destruct stops_early.
Qed.

Lemma pages_transform_keeps_cursor (repr_other : json -> string)
    (r record : dict) :
  Pages._transform_record repr_other (JObj r) = Ok record ->
  dict_get record "last_edited_time" = dict_get r "last_edited_time".
Proof.
  unfold Pages._transform_record. cbn. repeat bind_step. by intros [= <-].
Qed.

Lemma databases_transform_keeps_cursor (r record : dict) :
  Databases._transform_record (JObj r) = Ok record ->
  dict_get record "last_edited_time" = dict_get r "last_edited_time".
Proof.
  unfold Databases._transform_record. cbn. repeat bind_step.
  by intros [= <-].
Qed.

Section StreamsIncremental.
Variable fromisoformat : string -> option datetime.
Variable strptime_ymd : string -> option datetime.
Variable isoformat : datetime -> string.
Variable repr_other : json -> string.

Local Abbreviation edited := (cursor_time fromisoformat strptime_ymd
                                "last_edited_time").
Local Abbreviation edited_after last_sync :=
  (newer_than fromisoformat strptime_ymd last_sync "last_edited_time").
Local Abbreviation latest_edit :=
  (latest_of fromisoformat strptime_ymd "last_edited_time").
Local Abbreviation stored_time :=
  (get_last_sync_time fromisoformat strptime_ymd).
Local Abbreviation Pages_read :=
  (Pages_read_records fromisoformat strptime_ymd isoformat repr_other).
Local Abbreviation Databases_read :=
  (Databases_read_records fromisoformat strptime_ymd isoformat).
Local Abbreviation page_record := (Pages._transform_record repr_other).

(** X21: the pages stream in incremental mode.  On a listing whose pages
    carry an edit time that reads as an aware datetime and transform, and
    with a stored time that is aware or absent, it yields the records of
    the pages up to the first that was not edited after the stored time and
    stops the listing there, also when later pages were edited after it;
    and when it ends without an exception and has yielded a page, it
    stores the latest edit time among the pages yielded. *)
Theorem pages_read_incremental (state : dict) (last_sync : option datetime)
    (items : list json) (listing_end : gen_end) :
  stored_time state = Ok last_sync ->
  (forall l, last_sync = Some l -> is_Some (utcoffset l)) ->
  Forall (fun item => is_Some (edited item) /\ returns (page_record item))
    items ->
  let selected := kept true (edited_after last_sync) items in
  let ended :=
    if forallb (edited_after last_sync) items then listing_end else Done in
  exists records,
    mapM page_record selected = Ok records /\
    Pages_read state "incremental" (Gen items listing_end)
    = (Gen (JObj <$> records) ended,
       match ended, latest_edit selected None with
       | Done, Some latest => set_last_sync_time isoformat state latest
       | _, _ => state
       end).
Proof.
  intros Hstate Haware Hitems. cbn zeta.
  destruct (read_loop_timed fromisoformat strptime_ymd PagesStream
              "last_edited_time" page_record true state last_sync
              eq_refl eq_refl ltac:(done)
              (pages_transform_keeps_cursor repr_other) Hstate Haware
              items listing_end None Hitems ltac:(done))
    as (records & Hrecords & Hloop).
  exists records. split; [done|].
  unfold Pages_read_records, read_with_cursor.
  cbn [yielded ending]. rewrite Hloop. cbn [ending andb].
  by destruct (forallb _ items).
Qed.

(** X22: the databases stream in incremental mode.  Under the same
    conditions it yields the records of all the databases edited after the
    stored time, in the order of the listing, and when the listing ends
    without an exception and a database was yielded, it stores the latest
    edit time among them. *)
Theorem databases_read_incremental (state : dict)
    (last_sync : option datetime) (items : list json)
    (listing_end : gen_end) :
  stored_time state = Ok last_sync ->
  (forall l, last_sync = Some l -> is_Some (utcoffset l)) ->
  Forall (fun item =>
            is_Some (edited item) /\
            returns (Databases._transform_record item)) items ->
  let selected := kept false (edited_after last_sync) items in
  exists records,
    mapM Databases._transform_record selected = Ok records /\
    Databases_read state "incremental" (Gen items listing_end)
    = (Gen (JObj <$> records) listing_end,
       match listing_end, latest_edit selected None with
       | Done, Some latest => set_last_sync_time isoformat state latest
       | _, _ => state
       end).
Proof.
  intros Hstate Haware Hitems. cbn zeta.
  destruct (read_loop_timed fromisoformat strptime_ymd DatabasesStream
              "last_edited_time" Databases._transform_record false state
              last_sync eq_refl eq_refl ltac:(done)
              databases_transform_keeps_cursor Hstate Haware
              items listing_end None Hitems ltac:(done))
    as (records & Hrecords & Hloop).
  exists records. split; [done|].
  unfold Databases_read_records, read_with_cursor.
  cbn [yielded ending]. rewrite Hloop. done.
Qed.

End StreamsIncremental.

(** ** The pages stream read twice *)

Section PagesTwice.
Variable fromisoformat : string -> option datetime.
Variable strptime_ymd : string -> option datetime.
Variable isoformat : datetime -> string.
Variable repr_other : json -> string.

Local Abbreviation edited := (cursor_time fromisoformat strptime_ymd
                                "last_edited_time").
Local Abbreviation edited_after last_sync :=
  (newer_than fromisoformat strptime_ymd last_sync "last_edited_time").
Local Abbreviation latest_edit :=
  (latest_of fromisoformat strptime_ymd "last_edited_time").
Local Abbreviation stored_time :=
  (get_last_sync_time fromisoformat strptime_ymd).
Local Abbreviation Pages_read :=
  (Pages_read_records fromisoformat strptime_ymd isoformat repr_other).
Local Abbreviation page_record := (Pages._transform_record repr_other).

Lemma latest_of_elem (items : list json) (latest : option datetime)
    (l : datetime) :
  latest_edit items latest = Some l ->
  latest = Some l \/ exists item, item ∈ items /\ edited item = Some l.
Proof.
  unfold latest_of. revert latest.
  induction items as [|item items IH]; intros latest; [by left|].
  cbn [omap list_omap]. destruct (edited item) as [t|] eqn:Ht.
  - cbn [foldl]. intros [Hl|(item' & Hin & Hl)]%IH.
    + unfold later_of in Hl. destruct latest as [l0|].
      * destruct (instant_of l0 <? instant_of t); injection Hl as <-.
        -- right. exists item. split; [left|done].
        -- by left.
      * injection Hl as <-. right. exists item. split; [left|done].
    + right. exists item'. split; [by right|done].
  - intros [Hl|(item' & Hin & Hl)]%IH; [by left|].
    right. exists item'. split; [by right|done].
Qed.

Lemma kept_elem {A} (stops_early : bool) (keep : A -> bool)
    (items : list A) (x : A) :
  x ∈ kept stops_early keep items -> x ∈ items.
Proof.
  induction items as [|y items IH]; cbn; [done|].
  destruct (keep y).
  - rewrite !elem_of_cons. intros [->|Hx]; [by left|right; auto].
  - destruct stops_early; [by intros ?%elem_of_nil|].
    intros Hx. right. auto.
Qed.

(** A second incremental run of the pages stream over the same listing
    yields nothing: after a run that ended without an exception the stored
    time is the latest edit time of the pages yielded, so the first page
    of the listing is not newer and the run stops at it. *)
Lemma pages_read_twice (state : dict) (last_sync : option datetime)
    (items : list json) :
  stored_time state = Ok last_sync ->
  (forall l, last_sync = Some l -> is_Some (utcoffset l)) ->
  Forall (fun item => is_Some (edited item) /\ returns (page_record item))
    items ->
  (forall item t, item ∈ items -> edited item = Some t ->
     isoformat t <> "" /\
     parse_iso_datetime fromisoformat strptime_ymd (JStr (isoformat t))
       = Ok (Some t)) ->
  let state' := (Pages_read state "incremental" (Gen items Done)).2 in
  Pages_read state' "incremental" (Gen items Done) = (Gen [] Done, state').
Proof.
  intros Hstate Haware Hitems Hround. cbn zeta.
  assert (forall st ls,
    stored_time st = Ok ls ->
    (forall l, ls = Some l -> is_Some (utcoffset l)) ->
    exists records,
      mapM page_record (kept true (edited_after ls) items) = Ok records /\
      Pages_read st "incremental" (Gen items Done)
      = (Gen (JObj <$> records)
           (if forallb (edited_after ls) items then Done else Done),
         match (if forallb (edited_after ls) items then Done else Done),
               latest_edit (kept true (edited_after ls) items) None with
         | Done, Some latest => set_last_sync_time isoformat st latest
         | _, _ => st
         end)) as Hincremental.
  { intros st ls Hst Hls.
    destruct (read_loop_timed fromisoformat strptime_ymd PagesStream
                "last_edited_time" page_record true st ls
                eq_refl eq_refl ltac:(done)
                (pages_transform_keeps_cursor repr_other) Hst Hls
                items Done None Hitems ltac:(done))
      as (records & Hrecords & Hloop).
    exists records. split; [done|].
    unfold Pages_read_records, read_with_cursor.
    cbn [yielded ending]. rewrite Hloop. cbn [ending andb].
    by destruct (forallb _ items). }
  destruct (Hincremental state last_sync Hstate Haware)
    as (records & Hrecords & Hrun).
  rewrite Hrun. cbn [snd].
  assert ((if forallb (edited_after last_sync) items then Done else Done)
          = Done) as Hdone by (by destruct (forallb _ items)).
  rewrite Hdone in *. clear Hdone.
  destruct (latest_edit (kept true (edited_after last_sync) items) None)
    as [latest|] eqn:Hlatest.
  - (* the stored time becomes the latest edit time *)
    apply latest_of_elem in Hlatest as Helem.
    destruct Helem as [|(item & Hin%kept_elem & Htime)]; [done|].
    destruct (Hround item latest Hin Htime) as [Hne Hparse].
    pose proof Htime as Haw.
    apply cursor_time_Some in Haw as (_ & o & _ & _ & _ & Ho).
    assert (set_last_sync_time isoformat state latest
            = <[ "last_sync_time" := JStr (isoformat latest) ]> state)
      as Hset.
    { unfold set_last_sync_time, format_datetime_for_api. by rewrite Ho. }
    rewrite Hset.
    assert (stored_time (<[ "last_sync_time" := JStr (isoformat latest) ]>
                           state) = Ok (Some latest)) as Hstate'.
    { unfold get_last_sync_time, dict_get. rewrite lookup_insert_eq.
      change (default JNull (Some (JStr (isoformat latest))))
        with (JStr (isoformat latest)).
      cbn [truthy]. destruct (String.eqb_spec (isoformat latest) "");
        [done|]. exact Hparse. }
    destruct (Hincremental _ (Some latest) Hstate')
      as (records' & Hrecords' & Hrun');
      [intros l [= <-]; by rewrite Ho|].
    rewrite Hrun'.
    assert (kept true (edited_after (Some latest)) items = []) as Hnone.
    { destruct items as [|item0 items']; [done|]. cbn [kept].
      destruct (edited_after (Some latest) item0) eqn:Hnewer; [|done].
      exfalso.
      apply Forall_cons in Hitems as [[[t0 Ht0] _] _].
      assert (edited_after last_sync item0 = true) as Hfirst.
      { destruct (edited_after last_sync item0) eqn:Hf; [done|].
        cbn [kept] in Hlatest. by rewrite Hf in Hlatest. }
      destruct (latest_of_upper fromisoformat strptime_ymd
                  "last_edited_time" _ None latest Hlatest) as [_ Hupper].
      cbn [kept] in Hupper. rewrite Hfirst in Hupper.
      apply Forall_cons in Hupper as [Hupper _].
      specialize (Hupper t0 Ht0).
      unfold newer_than in Hnewer. rewrite Ht0 in Hnewer. lia. }
    rewrite Hnone in *. cbn in Hrecords'. injection Hrecords' as <-.
    by destruct (forallb (edited_after (Some latest)) items).
  - (* nothing was yielded, and the state is as before *)
    apply latest_of_None in Hlatest.
    assert (kept true (edited_after last_sync) items = []) as Hnone.
    { destruct (kept true (edited_after last_sync) items) as [|item sel]
        eqn:Hkept; [done|]. exfalso.
      apply Forall_cons in Hlatest as [Hnotime _].
      assert (item ∈ items) as Hin.
      { eapply kept_elem. rewrite Hkept. left. }
      rewrite Forall_forall in Hitems.
      destruct (Hitems item Hin) as [[t Ht] _]. congruence. }
    rewrite Hrun. rewrite Hnone in *. cbn in Hrecords.
    injection Hrecords as <-. done.
Qed.

End PagesTwice.

Lemma returns_by_run {A} (r : result A) :
  match r with Ok _ => true | Raise _ => false end = true -> returns r.
Proof. destruct r as [a|]; [by exists a|done]. Qed.

Lemma is_Some_by_run {A} (o : option A) :
  match o with Some _ => true | None => false end = true -> is_Some o.
Proof. destruct o as [a|]; [by exists a|done]. Qed.

Lemma sample_pages_timed :
  Forall (fun item =>
            is_Some (cursor_time fromisoformat_sample strptime_ymd_sample
                       "last_edited_time" item) /\
            returns (Pages._transform_record (fun _ => "") item))
    sample_pages.
Proof.
  repeat (apply Forall_cons; split;
          [split; [apply is_Some_by_run|apply returns_by_run];
           vm_compute; reflexivity|]).
  apply Forall_nil_2.
Qed.

Lemma pages_read_incremental_example :
  exists records,
    mapM (Pages._transform_record (fun _ => ""))
      [sample_page "p2" "2024-01-15T10:30:01Z"] = Ok records /\
    Pages_read_records fromisoformat_sample strptime_ymd_sample
      isoformat_sample (fun _ => "")
      {[ "last_sync_time" := JStr "2024-01-15T10:30:00Z" ]} "incremental"
      (Gen sample_pages Done)
    = (Gen (JObj <$> records) Done,
       {[ "last_sync_time" := JStr "2024-01-15T10:30:01+00:00" ]}).
Proof.
  destruct (pages_read_incremental fromisoformat_sample strptime_ymd_sample
              isoformat_sample (fun _ => "")
              {[ "last_sync_time" := JStr "2024-01-15T10:30:00Z" ]}
              (Some {| wall := 1247400000000; utcoffset := Some 0 |})
              sample_pages Done)
    as (records & Hrecords & Hrun).
  - vm_compute. reflexivity.
  - intros l [= <-]. by eexists.
  - apply sample_pages_timed.
  - exists records. split.
    + vm_compute in Hrecords. vm_compute. exact Hrecords.
    + rewrite Hrun. vm_compute. reflexivity.
Defined.

Lemma databases_read_incremental_example :
  exists records,
    mapM Databases._transform_record
      [sample_database "d1" "2024-01-15T10:30:01Z"] = Ok records /\
    Databases_read_records fromisoformat_sample strptime_ymd_sample
      isoformat_sample
      {[ "last_sync_time" := JStr "2024-01-15T10:30:00Z" ]} "incremental"
      (Gen [sample_database "d0" "2024-01-15T10:30:00Z";
            sample_database "d1" "2024-01-15T10:30:01Z"] Done)
    = (Gen (JObj <$> records) Done,
       {[ "last_sync_time" := JStr "2024-01-15T10:30:01+00:00" ]}).
Proof.
  destruct (databases_read_incremental fromisoformat_sample
              strptime_ymd_sample isoformat_sample
              {[ "last_sync_time" := JStr "2024-01-15T10:30:00Z" ]}
              (Some {| wall := 1247400000000; utcoffset := Some 0 |})
              [sample_database "d0" "2024-01-15T10:30:00Z";
               sample_database "d1" "2024-01-15T10:30:01Z"] Done)
    as (records & Hrecords & Hrun).
  - vm_compute. reflexivity.
  - intros l [= <-]. by eexists.
  - repeat (apply Forall_cons; split;
            [split; [apply is_Some_by_run|apply returns_by_run];
             vm_compute; reflexivity|]).
    apply Forall_nil_2.
  - exists records. split.
    + vm_compute in Hrecords. vm_compute. exact Hrecords.
    + rewrite Hrun. vm_compute. reflexivity.
Defined.

Example pages_read_twice_example :
  let first :=
    Pages_read_records fromisoformat_sample strptime_ymd_sample
      isoformat_sample (fun _ => "") ∅ "incremental"
      (Gen sample_pages Done) in
  length (yielded first.1) = 2%nat /\
  first.2 = {[ "last_sync_time" := JStr "2024-01-15T10:30:01+00:00" ]} /\
  Pages_read_records fromisoformat_sample strptime_ymd_sample
    isoformat_sample (fun _ => "") first.2 "incremental"
    (Gen sample_pages Done)
  = (Gen [] Done, first.2).
Proof.
  cbn zeta. split; [vm_compute; reflexivity|].
  split; [vm_compute; reflexivity|].
  apply (pages_read_twice fromisoformat_sample strptime_ymd_sample
           isoformat_sample (fun _ => "") ∅ None sample_pages).
  - reflexivity.
  - done.
  - apply sample_pages_timed.
  - intros item t Hin Ht. unfold sample_pages in Hin.
    rewrite !elem_of_cons, elem_of_nil in Hin.
    destruct Hin as [->|[->|[]]]; vm_compute in Ht; injection Ht as <-;
      (split; [done|reflexivity]).
Qed.

(** ** Blocks and comments after the pages *)

Section ChildrenAfterPages.
Variable fromisoformat : string -> option datetime.
Variable strptime_ymd : string -> option datetime.
Variable isoformat : datetime -> string.
Variable repr_other : json -> string.
Variable config : NotionConfig.
Variables list_users list_databases search_pages : gen json.
Variables get_all_blocks list_comments : json -> gen json.

Local Abbreviation edited := (cursor_time fromisoformat strptime_ymd
                                "last_edited_time").
Local Abbreviation Pages_read :=
  (Pages_read_records fromisoformat strptime_ymd isoformat repr_other).
Local Abbreviation sync items :=
  (sync_stream fromisoformat strptime_ymd isoformat repr_other config
     list_users list_databases (Gen items Done) search_pages get_all_blocks
     list_comments).

(** X23: in an incremental read, the blocks stream and the comments stream
    that share the pages stream yield no record once the pages stream has
    been read: they read their pages through it, and its second run yields
    none.  So with the pages before the blocks and the comments, as the
    enabled streams are ordered, an incremental read never reads a block or
    a comment, whatever was edited. *)
Theorem children_after_pages (state own : dict)
    (last_sync : option datetime) (items : list json) :
  get_last_sync_time fromisoformat strptime_ymd state = Ok last_sync ->
  (forall l, last_sync = Some l -> is_Some (utcoffset l)) ->
  Forall (fun item =>
            is_Some (edited item) /\
            returns (Pages._transform_record repr_other item)) items ->
  (forall item t, item ∈ items -> edited item = Some t ->
     isoformat t <> "" /\
     parse_iso_datetime fromisoformat strptime_ymd (JStr (isoformat t))
       = Ok (Some t)) ->
  let state' := (Pages_read state "incremental" (Gen items Done)).2 in
  sync items "pages" own (Some state) "incremental"
    = Some ((Pages_read state "incremental" (Gen items Done)).1,
            state', Some state') /\
  Pages_read state' "incremental" (Gen items Done) = (Gen [] Done, state') /\
  sync items "blocks" own (Some state') "incremental"
    = Some (Gen [] Done, own, Some state') /\
  sync items "comments" own (Some state') "incremental"
    = Some (Gen [] Done, own, Some state').
Proof.
  intros Hstate Haware Hitems Hround. cbn zeta.
  pose proof (pages_read_twice fromisoformat strptime_ymd isoformat
                repr_other state last_sync items Hstate Haware Hitems Hround)
    as Htwice.
  cbn zeta in Htwice. split_and!.
  - unfold sync_stream. cbn [String.eqb Ascii.eqb Bool.eqb].
    by destruct (Pages_read state "incremental" (Gen items Done)).
  - exact Htwice.
  - unfold sync_stream, pages_iterator, Blocks_read_records.
    cbn [String.eqb Ascii.eqb Bool.eqb].
    destruct (fetch_blocks config); cbn [negb]; [|done].
    rewrite Htwice. reflexivity.
  - unfold sync_stream, pages_iterator.
    cbn [String.eqb Ascii.eqb Bool.eqb].
    rewrite Htwice. reflexivity.
Qed.

End ChildrenAfterPages.

Lemma children_after_pages_example :
  let sync :=
    sync_stream fromisoformat_sample strptime_ymd_sample isoformat_sample
      (fun _ => "") sample_config (Gen [] Done) (Gen [] Done)
      (Gen sample_pages Done) (Gen sample_pages Done) sample_blocks
      (fun _ => Gen [] Done) in
  let state' :=
    (Pages_read_records fromisoformat_sample strptime_ymd_sample
       isoformat_sample (fun _ => "") ∅ "incremental"
       (Gen sample_pages Done)).2 in
  state' = {[ "last_sync_time" := JStr "2024-01-15T10:30:01+00:00" ]} /\
  sync "blocks" ∅ (Some state') "incremental"
    = Some (Gen [] Done, ∅, Some state') /\
  sync "comments" ∅ (Some state') "incremental"
    = Some (Gen [] Done, ∅, Some state') /\
  (exists blocks,
     sync "blocks" ∅ (Some state') "full_refresh"
       = Some (blocks, ∅, Some state') /\
     length (yielded blocks) = 2%nat).
Proof.
  cbn zeta.
  destruct (children_after_pages fromisoformat_sample strptime_ymd_sample
              isoformat_sample (fun _ => "") sample_config (Gen [] Done)
              (Gen [] Done) (Gen sample_pages Done) sample_blocks
              (fun _ => Gen [] Done) ∅ ∅ None sample_pages)
    as (_ & _ & Hblocks & Hcomments).
  - reflexivity.
  - done.
  - apply sample_pages_timed.
  - intros item t Hin Ht. unfold sample_pages in Hin.
    rewrite !elem_of_cons, elem_of_nil in Hin.
    destruct Hin as [->|[->|[]]]; vm_compute in Ht; injection Ht as <-;
      (split; [done|reflexivity]).
  - split_and!.
    + vm_compute. reflexivity.
    + exact Hblocks.
    + exact Hcomments.
    + eexists. split; vm_compute; reflexivity.
Defined.

(** ** Reading: one stream after the other *)





Section ReadProperties.
Variable fromisoformat : string -> option datetime.
Variable strptime_ymd : string -> option datetime.
Variable isoformat : datetime -> string.
Variable repr_other : json -> string.
Variable now : nat -> Z.
Variable config : NotionConfig.
Variables list_users list_databases : gen json.
Variables search_pages_sorted search_pages : gen json.
Variables get_all_blocks list_comments : json -> gen json.

(** The runs of the client are finished runs. *)
Hypothesis Husers : ending list_users <> Unfinished.
Hypothesis Hdatabases : ending list_databases <> Unfinished.
Hypothesis Hsorted : ending search_pages_sorted <> Unfinished.
Hypothesis Hpages : ending search_pages <> Unfinished.
Hypothesis Hblocks : forall id, ending (get_all_blocks id) <> Unfinished.
Hypothesis Hcomments : forall id, ending (list_comments id) <> Unfinished.

Local Abbreviation sync :=
  (sync_stream fromisoformat strptime_ymd isoformat repr_other config
     list_users list_databases search_pages_sorted search_pages
     get_all_blocks list_comments).
Local Abbreviation read_all :=
  (read_streams fromisoformat strptime_ymd isoformat repr_other now config
     list_users list_databases search_pages_sorted search_pages
     get_all_blocks list_comments).
Local Abbreviation read' :=
  (read fromisoformat strptime_ymd isoformat repr_other now config
     list_users list_databases search_pages_sorted search_pages
     get_all_blocks list_comments).









End ReadProperties.


(** The same workspace read incrementally, first without a state: the
    pages are read, and no block. *)
Example read_incremental_no_blocks :
  let run :=
    read fromisoformat_sample strptime_ymd_sample isoformat_sample
      (fun _ => "") sample_clock sample_config sample_users
      (Gen [] Done) (Gen sample_pages Done) (Gen sample_pages Done)
      sample_blocks (fun _ => Gen [] Done) JNull None "incremental" in
  ending run = Done /\
  length (stream_records "pages" (yielded run)) = 2%nat /\
  stream_records "blocks" (yielded run) = [] /\
  last (yielded run)
    = Some (AirbyteMessage.log "INFO" "Completed comments stream: 0 records").
Proof. cbn zeta. split_and!; vm_compute; reflexivity. Qed.
